(** * ScratchNet: the feed-forward network trainer of [src/network.cpp]

    A shallow embedding of [Network] (construction, [setInput],
    [feedForward], [backPropagate], [update], [train]) together with the
    collaborators it calls.

    - A C++ [double] is kept abstract: the class [Double] gives the type and
      its [+], [-], [*] and [0.0]. Every theorem therefore holds for any
      interpretation of the arithmetic, IEEE-754 included; no algebraic law
      is assumed.
    - [std::vector] is [list]; [.at(i)] is a checked lookup that throws
      [out_of_range]. Vector sizes and the [int] loop counters that range
      over them are natural numbers (a vector never holds 2^31 elements
      here), the caller-supplied layer sizes stay in [Z].
    - The object is mutated in place and an exception leaves it as it was
      at the throw: a method is a function from the state to an outcome
      (value or exception) and the state reached.
    - Console output ([cout], [linalg::print], [printToConsole]) does not
      touch the object: what is printed is left out, the checked reads
      made to print it are kept, since [.at] can throw. *)

From stdpp Require Import base list.
From Stdlib Require Import ZArith Lia.

(** ** Exceptions and the method monad *)

Inductive exception : Type :=
  | out_of_range
  | dimension_mismatch
  | undefined_behaviour.

Inductive result (A : Type) : Type :=
  | Ok (a : A)
  | Throw (e : exception).
Global Arguments Ok {A} a.
Global Arguments Throw {A} e.

Global Instance result_ret : MRet result := λ A a, Ok a.
Global Instance result_bind : MBind result := λ A B f r,
  match r with
  | Ok a => f a
  | Throw e => Throw e
  end.

(** A method on an object of type [St]: the state persists when it throws. *)
Definition M (St A : Type) : Type := St → result A * St.

Global Instance M_ret {St} : MRet (M St) := λ A a s, (Ok a, s).
Global Instance M_bind {St} : MBind (M St) := λ A B f m s,
  match m s with
  | (Ok a, s') => f a s'
  | (Throw e, s') => (Throw e, s')
  end.

Definition gets {St A} (f : St → A) : M St A := λ s, (Ok (f s), s).
Definition modify {St} (f : St → St) : M St unit := λ s, (Ok tt, f s).
Definition lift {St A} (r : result A) : M St A := λ s, (r, s).

(** [v.at(i)] *)
Definition vector_at {A} (v : list A) (i : nat) : result A :=
  match v !! i with
  | Some x => Ok x
  | None => Throw out_of_range
  end.

(** [for (int k = i; k < i + n; ++k) body(k)] *)
Fixpoint for_from {St} (i n : nat) (body : nat → M St unit) : M St unit :=
  match n with
  | 0 => mret tt
  | S n' => body i;; for_from (S i) n' body
  end.

Definition for_ {St} (n : nat) (body : nat → M St unit) : M St unit :=
  for_from 0 n body.

(** ** Scalars and the parts that live outside [src] *)

Class Double : Type := {
  double : Type;
  dadd : double → double → double;
  dsub : double → double → double;
  dmul : double → double → double;
  dzero : double;
}.

(** [squash] and [squash_deriv] are the neuron's fixed squashing function and
    its derivative (bodies in neuron.cpp), [randomDouble k] is what the
    [k]-th call of [numerical::randomDouble] returns and [m_LEARNINGRATE]
    is the constant declared in network.hpp. *)
Class Externals `{Double} : Type := {
  squash : double → double;
  squash_deriv : double → double;
  randomDouble : nat → double;
  m_LEARNINGRATE : double;
}.

(** ** Neuron (include/ml_models/DNN/neuron.hpp)

    The header comes in two versions; the record follows the one that
    declares [getBias], which [Network::update] needs through
    [Layer::getBiasAt]. The four accessors are the inline ones of the
    header. *)

Module Neuron.

Record t `{Double} : Type := mk {
  m_input : double;
  m_activation : double;
  m_derivative : double;
  m_bias : double;
}.

Section methods.
Context `{Externals}.

Definition getInput (n : t) : double := m_input n.
Definition getActivation (n : t) : double := m_activation n.
Definition getDerivative (n : t) : double := m_derivative n.
Definition getBias (n : t) : double := m_bias n.

(** Modelled from the spec: the body of [Neuron::setInput] is not under
    src; section 4.1 has it overwrite the input and nothing else. *)
Definition setInput (input : double) (n : t) : t :=
  mk _ input (m_activation n) (m_derivative n) (m_bias n).

(** Modelled from the spec: the body of [Neuron::setBias] is not under
    src; section 4.1 has it overwrite the bias and nothing else. *)
Definition setBias (bias : double) (n : t) : t :=
  mk _ (m_input n) (m_activation n) (m_derivative n) bias.

(** Modelled from the spec: the body of [Neuron::activate] is not under
    src; section 4.1 gives the policy squash(input + bias); the bias of
    an input neuron is the initial 0, which nothing overwrites. Sections
    3 and 9 report that the source may squash the raw input instead and
    leave the policy open: the theorems below hold under either reading,
    and nothing is stated here on whether the bias enters the activation;
    only the numbers computed in the examples on concrete networks depend
    on the policy. *)
Definition activate (n : t) : t :=
  mk _ (m_input n) (squash (dadd (m_input n) (m_bias n)))
       (m_derivative n) (m_bias n).

(** Modelled from the spec: the body of [Neuron::derive] is not under
    src; section 4.1 has it recompute the derivative analogously. *)
Definition derive (n : t) : t :=
  mk _ (m_input n) (m_activation n)
       (squash_deriv (dadd (m_input n) (m_bias n))) (m_bias n).

(** Modelled from the spec: the constructor [Neuron(double input)] is
    declared only; the bias starts at the header's initialiser
    [m_bias{0}], activation and derivative are computed from the
    input. *)
Definition new (input : double) : t :=
  derive (activate (mk _ input dzero dzero dzero)).

End methods.

End Neuron.

(** ** Layer *)

Module Layer.

(** Modelled from the spec: the Layer class is not under src; section 4.2
    makes it a fixed-size ordered collection of neurons with bulk getters
    and index-checked setters. *)
Abbreviation t := (list Neuron.t).

Section methods.
Context `{Externals}.

(** Modelled from the spec: [Layer(int size)] builds [size] neurons;
    the spec gives sizes from 1 up, a size below 0 gives no neuron
    here. *)
Definition new (size : Z) : t := replicate (Z.to_nat size) (Neuron.new dzero).

(** Modelled from the spec: [Layer::getSize] is the size fixed at
    construction. *)
Definition getSize (l : t) : nat := length l.

(** Modelled from the spec: [Layer::getInputs], [getActivations] and
    [getDerivatives] give the stored values of all neurons in order; they
    are plain reads, so that repeated calls return the same values
    (section 8). *)
Definition getInputs (l : t) : list double := Neuron.getInput <$> l.
Definition getActivations (l : t) : list double := Neuron.getActivation <$> l.
Definition getDerivatives (l : t) : list double := Neuron.getDerivative <$> l.

(** Modelled from the spec: [Layer::setInputAt] sets one neuron's input
    and recomputes its activation and derivative at once (the eager
    policy of sections 4.2 and 9); an index outside [0, size) throws
    [out_of_range]. *)
Definition setInputAt (idx : nat) (value : double) (l : t) : result t :=
  n ← vector_at l idx;
  mret (<[idx := Neuron.derive (Neuron.activate (Neuron.setInput value n))]> l).

(** Modelled from the spec: [Layer::setBiasAt] overwrites one neuron's
    bias; an index outside [0, size) throws [out_of_range]. *)
Definition setBiasAt (idx : nat) (value : double) (l : t) : result t :=
  n ← vector_at l idx;
  mret (<[idx := Neuron.setBias value n]> l).

(** Modelled from the spec: [Layer::getBiasAt] reads one neuron's bias;
    an index outside [0, size) throws [out_of_range]. *)
Definition getBiasAt (idx : nat) (l : t) : result double :=
  n ← vector_at l idx;
  mret (Neuron.getBias n).

End methods.

End Layer.

(** ** linalg (include/math/linearalgebra.h) *)

Module linalg.

(** Modelled from the spec: [linalg::Matrix<double>] is not under src;
    section 6 makes it a dense R x C matrix, kept here as its two
    dimensions and its rows. *)
Record Matrix `{Double} : Type := mkMatrix {
  rows : nat;
  cols : nat;
  elems : list (list double);
}.

Section methods.
Context `{Externals}.

(** Modelled from the spec: [Matrix(rows, cols, true)] fills an R x C
    matrix with independent random reals, one call of the generator
    per entry, row by row; [k] is the number of calls made before. *)
Definition random (r c : Z) (k : nat) : Matrix :=
  mkMatrix _ (Z.to_nat r) (Z.to_nat c)
    ((λ j, (λ i, randomDouble (k + j * Z.to_nat c + i)) <$> seq 0 (Z.to_nat c))
       <$> seq 0 (Z.to_nat r)).

(** Modelled from the spec: [operator()(j, i)] addresses entry (j, i);
    outside the matrix it throws [out_of_range]. *)
Definition get (m : Matrix) (j i : nat) : result double :=
  row ← vector_at (elems m) j;
  vector_at row i.

(** Modelled from the spec: an assignment through [operator()(j, i)]
    overwrites entry (j, i) in place. *)
Definition set (m : Matrix) (j i : nat) (x : double) : result Matrix :=
  row ← vector_at (elems m) j;
  _ ← vector_at row i;
  mret (mkMatrix _ (rows m) (cols m) (<[j := <[i := x]> row]> (elems m))).

(** Modelled from the spec: one entry of a matrix-vector product, the sum
    of the products accumulated from 0 left to right. *)
Definition dot (u v : list double) : double :=
  foldl (λ acc p, dadd acc (dmul p.1 p.2)) dzero (zip u v).

(** Modelled from the spec: [Matrix * vector] gives the R-length vector
    of the rows' products with the vector; a vector whose length is
    not C throws [dimension_mismatch]. *)
Definition mulVec (m : Matrix) (v : list double) : result (list double) :=
  if decide (length v = cols m) then Ok ((λ row, dot row v) <$> elems m)
  else Throw dimension_mismatch.

(** Modelled from the spec: [transpose] turns R x C into C x R, entry
    (i, j) of the result being entry (j, i). *)
Definition transpose (m : Matrix) : Matrix :=
  mkMatrix _ (cols m) (rows m)
    ((λ i, (λ row, default dzero (row !! i)) <$> elems m) <$> seq 0 (cols m)).

(** Modelled from the spec: [hadamardProduct] multiplies two
    equal-length vectors entry by entry; unequal lengths throw
    [dimension_mismatch]. *)
Definition hadamardProduct (u v : list double) : result (list double) :=
  if decide (length u = length v) then Ok (zip_with dmul u v)
  else Throw dimension_mismatch.

End methods.

End linalg.

(** ** Network (src/network.cpp) *)

Module Network.

(** The members [network.cpp] uses. Their declarations are in network.hpp,
    not under src: the vectors are typed by their use, and [m_numLayers],
    which the code compares with [int] counters and subtracts from, is
    taken as an [int]. *)
Record t `{Double} : Type := mk {
  m_layerSizes : list Z;
  m_numLayers : Z;
  m_layers : list Layer.t;
  m_weightMatrices : list linalg.Matrix;
  m_input : list double;
  m_targetOutput : list double;
  m_errors : list (list double);
}.

Section methods.
Context `{Externals}.

Definition set_layerSizes (v : list Z) (net : t) : t :=
  mk _ v (m_numLayers net) (m_layers net) (m_weightMatrices net)
     (m_input net) (m_targetOutput net) (m_errors net).
Definition set_numLayers (v : Z) (net : t) : t :=
  mk _ (m_layerSizes net) v (m_layers net) (m_weightMatrices net)
     (m_input net) (m_targetOutput net) (m_errors net).
Definition set_layers (v : list Layer.t) (net : t) : t :=
  mk _ (m_layerSizes net) (m_numLayers net) v (m_weightMatrices net)
     (m_input net) (m_targetOutput net) (m_errors net).
Definition set_weightMatrices (v : list linalg.Matrix) (net : t) : t :=
  mk _ (m_layerSizes net) (m_numLayers net) (m_layers net) v
     (m_input net) (m_targetOutput net) (m_errors net).
Definition set_input (v : list double) (net : t) : t :=
  mk _ (m_layerSizes net) (m_numLayers net) (m_layers net) (m_weightMatrices net)
     v (m_targetOutput net) (m_errors net).
Definition set_targetOutput (v : list double) (net : t) : t :=
  mk _ (m_layerSizes net) (m_numLayers net) (m_layers net) (m_weightMatrices net)
     (m_input net) v (m_errors net).
Definition set_errors (v : list (list double)) (net : t) : t :=
  mk _ (m_layerSizes net) (m_numLayers net) (m_layers net) (m_weightMatrices net)
     (m_input net) (m_targetOutput net) v.

(** [m_layers.at(l)] read *)
Definition layer_at (l : nat) : M t Layer.t :=
  layers ← gets m_layers; lift (vector_at layers l).

(** [m_layers.at(l).f(...)] for a mutating [f] of Layer *)
Definition with_layer (l : nat) (f : Layer.t → result Layer.t) : M t unit :=
  L ← layer_at l;
  L' ← lift (f L);
  modify (λ net, set_layers (<[l := L']> (m_layers net)) net).

(** [m_weightMatrices.at(l)] read *)
Definition matrix_at (l : nat) : M t linalg.Matrix :=
  ws ← gets m_weightMatrices; lift (vector_at ws l).

(** [m_errors.at(m_errors.size()-1-l)]: the index is computed in [size_t];
    when [l] is not below the size it wraps to a huge value and [at]
    throws. *)
Definition error_at_rev (l : nat) : M t (list double) :=
  errors ← gets m_errors;
  if decide (l < length errors) then lift (vector_at errors (length errors - 1 - l))
  else lift (Throw out_of_range).

(** The object before the constructor body runs: every vector empty. *)
Definition empty : t := mk _ [] 0 [] [] [] [] [].

(** The constructor runs next to the global random generator: the state is
    the object under construction and the number of calls of
    [numerical::randomDouble] made so far. *)
Definition on_this {A} (m : M t A) : M (t * nat) A := λ '(net, k),
  let '(r, net') := m net in (r, (net', k)).
Definition randomDouble_call : M (t * nat) double := λ '(net, k),
  (Ok (randomDouble k), (net, S k)).
Definition random_matrix (r c : Z) : M (t * nat) linalg.Matrix := λ '(net, k),
  (Ok (linalg.random r c k), (net, k + Z.to_nat r * Z.to_nat c)).

(** [Network::Network(vector<int> &layerSizes)], lines 5-34. The bound of
    the innermost loop is read from a layer whose size the loop body does
    not change. *)
Definition Network (layerSizes : list Z) : M (t * nat) unit :=
  on_this (modify (set_layerSizes layerSizes));;
  on_this (modify (set_numLayers (Z.of_nat (length layerSizes))));;
  numLayers ← on_this (gets m_numLayers);
  for_ (Z.to_nat numLayers) (λ layerNum,
    size ← lift (vector_at layerSizes layerNum);
    on_this (modify (λ net, set_layers (m_layers net ++ [Layer.new size]) net)));;
  for_ (Z.to_nat (numLayers - 1)) (λ layerNum,
    r ← lift (vector_at layerSizes (layerNum + 1));
    c ← lift (vector_at layerSizes layerNum);
    W ← random_matrix r c;
    on_this (modify (λ net, set_weightMatrices (m_weightMatrices net ++ [W]) net));;
    next ← on_this (layer_at (layerNum + 1));
    for_ (Layer.getSize next) (λ neuronIndex,
      b ← randomDouble_call;
      on_this (with_layer (layerNum + 1) (Layer.setBiasAt neuronIndex b)))).

(** What [Network net(layerSizes)] leaves: the object, or the exception
    that escaped the constructor, and the generator's call count. *)
Definition construct (layerSizes : list Z) (k : nat) : result t * nat :=
  match Network layerSizes (empty, k) with
  | (Ok _, (net, k')) => (Ok net, k')
  | (Throw e, (_, k')) => (Throw e, k')
  end.

(** [Network::setInput], lines 36-48 *)
Definition setInput (input : list double) : M t unit :=
  modify (set_input input);;
  for_ (length input) (λ neuronIndex,
    x ← lift (vector_at input neuronIndex);
    with_layer 0 (Layer.setInputAt neuronIndex x)).

(** Modelled from the spec: [Network::setTarget] is defined in network.hpp,
    not under src; sections 3 and 7 have it store the target of the output
    layer's size and refuse any other length with a dimension mismatch. *)
Definition setTarget (target : list double) : M t unit :=
  layers ← gets m_layers;
  if decide (Some (length target) = Layer.getSize <$> last layers)
  then modify (set_targetOutput target)
  else lift (Throw dimension_mismatch).

(** [Network::feedForward], lines 50-67. The bound [m_layers.size()-1] is
    unsigned: with no layer it wraps, the loop is entered and
    [m_layers.at(0)] throws. *)
Definition feedForward : M t unit :=
  layers ← gets m_layers;
  match length layers with
  | 0 => lift (Throw out_of_range)
  | S n =>
    for_ n (λ layerNum,
      current ← layer_at layerNum;
      let currentLayerOutputs := Layer.getActivations current in
      W ← matrix_at layerNum;
      nextLayerInputs ← lift (linalg.mulVec W currentLayerOutputs);
      for_ (length nextLayerInputs) (λ neuronNum,
        x ← lift (vector_at nextLayerInputs neuronNum);
        with_layer (layerNum + 1) (Layer.setInputAt neuronNum x)))
  end.

(** The loop of lines 82-85 filling the local [gradCost]. *)
Fixpoint gradCost_loop (i n : nat) (output target gradCost : list double)
  : result (list double) :=
  match n with
  | 0 => Ok gradCost
  | S n' =>
    o ← vector_at output i;
    t ← vector_at target i;
    gradCost_loop (S i) n' output target (gradCost ++ [dsub o t])
  end.

(** One round of the loop of lines 96-108, for layer [i]. *)
Definition backPropagate_step (i : nat) : M t unit :=
  W ← matrix_at i;
  let weights_T := linalg.transpose W in
  L ← layer_at i;
  let thisLayerDerivatives := Layer.getDerivatives L in
  errors ← gets m_errors;
  match last errors with
  | None => lift (Throw undefined_behaviour)
  | Some back =>
    backpropagatedError ← lift (linalg.mulVec weights_T back);
    thisLayerError ← lift (linalg.hadamardProduct backpropagatedError thisLayerDerivatives);
    modify (λ net, set_errors (m_errors net ++ [thisLayerError]) net)
  end.

(** [for (int i = start; i > 0; --i)] *)
Fixpoint backPropagate_loop (i : nat) : M t unit :=
  match i with
  | 0 => mret tt
  | S i' => backPropagate_step i;; backPropagate_loop i'
  end.

(** [Network::backPropagate], lines 69-109. [m_layers.back()] on a network
    without layers is undefined behaviour. *)
Definition backPropagate : M t unit :=
  layers ← gets m_layers;
  match last layers with
  | None => lift (Throw undefined_behaviour)
  | Some back =>
    let output := Layer.getActivations back in
    let outputDerivatives := Layer.getDerivatives back in
    target ← gets m_targetOutput;
    gradCost ← lift (gradCost_loop 0 (Layer.getSize back) output target []);
    outputError ← lift (linalg.hadamardProduct gradCost outputDerivatives);
    modify (λ net, set_errors (m_errors net ++ [outputError]) net);;
    errors ← gets m_errors;
    _ ← lift (vector_at errors 0);
    numLayers ← gets m_numLayers;
    backPropagate_loop (Z.to_nat (numLayers - 2))
  end.

(** [currentWeightMatrix(j, i) = newWeight] on [m_weightMatrices.at(l)] *)
Definition set_weight (l j i : nat) (x : double) : M t unit :=
  W ← matrix_at l;
  W' ← lift (linalg.set W j i x);
  modify (λ net, set_weightMatrices (<[l := W']> (m_weightMatrices net)) net).

(** [Network::update], lines 111-143, from the innermost loop outwards.
    The two inner bounds are read from layers whose sizes the loop bodies
    do not change. *)

(** Lines 128-133: the new weight of the connection from neuron [i] of
    layer [l] to neuron [j] of layer [l + 1]. *)
Definition update_weight (l j i : nat) : M t unit :=
  currentWeightMatrix ← matrix_at l;
  w ← lift (linalg.get currentWeightMatrix j i);
  source ← layer_at l;
  a ← lift (vector_at (Layer.getActivations source) i);
  currentError ← error_at_rev l;
  e ← lift (vector_at currentError j);
  let newWeight := dsub w (dmul (dmul m_LEARNINGRATE a) e) in
  set_weight l j i newWeight.

(** Lines 126-140: row [j] of the matrix, then the bias of neuron [j]. *)
Definition update_neuron (l j : nat) : M t unit :=
  this ← layer_at l;
  for_ (Layer.getSize this) (update_weight l j);;
  dest ← layer_at (l + 1);
  b ← lift (Layer.getBiasAt j dest);
  currentError ← error_at_rev l;
  e ← lift (vector_at currentError j);
  let newBias := dsub b (dmul m_LEARNINGRATE e) in
  with_layer (l + 1) (Layer.setBiasAt j newBias).

(** Lines 120-141: one weight matrix. *)
Definition update_matrix (l : nat) : M t unit :=
  _ ← matrix_at l;
  _ ← error_at_rev l;
  next ← layer_at (l + 1);
  for_ (Layer.getSize next) (update_neuron l).

Definition update : M t unit :=
  ws ← gets m_weightMatrices;
  for_ (length ws) update_matrix.

(** [Network::printToConsole], lines 183-212: it is const and reads each
    of the [m_numLayers] layers with [m_layers.at]. *)
Definition printToConsole : M t unit :=
  numLayers ← gets m_numLayers;
  for_ (Z.to_nat numLayers) (λ layerIndex,
    _ ← layer_at layerIndex;
    mret tt).

(** One round of the loop of [train], lines 155-179. The counter
    [trainingPass] is only printed. *)
Definition train_sample (trainingSample : list (list double)) : M t unit :=
  input ← lift (vector_at trainingSample 0);
  setInput input;;
  targetOutput ← lift (vector_at trainingSample 1);
  setTarget targetOutput;;
  feedForward;;
  printToConsole;;
  modify (set_errors []);;
  backPropagate;;
  update.

(** [Network::train], lines 145-181 *)
Fixpoint train (trainingData : list (list (list double))) : M t unit :=
  match trainingData with
  | [] => mret tt
  | trainingSample :: rest => train_sample trainingSample;; train rest
  end.

End methods.

End Network.

(** ** Reasoning about methods *)

(** [returns m s Q]: run from [s], the method returns normally and the value
    and the state reached satisfy [Q]. *)
Definition returns {St A} (m : M St A) (s : St) (Q : A → St → Prop) : Prop :=
  ∃ a s', m s = (Ok a, s') ∧ Q a s'.

(** [preserves R m]: however [m] ends, by return or by exception, the state
    it leaves is related by [R] to the one it started from. *)
Definition preserves {St A} (R : relation St) (m : M St A) : Prop :=
  ∀ s, R s (m s).2.

(** [throws_only e m]: when [m] ends by an exception, the exception is
    [e]. *)
Definition throws_only {St A} (e : exception) (m : M St A) : Prop :=
  ∀ s e', (m s).1 = Throw e' → e' = e.

(** ** An integer instance, to run the model on concrete networks

    Scalars are integers, the squashing function is the ramp [max 0 x], the
    [k]-th random number is [k + 1] and the learning rate is 1. *)

Module Zmodel.

Definition Z_double : Double :=
  Build_Double Z Z.add Z.sub Z.mul 0%Z.

Definition Z_externals : @Externals Z_double :=
  @Build_Externals Z_double
    (λ x : Z, Z.max 0 x)
    (λ x : Z, if decide (0 < x)%Z then 1%Z else 0%Z)
    (λ k, Z.of_nat (S k))
    1%Z.

(** The network [Network net({2, 3, 1})], built before any random number
    was drawn. *)
Definition net_2_3_1 : @Network.t Z_double :=
  match @Network.construct Z_double Z_externals [2; 3; 1]%Z 0 with
  | (Ok net, _) => net
  | (Throw _, _) => @Network.empty Z_double
  end.

(** The network [Network net({2, 1})]. *)
Definition net_2_1 : @Network.t Z_double :=
  match @Network.construct Z_double Z_externals [2; 1]%Z 0 with
  | (Ok net, _) => net
  | (Throw _, _) => @Network.empty Z_double
  end.

(** [net_2_3_1] after [setInput({1, 2})] and [setTarget({5})]. *)
Definition loaded_2_3_1 : @Network.t Z_double :=
  (@Network.setTarget Z_double [5]%Z
     (@Network.setInput Z_double Z_externals [1; 2]%Z net_2_3_1).2).2.

(** [loaded_2_3_1] after [feedForward()]. *)
Definition fed_2_3_1 : @Network.t Z_double :=
  (@Network.feedForward Z_double Z_externals loaded_2_3_1).2.

(** [net_2_1] after [setInput({1, 2})] and [setTarget({5})]. *)
Definition loaded_2_1 : @Network.t Z_double :=
  (@Network.setTarget Z_double [5]%Z
     (@Network.setInput Z_double Z_externals [1; 2]%Z net_2_1).2).2.

(** [fed_2_3_1] with an error list that was not cleared: it still holds a
    vector of an earlier pass. *)
Definition stale_2_3_1 : @Network.t Z_double :=
  @Network.set_errors Z_double [[1; 2; 3]%Z] fed_2_3_1.

(** [fed_2_3_1] after [m_errors.clear()] and [backPropagate()]. *)
Definition backpropagated_2_3_1 : @Network.t Z_double :=
  (@Network.backPropagate Z_double (Network.set_errors [] fed_2_3_1)).2.

End Zmodel.

(** ** Definitions used to state the results *)

Section statement_definitions.
Context `{Externals}.

(** What [Layer::setInputAt] does to the neuron it addresses. *)
Definition refresh (x : double) (n : Neuron.t) : Neuron.t :=
  Neuron.derive (Neuron.activate (Neuron.setInput x n)).

(** A layer whose leading neurons were given the inputs [xs], one each, as
    far as both the inputs and the neurons go. *)
Fixpoint set_inputs (xs : list double) (L : Layer.t) : Layer.t :=
  match xs, L with
  | x :: xs', n :: L' => refresh x n :: set_inputs xs' L'
  | _, _ => L
  end.

(** *** What the constructor builds *)

(** The size of layer [t] as the constructors of Layer and Matrix take it. *)
Definition size_at (sizes : list Z) (t : nat) : nat :=
  Z.to_nat (default 0%Z (sizes !! t)).

(** Random numbers drawn by the first [l] rounds of the constructor's second
    loop: round [t] draws the entries of weight matrix [t], then the biases
    of layer [t + 1]. *)
Fixpoint draws (sizes : list Z) (l : nat) : nat :=
  match l with
  | 0 => 0
  | S l' => draws sizes l' + size_at sizes (S l') * size_at sizes l' + size_at sizes (S l')
  end.

(** The call of the generator that gives neuron [j] of layer [t + 1] its
    bias, the generator having been called [k] times before. *)
Definition bias_draw (sizes : list Z) (k t j : nat) : nat :=
  k + draws sizes t + size_at sizes (S t) * size_at sizes t + j.

Definition biased_neuron (sizes : list Z) (k t j : nat) : Neuron.t :=
  Neuron.setBias (randomDouble (bias_draw sizes k t j)) (Neuron.new dzero).

(** Layer [t] once [l] rounds of the second loop have run. *)
Definition built_layer (sizes : list Z) (k l t : nat) : Layer.t :=
  match t with
  | S t' =>
    if decide (t' < l) then biased_neuron sizes k t' <$> seq 0 (size_at sizes t)
    else Layer.new (default 0%Z (sizes !! t))
  | 0 => Layer.new (default 0%Z (sizes !! t))
  end.

Definition built_matrix (sizes : list Z) (k t : nat) : linalg.Matrix :=
  linalg.random (default 0%Z (sizes !! S t)) (default 0%Z (sizes !! t))
    (k + draws sizes t).

(** The object [Network net(sizes)] holds, the generator having been called
    [k] times before. *)
Definition built (sizes : list Z) (k : nat) : Network.t :=
  Network.mk _ sizes (Z.of_nat (length sizes))
    (built_layer sizes k (length sizes - 1) <$> seq 0 (length sizes))
    (built_matrix sizes k <$> seq 0 (length sizes - 1))
    [] [] [].

(** *** Well-formed networks *)

(** The rows of a matrix agree with its two dimensions. *)
Definition matrix_ok (W : linalg.Matrix) : Prop :=
  length <$> linalg.elems W = replicate (linalg.rows W) (linalg.cols W).

(** The topology a constructed network keeps for its lifetime: the layer
    count is the one stored, there is one weight matrix per pair of
    adjacent layers, and matrix [l] has as many columns as layer [l] has
    neurons and as many rows as layer [l + 1]. *)
Definition wf (net : Network.t) : Prop :=
  Network.m_numLayers net = Z.of_nat (length (Network.m_layers net)) ∧
  length (Network.m_layers net) = S (length (Network.m_weightMatrices net)) ∧
  ∀ l W, Network.m_weightMatrices net !! l = Some W →
    matrix_ok W ∧
    (length <$> Network.m_layers net) !! l = Some (linalg.cols W) ∧
    (length <$> Network.m_layers net) !! S l = Some (linalg.rows W).

(** *** The forward pass in closed form *)

Definition mulVec_rows (W : linalg.Matrix) (v : list double) : list double :=
  (λ row, linalg.dot row v) <$> linalg.elems W.

(** Layer [l + 1] after round [l]: its neurons fed with the products of
    the rows of matrix [l] with the activations of layer [l]. *)
Definition fed_layer (W : linalg.Matrix) (L Lnext : Layer.t) : Layer.t :=
  set_inputs (mulVec_rows W (Layer.getActivations L)) Lnext.

(** The layers after rounds [l], [l + 1], ..., [l + n - 1]. *)
Fixpoint fed_layers (l n : nat) (Ws : list linalg.Matrix) (layers : list Layer.t)
  : list Layer.t :=
  match n with
  | 0 => layers
  | S n' =>
    match layers !! l, Ws !! l, layers !! S l with
    | Some L, Some W, Some Lnext =>
      fed_layers (S l) n' Ws (<[S l := fed_layer W L Lnext]> layers)
    | _, _, _ => layers
    end
  end.

(** *** The errors of section 4.6 *)

(** Step 1: the cost gradient activation - target of each output neuron,
    times the derivative of that neuron. *)
Definition cost_gradient (back : Layer.t) (target : list double) : list double :=
  zip_with dsub (Layer.getActivations back) target.

Definition output_error (back : Layer.t) (target : list double) : list double :=
  zip_with dmul (cost_gradient back target) (Layer.getDerivatives back).

(** Step 2: the error of layer [l] from the error [next] of layer [l + 1]:
    (transpose(W[l]) . next) (.) derivative(l). *)
Definition hidden_error (W : linalg.Matrix) (L : Layer.t) (next : list double)
  : list double :=
  zip_with dmul (mulVec_rows (linalg.transpose W) next) (Layer.getDerivatives L).

(** The errors of layers [i], [i - 1], ..., 1, in this order, [next] being
    the error of layer [i + 1]. *)
Fixpoint hidden_errors (i : nat) (Ws : list linalg.Matrix) (layers : list Layer.t)
    (next : list double) : list (list double) :=
  match i with
  | 0 => []
  | S i' =>
    match Ws !! i, layers !! i with
    | Some W, Some L =>
      let e := hidden_error W L next in e :: hidden_errors i' Ws layers e
    | _, _ => []
    end
  end.

(** The vectors one backward pass produces, output layer first. *)
Definition produced_errors (net : Network.t) : list (list double) :=
  match last (Network.m_layers net) with
  | Some back =>
    let e := output_error back (Network.m_targetOutput net) in
    e :: hidden_errors (length (Network.m_layers net) - 2)
           (Network.m_weightMatrices net) (Network.m_layers net) e
  | None => []
  end.

(** *** Reading a network *)

(** Entry (j, i) of weight matrix [l]. *)
Definition weight (net : Network.t) (l j i : nat) : option double :=
  W ← Network.m_weightMatrices net !! l;
  row ← linalg.elems W !! j;
  row !! i.

(** Neuron [j] of layer [l]. *)
Definition neuron (net : Network.t) (l j : nat) : option Neuron.t :=
  L ← Network.m_layers net !! l;
  L !! j.

Definition bias (net : Network.t) (l j : nat) : option double :=
  Neuron.m_bias <$> neuron net l j.

Definition activation (net : Network.t) (l i : nat) : option double :=
  Neuron.m_activation <$> neuron net l i.

(** Entry [j] of the error vector [update] reads in round [l]:
    [m_errors.at(m_errors.size()-1-l).at(j)]. *)
Definition error_rev (net : Network.t) (l j : nat) : option double :=
  if decide (l < length (Network.m_errors net)) then
    e ← Network.m_errors net !! (length (Network.m_errors net) - 1 - l);
    e !! j
  else None.

(** The delta rule of section 4.7. *)
Definition delta_weight (w a e : double) : double :=
  dsub w (dmul (dmul m_LEARNINGRATE a) e).

Definition delta_bias (b e : double) : double :=
  dsub b (dmul m_LEARNINGRATE e).

Definition new_weight (net : Network.t) (l j i : nat) : option double :=
  w ← weight net l j i;
  a ← activation net l i;
  e ← error_rev net l j;
  Some (delta_weight w a e).

(** The new bias of neuron [j] of layer [l + 1]. *)
Definition new_bias (net : Network.t) (l j : nat) : option double :=
  b ← bias net (S l) j;
  e ← error_rev net l j;
  Some (delta_bias b e).

(** *** What [update] leaves alone *)

Definition strip (n : Neuron.t) : double * double * double :=
  (Neuron.m_input n, Neuron.m_activation n, Neuron.m_derivative n).

Definition strip_layer (L : Layer.t) : list (double * double * double) :=
  strip <$> L.

Definition matrix_shape (W : linalg.Matrix) : nat * nat * list nat :=
  (linalg.rows W, linalg.cols W, length <$> linalg.elems W).

(** Everything but the weights and the biases of the layers after the input
    layer is as before; the matrices keep their shapes. *)
Definition update_frame (net net' : Network.t) : Prop :=
  Network.m_layerSizes net' = Network.m_layerSizes net ∧
  Network.m_numLayers net' = Network.m_numLayers net ∧
  Network.m_input net' = Network.m_input net ∧
  Network.m_targetOutput net' = Network.m_targetOutput net ∧
  Network.m_errors net' = Network.m_errors net ∧
  strip_layer <$> Network.m_layers net' = strip_layer <$> Network.m_layers net ∧
  Network.m_layers net' !! 0 = Network.m_layers net !! 0 ∧
  matrix_shape <$> Network.m_weightMatrices net'
    = matrix_shape <$> Network.m_weightMatrices net.

(** The state of [update] when rounds before [l], within round [l] the
    neurons before [j], and for neuron [j] the weights before column [i]
    are done. *)
Definition updated_upto (l j i : nat) (net0 net : Network.t) : Prop :=
  update_frame net0 net ∧
  (∀ l' j' i' w, weight net0 l' j' i' = Some w →
     weight net l' j' i' =
       if decide (l' < l ∨ (l' = l ∧ (j' < j ∨ (j' = j ∧ i' < i))))
       then new_weight net0 l' j' i' else Some w) ∧
  (∀ l' j' b, bias net0 (S l') j' = Some b →
     bias net (S l') j' =
       if decide (l' < l ∨ (l' = l ∧ j' < j))
       then new_bias net0 l' j' else Some b).

(** The error list holds at least one vector per weight matrix, the one
    read in round [l] being as long as layer [l + 1]: so it is in the
    state [backPropagate] leaves. *)
Definition errors_fit (net : Network.t) : Prop :=
  length (Network.m_weightMatrices net) ≤ length (Network.m_errors net) ∧
  ∀ l Lnext, Network.m_layers net !! S l = Some Lnext →
    ∃ e, Network.m_errors net !! (length (Network.m_errors net) - 1 - l) = Some e
         ∧ length e = length Lnext.

(** *** What [backPropagate] leaves alone *)

(** The error list has only grown at its end; nothing else has changed. *)
Definition appends (net net' : Network.t) : Prop :=
  Network.m_layerSizes net' = Network.m_layerSizes net ∧
  Network.m_numLayers net' = Network.m_numLayers net ∧
  Network.m_layers net' = Network.m_layers net ∧
  Network.m_weightMatrices net' = Network.m_weightMatrices net ∧
  Network.m_input net' = Network.m_input net ∧
  Network.m_targetOutput net' = Network.m_targetOutput net ∧
  Network.m_errors net `prefix_of` Network.m_errors net'.

(** *** What no method changes *)

(** The stored layer count and the number of layers are as before. *)
Definition same_layout (net net' : Network.t) : Prop :=
  Network.m_numLayers net' = Network.m_numLayers net ∧
  length (Network.m_layers net') = length (Network.m_layers net).

(** The stored layer count does not exceed the number of layers: every
    read of [printToConsole] is in range. *)
Definition printable (net : Network.t) : Prop :=
  Z.to_nat (Network.m_numLayers net) ≤ length (Network.m_layers net).

(** *** Training, in the words of section 4.8 *)

(** The part of a gradient step before the error list is cleared. *)
Definition forward_pass (input target : list double) : M Network.t unit :=
  Network.setInput input;;
  Network.setTarget target;;
  Network.feedForward.

(** One gradient step: set input, set target, run feedforward, clear the
    prior sample's error list, run backpropagate, run update. *)
Definition gradient_step (input target : list double) : M Network.t unit :=
  Network.setInput input;;
  Network.setTarget target;;
  Network.feedForward;;
  modify (Network.set_errors []);;
  Network.backPropagate;;
  Network.update.

(** One gradient step per sample, in the order of the samples. *)
Fixpoint train_spec (samples : list (list double * list double)) : M Network.t unit :=
  match samples with
  | [] => mret tt
  | (input, target) :: rest => gradient_step input target;; train_spec rest
  end.

(** A sample as [train] receives it: the input vector, then the target. *)
Definition as_sample (sample : list double * list double) : list (list double) :=
  [sample.1; sample.2].

(** The sample has the dimensions of the input and of the output layer. *)
Definition sample_fits (net : Network.t) (sample : list double * list double) : Prop :=
  head (length <$> Network.m_layers net) = Some (length sample.1) ∧
  last (length <$> Network.m_layers net) = Some (length sample.2).

(** *** What the forward pass leaves alone *)

(** The biases of a layer, neuron by neuron. *)
Definition biases_of (L : Layer.t) : list double := Neuron.m_bias <$> L.

(** Only the inputs, activations and derivatives of the layers after the
    input layer may differ: the input layer, every bias, the weights and
    the stored vectors are as before. *)
Definition forward_frame (net net' : Network.t) : Prop :=
  Network.m_layerSizes net' = Network.m_layerSizes net ∧
  Network.m_numLayers net' = Network.m_numLayers net ∧
  Network.m_weightMatrices net' = Network.m_weightMatrices net ∧
  Network.m_input net' = Network.m_input net ∧
  Network.m_targetOutput net' = Network.m_targetOutput net ∧
  Network.m_errors net' = Network.m_errors net ∧
  biases_of <$> Network.m_layers net' = biases_of <$> Network.m_layers net ∧
  Network.m_layers net' !! 0 = Network.m_layers net !! 0.

(** *** What training leaves alone *)

(** The stored sizes and layer count, the number of layers, the number of
    neurons of each layer and the shape of each weight matrix are as
    before. *)
Definition same_topology (net net' : Network.t) : Prop :=
  Network.m_layerSizes net' = Network.m_layerSizes net ∧
  Network.m_numLayers net' = Network.m_numLayers net ∧
  length <$> Network.m_layers net' = length <$> Network.m_layers net ∧
  matrix_shape <$> Network.m_weightMatrices net'
    = matrix_shape <$> Network.m_weightMatrices net.

(** *** Counting parameters *)

(** The number of weights and of biases of the layers after the input
    layer. *)
Definition parameters (net : Network.t) : nat :=
  sum_list ((λ W, linalg.rows W * linalg.cols W) <$> Network.m_weightMatrices net)
  + sum_list (length <$> tail (Network.m_layers net)).

End statement_definitions.

(** ** Tactics for concrete networks *)

(** Well-formedness of a concrete network, by running through its weight
    matrices. *)
Ltac wf_by_computation :=
  split_and!;
  [ vm_compute; reflexivity
  | vm_compute; reflexivity
  | let l := fresh "l" in
    let W := fresh "W" in
    let HW := fresh "HW" in
    intros l W HW;
    repeat (destruct l as [|l];
            [vm_compute in HW; injection HW as <-; vm_compute; done|]);
    vm_compute in HW; discriminate HW ].

(** The error list of a concrete network fits, by running through its
    layers. *)
Ltac errors_fit_by_computation :=
  split;
  [ vm_compute; lia
  | let l := fresh "l" in
    let Ln := fresh "Ln" in
    let HLn := fresh "HLn" in
    intros l Ln HLn;
    repeat (destruct l as [|l];
            [vm_compute in HLn; injection HLn as <-;
             eexists; split; vm_compute; reflexivity|]);
    vm_compute in HLn; discriminate HLn ].


(** * Results *)

(** ** Rules for methods *)

Section method_rules.
Context {St : Type}.
Implicit Types s : St.

Lemma bind_eq {A B} (m : M St A) (f : A → M St B) s :
  (m ≫= f) s =
  match m s with
  | (Ok a, s') => f a s'
  | (Throw e, s') => (Throw e, s')
  end.
Proof. reflexivity. Qed.

Lemma returns_bind {A B} (m : M St A) (f : A → M St B) s Q :
  returns m s (λ a s', returns (f a) s' Q) → returns (m ≫= f) s Q.
Proof.
  intros (a & s' & Hm & b & s'' & Hf & HQ).
  exists b, s''. by rewrite bind_eq, Hm.
Qed.

Lemma returns_ret {A} (a : A) s (Q : A → St → Prop) :
  Q a s → returns (mret a) s Q.
Proof. intros HQ. by exists a, s. Qed.

Lemma returns_gets {A} (f : St → A) s (Q : A → St → Prop) :
  Q (f s) s → returns (gets f) s Q.
Proof. intros HQ. by exists (f s), s. Qed.

Lemma returns_modify (f : St → St) s (Q : unit → St → Prop) :
  Q tt (f s) → returns (modify f) s Q.
Proof. intros HQ. by exists tt, (f s). Qed.

Lemma returns_lift {A} (r : result A) a s (Q : A → St → Prop) :
  r = Ok a → Q a s → returns (lift r) s Q.
Proof. intros -> HQ. by exists a, s. Qed.

Lemma returns_weaken {A} (m : M St A) s (Q Q' : A → St → Prop) :
  returns m s Q → (∀ a s', Q a s' → Q' a s') → returns m s Q'.
Proof. intros (a & s' & Hm & HQ) HQQ'. exists a, s'. eauto. Qed.

Lemma returns_preserves {A} (R : relation St) (m : M St A) s Q :
  preserves R m → returns m s Q → returns m s (λ a s', Q a s' ∧ R s s').
Proof.
  intros HR (a & s' & Hm & HQ). exists a, s'. repeat split; [done..|].
  specialize (HR s). by rewrite Hm in HR.
Qed.

(** The loop rule: an invariant indexed by the counter. *)
Lemma returns_for_from (I : nat → St → Prop) (body : nat → M St unit) n :
  ∀ i s,
    I i s →
    (∀ k s1, i ≤ k < i + n → I k s1 → returns (body k) s1 (λ _ s2, I (S k) s2)) →
    returns (for_from i n body) s (λ _ s', I (i + n) s').
Proof.
  induction n as [|n IH]; intros i s Hi Hbody; simpl.
  - apply returns_ret. by rewrite Nat.add_0_r.
  - apply returns_bind.
    eapply returns_weaken; [apply Hbody; [lia|done]|].
    intros [] s1 H1; simpl.
    replace (i + S n) with (S i + n) by lia.
    apply IH; [done|]. intros k s2 Hk. apply Hbody. lia.
Qed.

Lemma returns_for (I : nat → St → Prop) (body : nat → M St unit) n s :
  I 0 s →
  (∀ k s1, k < n → I k s1 → returns (body k) s1 (λ _ s2, I (S k) s2)) →
  returns (for_ n body) s (λ _ s', I n s').
Proof.
  intros H0 Hbody. apply (returns_for_from I body n 0 s H0).
  intros k s1 Hk. apply Hbody. lia.
Qed.

Section preserves_rules.
Context (R : relation St) `{!PreOrder R}.

Lemma preserves_ret {A} (a : A) : preserves R (mret a : M St A).
Proof. intros s. simpl. reflexivity. Qed.

Lemma preserves_gets {A} (f : St → A) : preserves R (gets f).
Proof. intros s. simpl. reflexivity. Qed.

Lemma preserves_lift {A} (r : result A) : preserves R (lift r : M St A).
Proof. intros s. simpl. reflexivity. Qed.

Lemma preserves_modify (f : St → St) :
  (∀ s, R s (f s)) → preserves R (modify f).
Proof. intros Hf s. apply Hf. Qed.

Lemma preserves_bind {A B} (m : M St A) (f : A → M St B) :
  preserves R m → (∀ a, preserves R (f a)) → preserves R (m ≫= f).
Proof.
  intros Hm Hf s. rewrite bind_eq. specialize (Hm s).
  destruct (m s) as [[a|e] s1]; simpl in *; [|done].
  etrans; [exact Hm|apply Hf].
Qed.

Lemma preserves_for_from (body : nat → M St unit) n :
  (∀ k, preserves R (body k)) → ∀ i, preserves R (for_from i n body).
Proof.
  intros Hbody. induction n as [|n IH]; intros i; simpl.
  - apply preserves_ret.
  - apply preserves_bind; [apply Hbody|]. intros _. apply IH.
Qed.

Lemma preserves_for (body : nat → M St unit) n :
  (∀ k, preserves R (body k)) → preserves R (for_ n body).
Proof. intros Hbody. by apply preserves_for_from. Qed.

Lemma preserves_if {A} (b : bool) (m1 m2 : M St A) :
  preserves R m1 → preserves R m2 → preserves R (if b then m1 else m2).
Proof. by destruct b. Qed.
End preserves_rules.

End method_rules.

Lemma vector_at_Some {A} (v : list A) i x : v !! i = Some x → vector_at v i = Ok x.
Proof. unfold vector_at. by intros ->. Qed.

Lemma vector_at_lt {A} (v : list A) i :
  i < length v → ∃ x, v !! i = Some x ∧ vector_at v i = Ok x.
Proof.
  intros Hi. destruct (lookup_lt_is_Some_2 v i Hi) as [x Hx].
  exists x. split; [done|]. by apply vector_at_Some.
Qed.

Lemma vector_at_ge {A} (v : list A) i :
  length v ≤ i → vector_at v i = Throw out_of_range.
Proof. intros Hi. unfold vector_at. by rewrite lookup_ge_None_2. Qed.

(** ** setInput *)

Section setInput_facts.
Context `{Externals}.

Lemma set_layers_same (net : Network.t) :
  Network.set_layers (Network.m_layers net) net = net.
Proof. by destruct net. Qed.

Lemma set_layers_twice (net : Network.t) (v w : list Layer.t) :
  Network.set_layers v (Network.set_layers w net) = Network.set_layers v net.
Proof. done. Qed.

Lemma with_layer_eq (l : nat) (f : Layer.t → result Layer.t) (net : Network.t) :
  Network.with_layer l f net =
  match Network.m_layers net !! l with
  | None => (Throw out_of_range, net)
  | Some L =>
    match f L with
    | Ok L' => (Ok tt, Network.set_layers (<[l := L']> (Network.m_layers net)) net)
    | Throw e => (Throw e, net)
    end
  end.
Proof.
  unfold Network.with_layer, Network.layer_at. rewrite !bind_eq. simpl.
  unfold lift, vector_at.
  destruct (Network.m_layers net !! l) as [L|]; [|done].
  rewrite bind_eq. by destruct (f L).
Qed.

Lemma setInputAt_eq (idx : nat) (x : double) (L : Layer.t) :
  Layer.setInputAt idx x L =
  match L !! idx with
  | Some n => Ok (<[idx := refresh x n]> L)
  | None => Throw out_of_range
  end.
Proof. unfold Layer.setInputAt, vector_at. by destruct (L !! idx). Qed.

Lemma set_inputs_length (xs : list double) (L : Layer.t) :
  length (set_inputs xs L) = length L.
Proof.
  revert L. induction xs as [|x xs IH]; intros [|n L]; simpl; [done..|].
  by rewrite IH.
Qed.

(** The loop shared by [setInput] and [feedForward]: the neurons of layer
    [l] are given the entries of [input] in order; it throws at the first
    entry beyond the layer. *)
Lemma set_inputs_loop (input : list double) (l : nat) :
  ∀ (xs : list double) (i : nat) (done L : Layer.t) (net : Network.t),
    drop i input = xs →
    length done = i →
    Network.m_layers net !! l = Some (done ++ L) →
    for_from i (length xs)
      (λ neuronIndex,
        x ← lift (vector_at input neuronIndex);
        Network.with_layer l (Layer.setInputAt neuronIndex x)) net
    = (if decide (length xs ≤ length L) then Ok tt else Throw out_of_range,
       Network.set_layers
         (<[l := done ++ set_inputs xs L]> (Network.m_layers net)) net).
Proof.
  induction xs as [|x xs IH]; intros i done L net Hdrop Hlen Hnet.
  - cbn [length for_from set_inputs]. rewrite decide_True by lia.
    rewrite list_insert_id by (destruct L; done).
    by rewrite set_layers_same.
  - assert (input !! i = Some x) as Hx.
    { rewrite <-(Nat.add_0_r i), <-lookup_drop, Hdrop. done. }
    assert (drop (S i) input = xs) as Hdrop'.
    { rewrite (drop_S _ _ _ Hx) in Hdrop. by simplify_eq. }
    cbn [length for_from]. rewrite !bind_eq. unfold lift at 1.
    rewrite (vector_at_Some _ _ _ Hx).
    rewrite with_layer_eq, Hnet.
    rewrite setInputAt_eq.
    destruct L as [|n L].
    + rewrite lookup_ge_None_2 by (rewrite length_app; simpl; lia).
      rewrite decide_False by (simpl; lia).
      cbn [set_inputs]. rewrite list_insert_id by done.
      by rewrite set_layers_same.
    + rewrite lookup_app_r by lia. rewrite Hlen, Nat.sub_diag. cbn [lookup list_lookup].
      rewrite insert_app_r_alt by lia. rewrite Hlen, Nat.sub_diag. cbn [insert list_insert].
      rewrite (IH (S i) (done ++ [refresh x n]) L); [| done | rewrite length_app; simpl; lia |].
      * rewrite set_layers_twice. cbn [Network.m_layers Network.set_layers].
        rewrite list_insert_insert_eq.
        rewrite <-(assoc_L (++)). cbn [app length set_inputs].
        destruct (decide (length xs ≤ length L)), (decide (S (length xs) ≤ S (length L)));
          try lia; done.
      * cbn [Network.m_layers Network.set_layers].
        rewrite list_lookup_insert_eq by (by eapply lookup_lt_Some).
        by rewrite <-(assoc_L (++)).
Qed.

(** [setInput] in closed form: whatever the length of [input], the vector
    is stored and the leading neurons of layer 0 are overwritten; the call
    throws exactly when the vector is longer than the layer. *)
Lemma setInput_eq (input : list double) (L0 : Layer.t) (rest : list Layer.t)
    (net : Network.t) :
  Network.m_layers net = L0 :: rest →
  Network.setInput input net =
    (if decide (length input ≤ length L0) then Ok tt else Throw out_of_range,
     Network.set_layers (set_inputs input L0 :: rest) (Network.set_input input net)).
Proof.
  intros Hnet. unfold Network.setInput. rewrite bind_eq. cbn [modify].
  unfold for_.
  rewrite (set_inputs_loop input 0 input 0 [] L0);
    [|done|done|unfold Network.set_input; cbn [Network.m_layers]; by rewrite Hnet].
  replace (Network.m_layers (Network.set_input input net)) with (L0 :: rest) by done.
  done.
Qed.

End setInput_facts.

(** ** The constructor *)

Section constructor_facts.
Context `{Externals}.

Lemma returns_on_this {A} (m : M Network.t A) (net : Network.t) (k : nat)
    (Q : A → Network.t * nat → Prop) :
  returns m net (λ a net', Q a (net', k)) → returns (Network.on_this m) (net, k) Q.
Proof.
  intros (a & net' & Hm & HQ). exists a, (net', k). split; [|done].
  unfold Network.on_this. by rewrite Hm.
Qed.

Lemma layers_loop (sizes : list Z) (net : Network.t) (k : nat) :
  Network.m_layers net = [] →
  returns
    (for_ (length sizes) (λ layerNum,
       size ← lift (vector_at sizes layerNum);
       Network.on_this (modify (λ net,
         Network.set_layers (Network.m_layers net ++ [Layer.new size]) net))))
    (net, k)
    (λ _ s, s = (Network.set_layers
                   ((λ n, Layer.new n) <$> sizes) net, k)).
Proof.
  intros Hnil.
  eapply returns_weaken.
  - apply (returns_for
      (λ i s, s = (Network.set_layers ((λ n, Layer.new n) <$> take i sizes) net, k))).
    + simpl. by rewrite <-Hnil, set_layers_same.
    + intros i s Hi ->.
      destruct (vector_at_lt sizes i Hi) as (size & Hsize & Hat).
      apply returns_bind. eapply returns_lift; [exact Hat|].
      apply returns_on_this, returns_modify.
      rewrite (take_S_r _ _ _ Hsize), fmap_app. done.
  - intros _ s ->. simpl. by rewrite firstn_all.
Qed.

Lemma built_layer_0 (sizes : list Z) (k : nat) :
  (λ n, Layer.new n) <$> sizes = built_layer sizes k 0 <$> seq 0 (length sizes).
Proof.
  apply list_eq. intros t. rewrite !list_lookup_fmap.
  destruct (sizes !! t) as [n|] eqn:Ht; simpl.
  - rewrite lookup_seq_lt by (by eapply lookup_lt_Some). simpl.
    unfold built_layer. rewrite Ht. destruct t; [done|].
    by rewrite decide_False by lia.
  - rewrite lookup_seq_ge; [done|]. by apply lookup_ge_None.
Qed.

(** Layer [l + 1] while its biases are being drawn: [j] neurons done. *)
Lemma bias_loop (sizes : list Z) (k0 l : nat) (net : Network.t) (k n : nat)
    (layers : list Layer.t) :
  Network.m_layers net = layers →
  layers !! S l = Some (replicate n (Neuron.new dzero)) →
  returns
    (for_ n (λ neuronIndex,
       b ← Network.randomDouble_call;
       Network.on_this
         (Network.with_layer (S l) (Layer.setBiasAt neuronIndex b))))
    (net, k)
    (λ _ s, s = (Network.set_layers
                   (<[S l := (λ j, Neuron.setBias (randomDouble (k + j)) (Neuron.new dzero))
                             <$> seq 0 n]> layers) net, k + n)).
Proof.
  intros Hlayers Hl.
  set (partial j := ((λ j, Neuron.setBias (randomDouble (k + j)) (Neuron.new dzero))
                       <$> seq 0 j) ++ replicate (n - j) (Neuron.new dzero)).
  eapply returns_weaken.
  - apply (returns_for
      (λ j s, s = (Network.set_layers (<[S l := partial j]> layers) net, k + j))).
    + unfold partial. simpl. rewrite Nat.sub_0_r, Nat.add_0_r.
      rewrite list_insert_id by done. by rewrite <-Hlayers, set_layers_same.
    + intros j s Hj ->.
      apply returns_bind. exists (randomDouble (k + j)), (Network.set_layers (<[S l := partial j]> layers) net, S (k + j)).
      split; [done|].
      apply returns_on_this. replace (k + S j) with (S (k + j)) by lia.
      exists tt. eexists. split; [|reflexivity].
      rewrite with_layer_eq. cbn [Network.m_layers Network.set_layers].
      rewrite list_lookup_insert_eq by (by eapply lookup_lt_Some).
      unfold Layer.setBiasAt.
      assert (partial j !! j = Some (Neuron.new dzero)) as Hpj.
      { unfold partial. rewrite lookup_app_r; rewrite length_fmap, length_seq; [|lia].
        rewrite Nat.sub_diag. apply lookup_replicate_2. lia. }
      rewrite (vector_at_Some _ _ _ Hpj). cbn [mbind result_bind mret result_ret].
      rewrite list_insert_insert_eq, set_layers_twice.
      do 3 f_equal.
      unfold partial. rewrite insert_app_r_alt; rewrite length_fmap, length_seq; [|lia].
      rewrite Nat.sub_diag. rewrite seq_S, fmap_app, <-(assoc_L (++)). f_equal.
      replace (n - j) with (S (n - S j)) by lia. done.
  - intros _ s ->. unfold partial. by rewrite Nat.sub_diag, app_nil_r.
Qed.

Lemma built_layer_step (sizes : list Z) (k l : nat) :
  S l < length sizes →
  <[S l := biased_neuron sizes k l <$> seq 0 (size_at sizes (S l))]>
    (built_layer sizes k l <$> seq 0 (length sizes))
  = built_layer sizes k (S l) <$> seq 0 (length sizes).
Proof.
  intros Hl. apply list_eq. intros t.
  destruct (decide (t = S l)) as [->|Hne].
  - rewrite list_lookup_insert_eq by (by rewrite length_fmap, length_seq).
    rewrite list_lookup_fmap, lookup_seq_lt by done. simpl.
    by rewrite decide_True by lia.
  - rewrite list_lookup_insert_ne by done. rewrite !list_lookup_fmap.
    destruct (seq 0 (length sizes) !! t) as [t'|] eqn:Ht; [|done].
    apply lookup_seq in Ht as [-> _]. simpl. f_equal.
    destruct t as [|t]; [done|]. simpl.
    destruct (decide (t < l)), (decide (t < S l)); try lia; done.
Qed.

Lemma Network_eq (sizes : list Z) (k : nat) :
  Network.Network sizes (Network.empty, k)
  = (Ok tt, (built sizes k, k + draws sizes (length sizes - 1))).
Proof.
  cut (returns (Network.Network sizes) (Network.empty, k)
         (λ _ s, s = (built sizes k, k + draws sizes (length sizes - 1)))).
  { by intros ([] & s & -> & ->). }
  unfold Network.Network.
  apply returns_bind, returns_on_this, returns_modify.
  apply returns_bind, returns_on_this, returns_modify.
  apply returns_bind, returns_on_this, returns_gets.
  cbn [Network.m_numLayers Network.set_numLayers Network.set_layerSizes].
  rewrite Nat2Z.id.
  replace (Z.to_nat (Z.of_nat (length sizes) - 1)) with (length sizes - 1) by lia.
  apply returns_bind.
  eapply returns_weaken; [by apply layers_loop|].
  intros _ s ->. cbn [Network.set_layers Network.m_layerSizes Network.m_numLayers
    Network.m_layers Network.m_weightMatrices Network.m_input Network.m_targetOutput
    Network.m_errors Network.empty].
  rewrite (built_layer_0 sizes k).
  eapply returns_weaken.
  - apply (returns_for (λ l s,
      s = (Network.mk _ sizes (Z.of_nat (length sizes))
             (built_layer sizes k l <$> seq 0 (length sizes))
             (built_matrix sizes k <$> seq 0 l) [] [] [],
           k + draws sizes l))).
    + simpl. by rewrite Nat.add_0_r.
    + intros l s Hl ->. rewrite !Nat.add_1_r.
      destruct (vector_at_lt sizes (S l)) as (r & Hr & Hatr); [lia|].
      destruct (vector_at_lt sizes l) as (c & Hc & Hatc); [lia|].
      apply returns_bind. eapply returns_lift; [exact Hatr|].
      apply returns_bind. eapply returns_lift; [exact Hatc|].
      apply returns_bind. eexists _, _. split; [reflexivity|].
      apply returns_bind, returns_on_this, returns_modify.
      cbn [Network.set_weightMatrices Network.m_layerSizes Network.m_numLayers
        Network.m_layers Network.m_weightMatrices Network.m_input
        Network.m_targetOutput Network.m_errors].
      assert ((built_layer sizes k l <$> seq 0 (length sizes)) !! S l
              = Some (replicate (Z.to_nat r) (Neuron.new dzero))) as Hnext.
      { rewrite list_lookup_fmap, lookup_seq_lt by lia. simpl.
        rewrite decide_False by lia. by rewrite Hr. }
      apply returns_bind, returns_on_this.
      unfold Network.layer_at. apply returns_bind, returns_gets.
      eapply returns_lift; [by apply vector_at_Some|].
      unfold Layer.getSize. rewrite length_replicate.
      eapply returns_weaken; [eapply (bias_loop sizes k l); [reflexivity|exact Hnext]|].
      intros _ s ->. unfold Network.set_layers, Network.set_weightMatrices.
      cbn [Network.m_layerSizes Network.m_numLayers
        Network.m_layers Network.m_weightMatrices Network.m_input
        Network.m_targetOutput Network.m_errors].
      assert (size_at sizes (S l) = Z.to_nat r) as Hsr by (unfold size_at; by rewrite Hr).
      assert (size_at sizes l = Z.to_nat c) as Hsc by (unfold size_at; by rewrite Hc).
      f_equal; [|cbn [draws]; rewrite Hsr, Hsc; lia].
      f_equal.
      * rewrite <-built_layer_step by lia. rewrite Hsr. f_equal.
        apply list_fmap_ext. intros _ j _. unfold biased_neuron, bias_draw.
        do 2 f_equal. lia.
      * rewrite seq_S, fmap_app. simpl. f_equal.
        unfold built_matrix. by rewrite Hr, Hc.
  - by intros _ s ->.
Qed.

(** The constructor never throws: whatever the sizes, the object is built
    in the closed form [built]. *)
Lemma construct_eq (sizes : list Z) (k : nat) :
  Network.construct sizes k = (Ok (built sizes k), k + draws sizes (length sizes - 1)).
Proof. unfold Network.construct. by rewrite Network_eq. Qed.

End constructor_facts.

(** ** Well-formed networks *)

Section wf_facts.
Context `{Externals}.

Lemma matrix_ok_rows (W : linalg.Matrix) :
  matrix_ok W → length (linalg.elems W) = linalg.rows W.
Proof.
  intros HW. apply (f_equal length) in HW.
  by rewrite length_fmap, length_replicate in HW.
Qed.

Lemma matrix_ok_row (W : linalg.Matrix) (j : nat) (row : list double) :
  matrix_ok W → linalg.elems W !! j = Some row → length row = linalg.cols W.
Proof.
  intros HW Hrow. apply (f_equal (.!! j)) in HW.
  rewrite list_lookup_fmap, Hrow in HW. simpl in HW. symmetry in HW.
  apply lookup_replicate in HW as [HW _]. done.
Qed.

Lemma lookup_length_Some {A} (ls : list (list A)) (l n : nat) :
  (length <$> ls) !! l = Some n ↔ ∃ L, ls !! l = Some L ∧ length L = n.
Proof.
  rewrite list_lookup_fmap. destruct (ls !! l) as [L|]; simpl; split.
  - intros [= <-]. by exists L.
  - intros (L' & [= <-] & <-). done.
  - done.
  - by intros (L' & ? & _).
Qed.

(** What round [l] of a loop over the weight matrices finds. *)
Lemma wf_round (net : Network.t) (l : nat) :
  wf net → l < length (Network.m_weightMatrices net) →
  ∃ W L Lnext,
    Network.m_weightMatrices net !! l = Some W ∧
    Network.m_layers net !! l = Some L ∧
    Network.m_layers net !! S l = Some Lnext ∧
    matrix_ok W ∧ length L = linalg.cols W ∧ length Lnext = linalg.rows W.
Proof.
  intros (_ & _ & Hwf) Hl.
  destruct (lookup_lt_is_Some_2 _ _ Hl) as [W HW].
  destruct (Hwf l W HW) as (Hok & (L & HL & HlenL)%lookup_length_Some
                                & (Ln & HLn & HlenLn)%lookup_length_Some).
  by exists W, L, Ln.
Qed.

Lemma wf_set_layers (net : Network.t) (layers : list Layer.t) :
  wf net → length <$> layers = length <$> Network.m_layers net →
  wf (Network.set_layers layers net).
Proof.
  intros (Hnum & Hlen & Hwf) Heq.
  assert (length layers = length (Network.m_layers net)) as Hlen'.
  { apply (f_equal length) in Heq. by rewrite !length_fmap in Heq. }
  split_and!; cbn [Network.set_layers Network.m_numLayers Network.m_layers
    Network.m_weightMatrices]; rewrite ?Heq, ?Hlen'; done.
Qed.

Lemma wf_set_errors (net : Network.t) (errors : list (list double)) :
  wf net → wf (Network.set_errors errors net).
Proof. done. Qed.

Lemma wf_set_input (net : Network.t) (input : list double) :
  wf net → wf (Network.set_input input net).
Proof. done. Qed.

Lemma wf_set_targetOutput (net : Network.t) (target : list double) :
  wf net → wf (Network.set_targetOutput target net).
Proof. done. Qed.

Lemma length_insert_layer (layers : list Layer.t) (l : nat) (L L' : Layer.t) :
  layers !! l = Some L → length L' = length L →
  length <$> <[l := L']> layers = length <$> layers.
Proof.
  intros HL Hlen. rewrite list_fmap_insert, Hlen.
  apply list_insert_id. by rewrite list_lookup_fmap, HL.
Qed.

End wf_facts.

(** ** feedForward *)

Section feedForward_facts.
Context `{Externals}.

Lemma layer_at_eq (l : nat) (net : Network.t) :
  Network.layer_at l net = (vector_at (Network.m_layers net) l, net).
Proof. done. Qed.

Lemma matrix_at_eq (l : nat) (net : Network.t) :
  Network.matrix_at l net = (vector_at (Network.m_weightMatrices net) l, net).
Proof. done. Qed.

Lemma mulVec_eq (W : linalg.Matrix) (v : list double) :
  length v = linalg.cols W → linalg.mulVec W v = Ok (mulVec_rows W v).
Proof. intros Hv. unfold linalg.mulVec. by rewrite decide_True. Qed.

Lemma feedForward_loop (n : nat) :
  ∀ (l : nat) (net : Network.t),
    wf net →
    l + n = length (Network.m_weightMatrices net) →
    for_from l n
      (λ layerNum,
        current ← Network.layer_at layerNum;
        let currentLayerOutputs := Layer.getActivations current in
        W ← Network.matrix_at layerNum;
        nextLayerInputs ← lift (linalg.mulVec W currentLayerOutputs);
        for_ (length nextLayerInputs) (λ neuronNum,
          x ← lift (vector_at nextLayerInputs neuronNum);
          Network.with_layer (layerNum + 1) (Layer.setInputAt neuronNum x))) net
    = (Ok tt,
       Network.set_layers
         (fed_layers l n (Network.m_weightMatrices net) (Network.m_layers net)) net).
Proof.
  induction n as [|n IH]; intros l net Hwf Hln.
  - simpl. by rewrite set_layers_same.
  - destruct (wf_round net l Hwf) as (W & L & Ln & HW & HL & HLn & Hok & HlenL & HlenLn);
      [lia|].
    cbn [for_from fed_layers]. rewrite HL, HW, HLn.
    rewrite bind_eq.
    rewrite bind_eq, layer_at_eq, (vector_at_Some _ _ _ HL).
    rewrite bind_eq, matrix_at_eq, (vector_at_Some _ _ _ HW).
    rewrite bind_eq. unfold lift at 1.
    rewrite mulVec_eq by (unfold Layer.getActivations; by rewrite length_fmap).
    unfold for_. rewrite Nat.add_1_r.
    rewrite (set_inputs_loop _ (S l) _ 0 [] Ln); [|done|done|done].
    rewrite decide_True
      by (unfold mulVec_rows; rewrite length_fmap, (matrix_ok_rows _ Hok); lia).
    cbn [app]. fold (fed_layer W L Ln).
    rewrite IH.
    + by rewrite set_layers_twice.
    + apply wf_set_layers; [done|].
      eapply length_insert_layer; [done|]. apply set_inputs_length.
    + cbn [Network.set_layers Network.m_weightMatrices]. lia.
Qed.

(** [feedForward] on a well-formed network returns, and leaves the layers
    of the closed form. *)
Lemma feedForward_eq (net : Network.t) :
  wf net →
  Network.feedForward net =
    (Ok tt,
     Network.set_layers
       (fed_layers 0 (length (Network.m_weightMatrices net))
          (Network.m_weightMatrices net) (Network.m_layers net)) net).
Proof.
  intros Hwf. unfold Network.feedForward. rewrite bind_eq. cbn [gets].
  destruct Hwf as (Hnum & Hlen & Hrest). rewrite Hlen.
  apply feedForward_loop; [done|lia].
Qed.

End feedForward_facts.

(** ** backPropagate *)

Section backPropagate_facts.
Context `{Externals}.

Lemma gradCost_loop_eq (output target : list double) (n : nat) :
  ∀ (i : nat) (gradCost : list double),
    i + n = length output →
    length output ≤ length target →
    Network.gradCost_loop i n output target gradCost
    = Ok (gradCost ++ zip_with dsub (drop i output) (drop i target)).
Proof.
  induction n as [|n IH]; intros i acc Hin Hlen.
  - simpl. rewrite (drop_ge output) by lia. simpl. by rewrite app_nil_r.
  - destruct (lookup_lt_is_Some_2 output i) as [o Ho]; [lia|].
    destruct (lookup_lt_is_Some_2 target i) as [t Ht]; [lia|].
    cbn [Network.gradCost_loop].
    rewrite (vector_at_Some _ _ _ Ho), (vector_at_Some _ _ _ Ht).
    cbn [mbind result_bind]. rewrite IH by lia.
    rewrite (drop_S _ _ _ Ho), (drop_S _ _ _ Ht). cbn [zip_with].
    by rewrite <-(assoc_L (++)).
Qed.

Lemma transpose_rows_length (W : linalg.Matrix) :
  length (linalg.elems (linalg.transpose W)) = linalg.cols W.
Proof. unfold linalg.transpose. simpl. by rewrite length_fmap, length_seq. Qed.

Lemma hidden_error_length (W : linalg.Matrix) (L : Layer.t) (next : list double) :
  length L = linalg.cols W → length (hidden_error W L next) = length L.
Proof.
  intros HL. unfold hidden_error, mulVec_rows, Layer.getDerivatives.
  rewrite length_zip_with, !length_fmap, transpose_rows_length. lia.
Qed.

Lemma backPropagate_step_eq (i : nat) (net : Network.t) (W : linalg.Matrix)
    (L : Layer.t) (next : list double) :
  Network.m_weightMatrices net !! i = Some W →
  Network.m_layers net !! i = Some L →
  last (Network.m_errors net) = Some next →
  length next = linalg.rows W →
  length L = linalg.cols W →
  Network.backPropagate_step i net
  = (Ok tt, Network.set_errors (Network.m_errors net ++ [hidden_error W L next]) net).
Proof.
  intros HW HL Hlast Hnext HlenL. unfold Network.backPropagate_step.
  rewrite bind_eq, matrix_at_eq, (vector_at_Some _ _ _ HW).
  rewrite bind_eq, layer_at_eq, (vector_at_Some _ _ _ HL).
  rewrite bind_eq. cbn [gets]. rewrite Hlast.
  rewrite bind_eq. unfold lift at 1.
  rewrite mulVec_eq by done.
  rewrite bind_eq. unfold lift at 1. unfold linalg.hadamardProduct.
  rewrite decide_True; [done|].
  unfold mulVec_rows, Layer.getDerivatives.
  by rewrite !length_fmap, transpose_rows_length.
Qed.

Lemma backPropagate_loop_eq (i : nat) :
  ∀ (net : Network.t) (next : list double),
    wf net →
    last (Network.m_errors net) = Some next →
    (i ≠ 0 → ∃ Lnext, Network.m_layers net !! S i = Some Lnext
                       ∧ length next = length Lnext) →
    Network.backPropagate_loop i net
    = (Ok tt,
       Network.set_errors
         (Network.m_errors net
            ++ hidden_errors i (Network.m_weightMatrices net) (Network.m_layers net) next)
         net).
Proof.
  induction i as [|i IH]; intros net next Hwf Hlast Hnext.
  - simpl. rewrite app_nil_r. by destruct net.
  - destruct Hnext as (Ln' & HLn' & Hlen); [done|].
    destruct (wf_round net (S i) Hwf) as (W & L & Ln & HW & HL & HLn & Hok & HlenL & HlenLn).
    { destruct Hwf as (_ & Hl & _). apply lookup_lt_Some in HLn'. lia. }
    simplify_eq.
    cbn [Network.backPropagate_loop hidden_errors]. rewrite HW, HL.
    rewrite bind_eq.
    rewrite (backPropagate_step_eq (S i) net W L next) by (done || lia).
    rewrite (IH _ (hidden_error W L next)).
    + cbn [Network.set_errors Network.m_errors Network.m_weightMatrices Network.m_layers].
      by rewrite <-(assoc_L (++)).
    + by apply wf_set_errors.
    + cbn [Network.set_errors Network.m_errors]. by rewrite last_snoc.
    + intros _. exists L. split; [done|]. by apply hidden_error_length.
Qed.

(** [backPropagate] on a well-formed network whose target has the length of
    the output layer returns, having appended the errors of section 4.6 to
    the error list and changed nothing else. *)
Lemma backPropagate_eq (net : Network.t) (back : Layer.t) :
  wf net →
  last (Network.m_layers net) = Some back →
  length (Network.m_targetOutput net) = length back →
  Network.backPropagate net
  = (Ok tt, Network.set_errors (Network.m_errors net ++ produced_errors net) net).
Proof.
  intros Hwf Hback Htarget. unfold Network.backPropagate, produced_errors.
  rewrite bind_eq. cbn [gets]. rewrite Hback.
  rewrite bind_eq. cbn [gets].
  rewrite bind_eq. unfold lift at 1. unfold Layer.getSize.
  rewrite gradCost_loop_eq;
    [|unfold Layer.getActivations; by rewrite length_fmap
     |unfold Layer.getActivations; rewrite length_fmap; lia].
  rewrite bind_eq. unfold lift at 1. unfold linalg.hadamardProduct.
  rewrite decide_True.
  2:{ cbn [app]. rewrite !drop_0. unfold Layer.getActivations, Layer.getDerivatives.
      rewrite length_zip_with, !length_fmap. lia. }
  rewrite bind_eq. cbn [modify]. rewrite bind_eq. cbn [gets].
  rewrite bind_eq. unfold lift at 1.
  destruct (vector_at_lt
              (Network.m_errors
                 (Network.set_errors
                    (Network.m_errors net ++
                     [zip_with dmul
                        ([] ++ zip_with dsub (drop 0 (Layer.getActivations back))
                                 (drop 0 (Network.m_targetOutput net)))
                        (Layer.getDerivatives back)]) net)) 0)
    as (first & _ & ->).
  { cbn [Network.set_errors Network.m_errors]. rewrite length_app. simpl. lia. }
  rewrite bind_eq. cbn [gets].
  cbn [app]. rewrite !drop_0. fold (cost_gradient back (Network.m_targetOutput net)).
  fold (output_error back (Network.m_targetOutput net)).
  set (e := output_error back (Network.m_targetOutput net)).
  cbn [Network.set_errors Network.m_numLayers].
  pose proof Hwf as (Hnum & Hlen & _). rewrite Hnum.
  replace (Z.to_nat (Z.of_nat (length (Network.m_layers net)) - 2))
    with (length (Network.m_layers net) - 2) by lia.
  rewrite (backPropagate_loop_eq _ _ e).
  - cbn [Network.set_errors Network.m_errors Network.m_weightMatrices Network.m_layers].
    by rewrite <-(assoc_L (++)).
  - by apply wf_set_errors.
  - exact (last_snoc _ _).
  - intros Hne. exists back. split.
    + rewrite last_lookup in Hback.
      replace (S (length (Network.m_layers net) - 2))
        with (pred (length (Network.m_layers net))) by lia.
      exact Hback.
    + unfold e, output_error, cost_gradient, Layer.getActivations, Layer.getDerivatives.
      rewrite !length_zip_with, !length_fmap. lia.
Qed.

End backPropagate_facts.

(** ** update: what it leaves alone *)

Section update_frame_facts.
Context `{Externals}.

Global Instance update_frame_preorder : PreOrder update_frame.
Proof.
  split.
  - intros net. by repeat split.
  - intros n1 n2 n3 (?&?&?&?&?&?&?&?) (?&?&?&?&?&?&?&?).
    repeat split; etrans; eauto.
Qed.

Lemma error_at_rev_eq (l : nat) (net : Network.t) :
  Network.error_at_rev l net =
    (if decide (l < length (Network.m_errors net))
     then vector_at (Network.m_errors net) (length (Network.m_errors net) - 1 - l)
     else Throw out_of_range, net).
Proof.
  unfold Network.error_at_rev. rewrite bind_eq. cbn [gets].
  by destruct (decide _).
Qed.

Lemma set_weight_eq (l j i : nat) (x : double) (net : Network.t) :
  Network.set_weight l j i x net =
  match Network.m_weightMatrices net !! l with
  | None => (Throw out_of_range, net)
  | Some W =>
    match linalg.set W j i x with
    | Ok W' =>
      (Ok tt, Network.set_weightMatrices (<[l := W']> (Network.m_weightMatrices net)) net)
    | Throw e => (Throw e, net)
    end
  end.
Proof.
  unfold Network.set_weight. rewrite bind_eq, matrix_at_eq. unfold vector_at.
  destruct (Network.m_weightMatrices net !! l) as [W|]; [|done].
  rewrite bind_eq. unfold lift at 1. by destruct (linalg.set W j i x).
Qed.

Lemma linalg_set_eq (W : linalg.Matrix) (j i : nat) (x : double) :
  linalg.set W j i x =
  match linalg.elems W !! j with
  | None => Throw out_of_range
  | Some row =>
    match row !! i with
    | None => Throw out_of_range
    | Some _ =>
      Ok (linalg.mkMatrix _ (linalg.rows W) (linalg.cols W)
            (<[j := <[i := x]> row]> (linalg.elems W)))
    end
  end.
Proof.
  unfold linalg.set, vector_at.
  destruct (linalg.elems W !! j) as [row|]; [|done]. simpl.
  by destruct (row !! i).
Qed.

Lemma linalg_set_shape (W W' : linalg.Matrix) (j i : nat) (x : double) :
  linalg.set W j i x = Ok W' → matrix_shape W' = matrix_shape W.
Proof.
  rewrite linalg_set_eq.
  destruct (linalg.elems W !! j) as [row|] eqn:Hrow; [|done].
  destruct (row !! i); [|done]. intros [= <-].
  unfold matrix_shape. cbn [linalg.rows linalg.cols linalg.elems]. f_equal.
  rewrite list_fmap_insert, length_insert.
  apply list_insert_id. by rewrite list_lookup_fmap, Hrow.
Qed.

Lemma set_weight_frame (l j i : nat) (x : double) :
  preserves update_frame (Network.set_weight l j i x).
Proof.
  intros net. rewrite set_weight_eq.
  destruct (Network.m_weightMatrices net !! l) as [W|] eqn:HW; [|reflexivity].
  destruct (linalg.set W j i x) as [W'|] eqn:Hset; [|reflexivity].
  repeat split. cbn [snd Network.set_weightMatrices Network.m_weightMatrices].
  rewrite list_fmap_insert, (linalg_set_shape _ _ _ _ _ Hset).
  apply list_insert_id. by rewrite list_lookup_fmap, HW.
Qed.

Lemma setBiasAt_eq (idx : nat) (b : double) (L : Layer.t) :
  Layer.setBiasAt idx b L =
  match L !! idx with
  | Some n => Ok (<[idx := Neuron.setBias b n]> L)
  | None => Throw out_of_range
  end.
Proof. unfold Layer.setBiasAt, vector_at. by destruct (L !! idx). Qed.

Lemma setBias_frame (l j : nat) (b : double) :
  preserves update_frame (Network.with_layer (S l) (Layer.setBiasAt j b)).
Proof.
  intros net. rewrite with_layer_eq.
  destruct (Network.m_layers net !! S l) as [L|] eqn:HL; [|reflexivity].
  rewrite setBiasAt_eq.
  destruct (L !! j) as [n|] eqn:Hn; [|reflexivity].
  repeat split; cbn [snd Network.set_layers Network.m_layers].
  - rewrite list_fmap_insert. apply list_insert_id.
    rewrite list_lookup_fmap, HL. simpl. f_equal.
    unfold strip_layer. rewrite list_fmap_insert.
    symmetry. apply list_insert_id. by rewrite list_lookup_fmap, Hn.
  - by rewrite list_lookup_insert_ne by done.
Qed.

Lemma error_at_rev_frame (l : nat) : preserves update_frame (Network.error_at_rev l).
Proof. intros net. rewrite error_at_rev_eq. reflexivity. Qed.

Lemma layer_at_frame (l : nat) : preserves update_frame (Network.layer_at l).
Proof. intros net. rewrite layer_at_eq. reflexivity. Qed.

Lemma matrix_at_frame (l : nat) : preserves update_frame (Network.matrix_at l).
Proof. intros net. rewrite matrix_at_eq. reflexivity. Qed.

Lemma update_weight_frame (l j i : nat) :
  preserves update_frame (Network.update_weight l j i).
Proof.
  unfold Network.update_weight.
  apply preserves_bind; [apply _|apply matrix_at_frame|]. intros W.
  apply preserves_bind; [apply _|apply preserves_lift, _|]. intros w.
  apply preserves_bind; [apply _|apply layer_at_frame|]. intros source.
  apply preserves_bind; [apply _|apply preserves_lift, _|]. intros a.
  apply preserves_bind; [apply _|apply error_at_rev_frame|]. intros currentError.
  apply preserves_bind; [apply _|apply preserves_lift, _|]. intros e.
  apply set_weight_frame.
Qed.

Lemma update_neuron_frame (l j : nat) :
  preserves update_frame (Network.update_neuron l j).
Proof.
  unfold Network.update_neuron.
  apply preserves_bind; [apply _|apply layer_at_frame|]. intros this.
  apply preserves_bind; [apply _| |].
  { apply preserves_for; [apply _|]. intros i. apply update_weight_frame. }
  intros _.
  apply preserves_bind; [apply _|apply layer_at_frame|]. intros dest.
  apply preserves_bind; [apply _|apply preserves_lift, _|]. intros b.
  apply preserves_bind; [apply _|apply error_at_rev_frame|]. intros currentError.
  apply preserves_bind; [apply _|apply preserves_lift, _|]. intros e.
  rewrite Nat.add_1_r. apply setBias_frame.
Qed.

Lemma update_matrix_frame (l : nat) :
  preserves update_frame (Network.update_matrix l).
Proof.
  unfold Network.update_matrix.
  apply preserves_bind; [apply _|apply matrix_at_frame|]. intros _.
  apply preserves_bind; [apply _|apply error_at_rev_frame|]. intros _.
  apply preserves_bind; [apply _|apply layer_at_frame|]. intros next.
  apply preserves_for; [apply _|]. intros j. apply update_neuron_frame.
Qed.

(** However [update] ends, it has changed nothing but weights and biases of
    layers after the input layer. *)
Lemma update_preserves_frame : preserves update_frame Network.update.
Proof.
  unfold Network.update.
  apply preserves_bind; [apply _|apply preserves_gets, _|]. intros ws.
  apply preserves_for; [apply _|]. intros l. apply update_matrix_frame.
Qed.

End update_frame_facts.

(** ** update: the delta rule *)

Section update_facts.
Context `{Externals}.

Lemma weight_Some (net : Network.t) (l j i : nat) (w : double) :
  weight net l j i = Some w ↔
  ∃ W row, Network.m_weightMatrices net !! l = Some W
           ∧ linalg.elems W !! j = Some row ∧ row !! i = Some w.
Proof.
  unfold weight. split.
  - destruct (Network.m_weightMatrices net !! l) as [W|]; [|done]. simpl.
    destruct (linalg.elems W !! j) as [row|] eqn:Hrow; [|done]. simpl.
    intros Hw. by exists W, row.
  - intros (W & row & -> & Hrow & Hw). simpl. by rewrite Hrow.
Qed.

Lemma neuron_Some (net : Network.t) (l j : nat) (n : Neuron.t) :
  neuron net l j = Some n ↔
  ∃ L, Network.m_layers net !! l = Some L ∧ L !! j = Some n.
Proof.
  unfold neuron. split.
  - destruct (Network.m_layers net !! l) as [L|]; [|done]. simpl.
    intros Hn. by exists L.
  - by intros (L & -> & Hn).
Qed.

Lemma error_rev_Some (net : Network.t) (l j : nat) (e : double) :
  error_rev net l j = Some e ↔
  l < length (Network.m_errors net) ∧
  ∃ v, Network.m_errors net !! (length (Network.m_errors net) - 1 - l) = Some v
       ∧ v !! j = Some e.
Proof.
  unfold error_rev. destruct (decide _) as [Hl|Hl]; [|split; [done|by intros [? _]]].
  split.
  - destruct (Network.m_errors net !! _) as [v|]; [|done]. simpl.
    intros Hv. split; [done|]. by exists v.
  - by intros (_ & v & -> & Hv).
Qed.

(** In a well-formed network the entries of matrix [l] are those between
    the neurons of layers [l] and [l + 1]. *)
Lemma weight_is_Some (net : Network.t) (l j i : nat) (L Lnext : Layer.t) :
  wf net →
  l < length (Network.m_weightMatrices net) →
  Network.m_layers net !! l = Some L →
  Network.m_layers net !! S l = Some Lnext →
  is_Some (weight net l j i) ↔ j < length Lnext ∧ i < length L.
Proof.
  intros Hwf Hl HL HLn.
  destruct (wf_round net l Hwf Hl) as (W & L' & Ln' & HW & HL' & HLn' & Hok & HlenL & HlenLn).
  simplify_eq. split.
  - intros [w (W' & row & HW' & Hrow & Hw)%weight_Some]. simplify_eq.
    pose proof (matrix_ok_row _ _ _ Hok Hrow).
    pose proof (matrix_ok_rows _ Hok).
    apply lookup_lt_Some in Hrow, Hw. lia.
  - intros [Hj Hi].
    destruct (lookup_lt_is_Some_2 (linalg.elems W) j) as [row Hrow].
    { rewrite (matrix_ok_rows _ Hok). lia. }
    destruct (lookup_lt_is_Some_2 row i) as [w Hw].
    { rewrite (matrix_ok_row _ _ _ Hok Hrow). lia. }
    exists w. apply weight_Some. by exists W, row.
Qed.

Lemma weight_bounds (net : Network.t) (l j i : nat) (w : double) :
  wf net → weight net l j i = Some w →
  ∃ L Lnext, Network.m_layers net !! l = Some L
             ∧ Network.m_layers net !! S l = Some Lnext
             ∧ l < length (Network.m_weightMatrices net)
             ∧ j < length Lnext ∧ i < length L.
Proof.
  intros Hwf Hw.
  assert (l < length (Network.m_weightMatrices net)) as Hl.
  { apply weight_Some in Hw as (W & _ & HW & _). by eapply lookup_lt_Some. }
  destruct (wf_round net l Hwf Hl) as (W & L & Ln & HW & HL & HLn & _).
  exists L, Ln. split_and!; [done..| |];
    by apply (weight_is_Some net l j i L Ln Hwf Hl HL HLn).
Qed.

(** *** What the frame keeps *)

Lemma strip_neuron (net : Network.t) (l j : nat) :
  strip <$> neuron net l j
  = (strip_layer <$> Network.m_layers net) !! l ≫= (.!! j).
Proof.
  unfold neuron. rewrite list_lookup_fmap.
  destruct (Network.m_layers net !! l) as [L|]; [|done]. simpl.
  unfold strip_layer. by rewrite list_lookup_fmap.
Qed.

Lemma frame_strip (net0 net : Network.t) (l j : nat) :
  update_frame net0 net → strip <$> neuron net l j = strip <$> neuron net0 l j.
Proof. intros (_&_&_&_&_&Hs&_). by rewrite !strip_neuron, Hs. Qed.

Lemma frame_activation (net0 net : Network.t) (l i : nat) :
  update_frame net0 net → activation net l i = activation net0 l i.
Proof.
  intros Hf. pose proof (frame_strip net0 net l i Hf) as Hs.
  unfold activation.
  destruct (neuron net l i) as [n|], (neuron net0 l i) as [n0|];
    simpl in *; simplify_eq; [|done].
  congruence.
Qed.

Lemma frame_lengths (net0 net : Network.t) :
  update_frame net0 net →
  length <$> Network.m_layers net = length <$> Network.m_layers net0.
Proof.
  intros (_&_&_&_&_&Hs&_).
  apply (f_equal (fmap length)) in Hs.
  rewrite <-!list_fmap_compose in Hs.
  erewrite (list_fmap_ext (length ∘ strip_layer) length (Network.m_layers net)) in Hs;
    [|intros _ L _; unfold strip_layer; simpl; by rewrite length_fmap].
  erewrite (list_fmap_ext (length ∘ strip_layer) length (Network.m_layers net0)) in Hs;
    [|intros _ L _; unfold strip_layer; simpl; by rewrite length_fmap].
  done.
Qed.

Lemma frame_layer (net0 net : Network.t) (l : nat) (L0 : Layer.t) :
  update_frame net0 net → Network.m_layers net0 !! l = Some L0 →
  ∃ L, Network.m_layers net !! l = Some L ∧ length L = length L0.
Proof.
  intros Hf HL0. apply lookup_length_Some.
  rewrite (frame_lengths _ _ Hf). apply lookup_length_Some. eauto.
Qed.

Lemma frame_matrices_length (net0 net : Network.t) :
  update_frame net0 net →
  length (Network.m_weightMatrices net) = length (Network.m_weightMatrices net0).
Proof.
  intros (_&_&_&_&_&_&_&Hs). apply (f_equal length) in Hs.
  by rewrite !length_fmap in Hs.
Qed.

Lemma frame_error_rev (net0 net : Network.t) (l j : nat) :
  update_frame net0 net → error_rev net l j = error_rev net0 l j.
Proof. intros (_&_&_&_&He&_). unfold error_rev. by rewrite He. Qed.

(** The frame carries well-formedness over. *)
Lemma frame_wf (net0 net : Network.t) : update_frame net0 net → wf net0 → wf net.
Proof.
  intros Hf (Hnum & Hlen & Hwf).
  pose proof (frame_lengths _ _ Hf) as Hls.
  pose proof (frame_matrices_length _ _ Hf) as Hms.
  assert (length (Network.m_layers net) = length (Network.m_layers net0)) as Hll.
  { apply (f_equal length) in Hls. by rewrite !length_fmap in Hls. }
  destruct Hf as (_&Hn&_&_&_&_&_&Hs).
  split_and!; [congruence|congruence|].
  intros l W HW. rewrite Hls.
  assert ((matrix_shape <$> Network.m_weightMatrices net0) !! l
          = Some (matrix_shape W)) as HW0.
  { by rewrite <-Hs, list_lookup_fmap, HW. }
  rewrite list_lookup_fmap in HW0.
  destruct (Network.m_weightMatrices net0 !! l) as [W0|] eqn:HW0'; [|done].
  simpl in HW0. unfold matrix_shape in HW0. simplify_eq.
  destruct (Hwf l W0 HW0') as (Hok & Hc & Hr).
  unfold matrix_ok in *. split_and!; congruence.
Qed.

(** *** One weight *)

Lemma update_weight_returns (net : Network.t) (l j i : nat) (w a e : double) :
  weight net l j i = Some w →
  activation net l i = Some a →
  error_rev net l j = Some e →
  returns (Network.update_weight l j i) net (λ _ net',
    Network.m_layers net' = Network.m_layers net ∧
    ∀ l' j' i', weight net' l' j' i' =
      if decide (l' = l ∧ j' = j ∧ i' = i) then Some (delta_weight w a e)
      else weight net l' j' i').
Proof.
  intros (W & row & HW & Hrow & Hw)%weight_Some Ha
         (Hl & v & Hv & He)%error_rev_Some.
  unfold activation in Ha.
  destruct (neuron net l i) as [n|] eqn:Hn; [|done].
  apply neuron_Some in Hn as (L & HL & Hn). simpl in Ha. simplify_eq.
  exists tt. eexists. split.
  - unfold Network.update_weight.
    rewrite bind_eq, matrix_at_eq, (vector_at_Some _ _ _ HW).
    rewrite bind_eq. unfold lift at 1. unfold linalg.get.
    rewrite (vector_at_Some _ _ _ Hrow). cbn [mbind result_bind].
    rewrite (vector_at_Some _ _ _ Hw).
    rewrite bind_eq, layer_at_eq, (vector_at_Some _ _ _ HL).
    rewrite bind_eq. unfold lift at 1.
    rewrite (vector_at_Some _ i (Neuron.m_activation n))
      by (unfold Layer.getActivations; by rewrite list_lookup_fmap, Hn).
    rewrite bind_eq, error_at_rev_eq, decide_True by done.
    rewrite (vector_at_Some _ _ _ Hv).
    rewrite bind_eq. unfold lift at 1. rewrite (vector_at_Some _ _ _ He).
    rewrite set_weight_eq, HW, linalg_set_eq, Hrow, Hw. reflexivity.
  - split; [done|]. intros l' j' i'.
    unfold weight. cbn [Network.set_weightMatrices Network.m_weightMatrices].
    destruct (decide (l' = l)) as [->|Hne].
    + rewrite list_lookup_insert_eq by (by eapply lookup_lt_Some).
      rewrite HW. cbn [mbind option_bind linalg.elems].
      destruct (decide (j' = j)) as [->|Hnej].
      * rewrite list_lookup_insert_eq by (by eapply lookup_lt_Some).
        rewrite Hrow. cbn [mbind option_bind].
        destruct (decide (i' = i)) as [->|Hnei].
        -- rewrite list_lookup_insert_eq by (by eapply lookup_lt_Some).
           by rewrite decide_True.
        -- rewrite list_lookup_insert_ne by done.
           by rewrite decide_False by intuition.
      * rewrite list_lookup_insert_ne by done.
        by rewrite decide_False by intuition.
    + rewrite list_lookup_insert_ne by done.
      by rewrite decide_False by intuition.
Qed.

(** *** One bias *)

Lemma update_bias_returns (net : Network.t) (l j : nat) (b : double) (x : double) :
  bias net (S l) j = Some b →
  returns (Network.with_layer (S l) (Layer.setBiasAt j x)) net (λ _ net',
    Network.m_weightMatrices net' = Network.m_weightMatrices net ∧
    ∀ l' j', bias net' l' j' =
      if decide (l' = S l ∧ j' = j) then Some x else bias net l' j').
Proof.
  unfold bias. intros Hb.
  destruct (neuron net (S l) j) as [n|] eqn:Hn; [|done].
  apply neuron_Some in Hn as (L & HL & Hn).
  exists tt. eexists. split.
  - rewrite with_layer_eq, HL, setBiasAt_eq, Hn. reflexivity.
  - split; [done|]. intros l' j'.
    unfold neuron. cbn [Network.set_layers Network.m_layers].
    destruct (decide (l' = S l)) as [->|Hne].
    + rewrite list_lookup_insert_eq by (by eapply lookup_lt_Some).
      rewrite HL. cbn [mbind option_bind].
      destruct (decide (j' = j)) as [->|Hnej].
      * rewrite list_lookup_insert_eq by (by eapply lookup_lt_Some).
        by rewrite decide_True.
      * rewrite list_lookup_insert_ne by done.
        by rewrite decide_False by intuition.
    + rewrite list_lookup_insert_ne by done.
      by rewrite decide_False by intuition.
Qed.

(** *** The three loops *)

Lemma errors_fit_error_rev (net : Network.t) (l j : nat) (Lnext : Layer.t) :
  errors_fit net →
  l < length (Network.m_weightMatrices net) →
  Network.m_layers net !! S l = Some Lnext →
  j < length Lnext →
  is_Some (error_rev net l j).
Proof.
  intros (Hlen & Hfit) Hl HLn Hj.
  destruct (Hfit l Lnext HLn) as (v & Hv & Hlenv).
  destruct (lookup_lt_is_Some_2 v j) as [e He]; [lia|].
  exists e. apply error_rev_Some. split; [lia|]. by exists v.
Qed.

Lemma bias_is_Some (net : Network.t) (l j : nat) (L : Layer.t) :
  Network.m_layers net !! l = Some L →
  is_Some (bias net l j) ↔ j < length L.
Proof.
  intros HL. unfold bias, neuron. rewrite HL. cbn [mbind option_bind].
  rewrite fmap_is_Some. apply lookup_lt_is_Some.
Qed.

Lemma activation_is_Some (net : Network.t) (l i : nat) (L : Layer.t) :
  Network.m_layers net !! l = Some L →
  i < length L → is_Some (activation net l i).
Proof.
  intros HL Hi. unfold activation, neuron. rewrite HL. cbn [mbind option_bind].
  rewrite fmap_is_Some. by apply lookup_lt_is_Some.
Qed.

Lemma updated_upto_start (net : Network.t) : updated_upto 0 0 0 net net.
Proof.
  split_and!; [reflexivity| |].
  - intros l' j' i' w Hw. by rewrite decide_False by lia.
  - intros l' j' b Hb. by rewrite decide_False by lia.
Qed.

Section rounds.
Context (net0 : Network.t) (l : nat) (L0 Ln0 : Layer.t).
Context (Hwf : wf net0) (Hfit : errors_fit net0).
Context (Hl : l < length (Network.m_weightMatrices net0)).
Context (HL0 : Network.m_layers net0 !! l = Some L0).
Context (HLn0 : Network.m_layers net0 !! S l = Some Ln0).

Lemma update_weight_loop (j : nat) (net : Network.t) :
  j < length Ln0 →
  updated_upto l j 0 net0 net →
  returns (for_ (length L0) (Network.update_weight l j)) net
    (λ _ net', updated_upto l j (length L0) net0 net').
Proof.
  intros Hj Hinv.
  apply (returns_for (λ i s, updated_upto l j i net0 s)); [done|].
  intros i s1 Hi (Hf & HW & HB).
  destruct (proj2 (weight_is_Some net0 l j i L0 Ln0 Hwf Hl HL0 HLn0)) as [w Hw]; [done|].
  destruct (activation_is_Some net0 l i L0 HL0 Hi) as [a Ha].
  destruct (errors_fit_error_rev net0 l j Ln0 Hfit Hl HLn0 Hj) as [e He].
  eapply returns_weaken.
  { apply (returns_preserves update_frame); [apply update_weight_frame|].
    apply (update_weight_returns s1 l j i w a e).
    - rewrite (HW _ _ _ _ Hw). by rewrite decide_False by lia.
    - by rewrite (frame_activation _ _ _ _ Hf).
    - by rewrite (frame_error_rev _ _ _ _ Hf). }
  intros _ s2 ((Hlayers & Hweights) & Hf12). split_and!.
  - by etrans.
  - intros l' j' i' w' Hw'. rewrite Hweights.
    destruct (decide (l' = l ∧ j' = j ∧ i' = i)) as [(-> & -> & ->)|Hne].
    + rewrite decide_True by lia. unfold new_weight.
      rewrite Hw, Ha, He. done.
    + rewrite (HW _ _ _ _ Hw').
      destruct (decide (l' < l ∨ l' = l ∧ (j' < j ∨ j' = j ∧ i' < i))),
               (decide (l' < l ∨ l' = l ∧ (j' < j ∨ j' = j ∧ i' < S i)));
        try done; lia.
  - intros l' j' b Hb. rewrite <-(HB _ _ _ Hb).
    unfold bias, neuron. by rewrite Hlayers.
Qed.

Lemma update_neuron_returns (j : nat) (net : Network.t) :
  j < length Ln0 →
  updated_upto l j 0 net0 net →
  returns (Network.update_neuron l j) net
    (λ _ net', updated_upto l (S j) 0 net0 net').
Proof.
  intros Hj Hinv. unfold Network.update_neuron.
  destruct (frame_layer net0 net l L0 (proj1 Hinv) HL0) as (L & HL & HlenL).
  apply returns_bind. exists L, net. split.
  { by rewrite layer_at_eq, (vector_at_Some _ _ _ HL). }
  apply returns_bind. unfold Layer.getSize. rewrite HlenL.
  eapply returns_weaken; [by apply update_weight_loop|].
  intros _ s1 (Hf & HW & HB). rewrite Nat.add_1_r.
  destruct (frame_layer net0 s1 (S l) Ln0 Hf HLn0) as (Ln & HLn & HlenLn).
  destruct (proj2 (bias_is_Some net0 (S l) j Ln0 HLn0) Hj) as [b Hb].
  destruct (errors_fit_error_rev net0 l j Ln0 Hfit Hl HLn0 Hj) as [e He].
  assert (bias s1 (S l) j = Some b) as Hb1.
  { rewrite (HB _ _ _ Hb). by rewrite decide_False by lia. }
  pose proof He as He1. rewrite <-(frame_error_rev _ _ _ _ Hf) in He1.
  apply error_rev_Some in He1 as (Hle & v & Hv & Hvj).
  apply returns_bind. exists Ln, s1. split.
  { by rewrite layer_at_eq, (vector_at_Some _ _ _ HLn). }
  assert (Layer.getBiasAt j Ln = Ok b) as Hget.
  { unfold Layer.getBiasAt. unfold bias, neuron in Hb1. rewrite HLn in Hb1.
    cbn [mbind option_bind] in Hb1.
    destruct (Ln !! j) as [n|] eqn:Hn; [|done]. simpl in Hb1.
    rewrite (vector_at_Some _ _ _ Hn). injection Hb1 as <-. reflexivity. }
  apply returns_bind. eapply returns_lift; [exact Hget|].
  apply returns_bind. exists v, s1. split.
  { by rewrite error_at_rev_eq, decide_True, (vector_at_Some _ _ _ Hv) by done. }
  apply returns_bind. eapply returns_lift; [by apply vector_at_Some|].
  eapply returns_weaken.
  { apply (returns_preserves update_frame); [apply setBias_frame|].
    by apply (update_bias_returns s1 l j b). }
  intros _ s2 ((Hws & Hbs) & Hf12). split_and!.
  - by etrans.
  - intros l' j' i' w' Hw'.
    replace (weight s2 l' j' i') with (weight s1 l' j' i')
      by (unfold weight; by rewrite Hws).
    rewrite (HW _ _ _ _ Hw').
    destruct (weight_bounds net0 l' j' i' w' Hwf Hw') as (L' & Ln' & HL' & HLn' & _ & Hj' & Hi').
    destruct (decide (l' < l ∨ l' = l ∧ (j' < j ∨ j' = j ∧ i' < length L0))) as [Hd|Hd],
             (decide (l' < l ∨ l' = l ∧ (j' < S j ∨ j' = S j ∧ i' < 0))) as [Hd'|Hd'];
      try done; exfalso.
    + lia.
    + apply Hd. destruct (decide (l' = l)) as [->|]; [|lia]. simplify_eq. lia.
  - intros l' j' b' Hb'. rewrite Hbs.
    destruct (decide (S l' = S l ∧ j' = j)) as [[[= ->] ->]|Hne].
    + rewrite decide_True by lia. unfold new_bias. rewrite Hb, He.
      simplify_eq. done.
    + rewrite (HB _ _ _ Hb').
      destruct (decide (l' < l ∨ l' = l ∧ j' < j)),
               (decide (l' < l ∨ l' = l ∧ j' < S j)); try done; exfalso.
      * lia.
      * apply Hne. split; [f_equal|]; lia.
Qed.

Lemma update_matrix_returns (net : Network.t) :
  updated_upto l 0 0 net0 net →
  returns (Network.update_matrix l) net
    (λ _ net', updated_upto (S l) 0 0 net0 net').
Proof.
  intros Hinv. unfold Network.update_matrix.
  pose proof (proj1 Hinv) as Hf.
  destruct (lookup_lt_is_Some_2 (Network.m_weightMatrices net) l) as [W HW].
  { by rewrite (frame_matrices_length _ _ Hf). }
  apply returns_bind. exists W, net. split.
  { by rewrite matrix_at_eq, (vector_at_Some _ _ _ HW). }
  destruct Hfit as (Hlen & Hfit').
  destruct (Hfit' l Ln0 HLn0) as (v & Hv & Hlenv).
  destruct Hf as (?&?&?&?&He&?). rewrite <-He in Hv, Hlen.
  apply returns_bind. exists v, net. split.
  { rewrite error_at_rev_eq, decide_True by lia.
    by rewrite (vector_at_Some _ _ _ Hv). }
  destruct (frame_layer net0 net (S l) Ln0 (proj1 Hinv) HLn0) as (Ln & HLn & HlenLn).
  rewrite Nat.add_1_r.
  apply returns_bind. exists Ln, net. split.
  { by rewrite layer_at_eq, (vector_at_Some _ _ _ HLn). }
  unfold Layer.getSize. rewrite HlenLn.
  eapply returns_weaken.
  { apply (returns_for (λ j s, updated_upto l j 0 net0 s)); [done|].
    intros j s1 Hj Hs1. by apply update_neuron_returns. }
  intros _ s1 (Hf1 & HW1 & HB1). split_and!; [done| |].
  - intros l' j' i' w' Hw'. rewrite (HW1 _ _ _ _ Hw').
    destruct (weight_bounds net0 l' j' i' w' Hwf Hw') as (L' & Ln' & HL' & HLn' & _ & Hj' & Hi').
    destruct (decide (l' < l ∨ l' = l ∧ (j' < length Ln0 ∨ j' = length Ln0 ∧ i' < 0))) as [Hd|Hd],
             (decide (l' < S l ∨ l' = S l ∧ (j' < 0 ∨ j' = 0 ∧ i' < 0))) as [Hd'|Hd'];
      try done; exfalso.
    + lia.
    + apply Hd. destruct (decide (l' = l)) as [->|]; [|lia]. simplify_eq. lia.
  - intros l' j' b' Hb'. rewrite (HB1 _ _ _ Hb').
    destruct (decide (l' < l ∨ l' = l ∧ j' < length Ln0)) as [Hd|Hd],
             (decide (l' < S l ∨ l' = S l ∧ j' < 0)) as [Hd'|Hd'];
      try done; exfalso.
    + lia.
    + apply Hd. destruct (decide (l' = l)) as [->|]; [|lia].
      right. split; [done|].
      apply (bias_is_Some net0 (S l) j' Ln0 HLn0). eauto.
Qed.

End rounds.

(** [update] on a well-formed network whose error list fits returns, every
    round done. *)
Lemma update_returns (net0 : Network.t) :
  wf net0 → errors_fit net0 →
  returns Network.update net0
    (λ _ net', updated_upto (length (Network.m_weightMatrices net0)) 0 0 net0 net').
Proof.
  intros Hwf Hfit. unfold Network.update.
  apply returns_bind, returns_gets.
  apply (returns_for (λ l s, updated_upto l 0 0 net0 s)).
  - apply updated_upto_start.
  - intros l s1 Hl Hs1.
    destruct (wf_round net0 l Hwf Hl) as (W & L & Ln & HW & HL & HLn & _).
    by apply (update_matrix_returns net0 l L Ln).
Qed.

End update_facts.

(** ** The errors one backward pass produces *)

Section produced_errors_facts.
Context `{Externals}.

Lemma output_error_length (back : Layer.t) (target : list double) :
  length target = length back → length (output_error back target) = length back.
Proof.
  intros Ht. unfold output_error, cost_gradient, Layer.getActivations, Layer.getDerivatives.
  rewrite !length_zip_with, !length_fmap. lia.
Qed.

Lemma hidden_errors_length (net : Network.t) (i : nat) :
  wf net → i < length (Network.m_weightMatrices net) →
  ∀ next, length (hidden_errors i (Network.m_weightMatrices net)
                    (Network.m_layers net) next) = i.
Proof.
  intros Hwf. induction i as [|i IH]; intros Hi next; [done|].
  destruct (wf_round net (S i) Hwf Hi) as (W & L & Ln & HW & HL & _).
  cbn [hidden_errors]. rewrite HW, HL. cbn [length]. rewrite IH; [done|lia].
Qed.

(** Position [k + 1] of the list [next :: hidden_errors i ...] holds the
    error of layer [i - k], computed from the vector at position [k]. *)
Lemma hidden_errors_lookup (net : Network.t) (i : nat) :
  wf net → i < length (Network.m_weightMatrices net) →
  ∀ next k, k < i →
    ∃ W L prev,
      Network.m_weightMatrices net !! (i - k) = Some W ∧
      Network.m_layers net !! (i - k) = Some L ∧
      (next :: hidden_errors i (Network.m_weightMatrices net)
                 (Network.m_layers net) next) !! k = Some prev ∧
      (next :: hidden_errors i (Network.m_weightMatrices net)
                 (Network.m_layers net) next) !! S k
        = Some (hidden_error W L prev).
Proof.
  intros Hwf. induction i as [|i IH]; intros Hi next k Hk; [lia|].
  destruct (wf_round net (S i) Hwf Hi) as (W & L & Ln & HW & HL & _).
  cbn [hidden_errors]. rewrite HW, HL.
  destruct k as [|k].
  - exists W, L, next. by rewrite Nat.sub_0_r.
  - destruct (IH ltac:(lia) (hidden_error W L next) k ltac:(lia))
      as (W' & L' & prev & HW' & HL' & Hprev & Hnext).
    exists W', L', prev. by replace (S i - S k) with (i - k) by lia.
Qed.

Lemma produced_errors_length (net : Network.t) :
  wf net → length (produced_errors net) = Nat.max 1 (length (Network.m_layers net) - 1).
Proof.
  intros Hwf. unfold produced_errors.
  pose proof Hwf as (_ & Hlen & _).
  destruct (last (Network.m_layers net)) as [back|] eqn:Hback.
  2:{ apply last_None in Hback. rewrite Hback in Hlen. done. }
  cbn [length].
  destruct (decide (length (Network.m_layers net) - 2 = 0)) as [Heq|Hne];
    [rewrite Heq; simpl; lia|].
  rewrite hidden_errors_length by (done || lia). lia.
Qed.

(** The vector at position [numLayers - 1 - l] of the produced list is as
    long as layer [l], for every layer after the input layer. *)
Lemma produced_errors_fit (net : Network.t) (back : Layer.t) (l : nat) (Lnext : Layer.t) :
  wf net →
  last (Network.m_layers net) = Some back →
  length (Network.m_targetOutput net) = length back →
  Network.m_layers net !! S l = Some Lnext →
  ∃ e, produced_errors net !! (length (produced_errors net) - 1 - l) = Some e
       ∧ length e = length Lnext.
Proof.
  intros Hwf Hback Htarget HLn.
  pose proof (produced_errors_length net Hwf) as Hplen. rewrite Hplen.
  pose proof Hwf as (_ & Hlen & _).
  pose proof (lookup_lt_Some _ _ _ HLn) as Hl.
  unfold produced_errors. rewrite Hback. cbn zeta.
  rewrite last_lookup in Hback.
  destruct (decide (S l = pred (length (Network.m_layers net)))) as [Heq|Hne].
  - replace (Nat.max 1 (length (Network.m_layers net) - 1) - 1 - l) with 0 by lia.
    rewrite Heq in HLn. simplify_eq.
    eexists. split; [reflexivity|]. by apply output_error_length.
  - set (i := length (Network.m_layers net) - 2).
    destruct (hidden_errors_lookup net i Hwf ltac:(lia)
                (output_error back (Network.m_targetOutput net)) (i - S l) ltac:(lia))
      as (W & L & prev & HW & HL & Hprev & Hnext).
    replace (i - (i - S l)) with (S l) in HW, HL by lia. simplify_eq.
    replace (Nat.max 1 (length (Network.m_layers net) - 1) - 1 - l)
      with (S (i - S l)) by lia.
    eexists. split; [exact Hnext|].
    apply hidden_error_length.
    destruct (wf_round net (S l) Hwf ltac:(lia)) as (W' & L' & _ & HW' & HL' & _ & _ & Hc & _).
    by simplify_eq.
Qed.

(** After [m_errors.clear()] and [backPropagate], the error list is what
    [update] needs. *)
Lemma backPropagate_errors_fit (net : Network.t) (back : Layer.t) :
  wf net →
  last (Network.m_layers net) = Some back →
  length (Network.m_targetOutput net) = length back →
  errors_fit (Network.set_errors (produced_errors net) net).
Proof.
  intros Hwf Hback Htarget. split.
  - cbn [Network.set_errors Network.m_errors Network.m_weightMatrices].
    rewrite (produced_errors_length net Hwf).
    destruct Hwf as (_ & Hlen & _). lia.
  - intros l Ln HLn. by apply (produced_errors_fit net back l Ln).
Qed.

End produced_errors_facts.

(** ** The layers a forward pass leaves *)

Section fed_layers_facts.
Context `{Externals}.

Lemma fed_layers_lengths (Ws : list linalg.Matrix) (n : nat) :
  ∀ l layers, length <$> fed_layers l n Ws layers = length <$> layers.
Proof.
  induction n as [|n IH]; intros l layers; [done|].
  cbn [fed_layers].
  destruct (layers !! l) as [L|]; [|done].
  destruct (Ws !! l) as [W|]; [|done].
  destruct (layers !! S l) as [Ln|] eqn:HLn; [|done].
  rewrite IH. eapply length_insert_layer; [done|]. apply set_inputs_length.
Qed.

Lemma fed_layers_length (Ws : list linalg.Matrix) (n l : nat) (layers : list Layer.t) :
  length (fed_layers l n Ws layers) = length layers.
Proof.
  pose proof (fed_layers_lengths Ws n l layers) as Hl.
  apply (f_equal length) in Hl. by rewrite !length_fmap in Hl.
Qed.

(** Rounds from [l] on leave the layers up to [l] alone. *)
Lemma fed_layers_lookup_le (Ws : list linalg.Matrix) (n : nat) :
  ∀ l layers t, t ≤ l → fed_layers l n Ws layers !! t = layers !! t.
Proof.
  induction n as [|n IH]; intros l layers t Ht; [done|].
  cbn [fed_layers].
  destruct (layers !! l) as [L|]; [|done].
  destruct (Ws !! l) as [W|]; [|done].
  destruct (layers !! S l) as [Ln|]; [|done].
  rewrite IH by lia. apply list_lookup_insert_ne. lia.
Qed.

(** Round [t] leaves in layer [t + 1] the neurons fed from the final
    layer [t]. *)
Lemma fed_layers_lookup_fed (Ws : list linalg.Matrix) (n : nat) :
  ∀ l layers t W,
    length layers = S (length Ws) →
    l + n ≤ length Ws →
    l ≤ t < l + n →
    Ws !! t = Some W →
    ∃ L Lnext,
      fed_layers l n Ws layers !! t = Some L ∧
      layers !! S t = Some Lnext ∧
      fed_layers l n Ws layers !! S t = Some (fed_layer W L Lnext).
Proof.
  induction n as [|n IH]; intros l layers t W Hlen Hln Ht HW; [lia|].
  destruct (lookup_lt_is_Some_2 layers l) as [L0 HL0]; [lia|].
  destruct (lookup_lt_is_Some_2 Ws l) as [W0 HW0]; [lia|].
  destruct (lookup_lt_is_Some_2 layers (S l)) as [Ln0 HLn0]; [lia|].
  cbn [fed_layers]. rewrite HL0, HW0, HLn0.
  destruct (decide (t = l)) as [->|Hne].
  - simplify_eq. exists L0, Ln0.
    rewrite !fed_layers_lookup_le by lia.
    rewrite list_lookup_insert_ne by lia.
    rewrite list_lookup_insert_eq by lia. done.
  - destruct (IH (S l) (<[S l := fed_layer W0 L0 Ln0]> layers) t W)
      as (L & Ln & HL & HLn & Hfed); [by rewrite length_insert|lia|lia|done|].
    exists L, Ln. rewrite list_lookup_insert_ne in HLn by lia. done.
Qed.

Lemma set_inputs_lookup (xs : list double) :
  ∀ (L : Layer.t) (j : nat) (x : double) (n : Neuron.t),
    xs !! j = Some x → L !! j = Some n →
    set_inputs xs L !! j = Some (refresh x n).
Proof.
  induction xs as [|x' xs IH]; intros [|n' L] j x n Hx Hn; try done.
  destruct j as [|j]; simpl in *; [by simplify_eq|]. by apply IH.
Qed.

End fed_layers_facts.

(** ** The constructed network is well formed *)

Section built_facts.
Context `{Externals}.

Lemma built_layer_length (sizes : list Z) (k l t : nat) :
  length (built_layer sizes k l t) = size_at sizes t.
Proof.
  unfold built_layer, Layer.new, size_at. destruct t as [|t].
  - by rewrite length_replicate.
  - destruct (decide (t < l)).
    + by rewrite length_fmap, length_seq.
    + by rewrite length_replicate.
Qed.

Lemma random_ok (r c : Z) (k : nat) : matrix_ok (linalg.random r c k).
Proof.
  unfold matrix_ok, linalg.random. cbn [linalg.elems linalg.rows linalg.cols].
  apply list_eq. intros j. rewrite !list_lookup_fmap.
  destruct (decide (j < Z.to_nat r)) as [Hj|Hj].
  - rewrite lookup_seq_lt by done. rewrite lookup_replicate_2 by done.
    simpl. by rewrite length_fmap, length_seq.
  - rewrite lookup_seq_ge by lia. symmetry. apply lookup_replicate_None. lia.
Qed.

Lemma built_layers_lookup (sizes : list Z) (k t : nat) :
  t < length sizes →
  Network.m_layers (built sizes k) !! t
    = Some (built_layer sizes k (length sizes - 1) t).
Proof.
  intros Ht. unfold built. cbn [Network.m_layers].
  by rewrite list_lookup_fmap, lookup_seq_lt.
Qed.

Lemma built_matrices_lookup (sizes : list Z) (k l : nat) :
  S l < length sizes →
  Network.m_weightMatrices (built sizes k) !! l = Some (built_matrix sizes k l).
Proof.
  intros Hl. unfold built. cbn [Network.m_weightMatrices].
  by rewrite list_lookup_fmap, lookup_seq_lt by lia.
Qed.

Lemma built_wf (sizes : list Z) (k : nat) : sizes ≠ [] → wf (built sizes k).
Proof.
  intros Hne.
  assert (0 < length sizes) as Hlen by (destruct sizes; [done|simpl; lia]).
  unfold wf, built. cbn [Network.m_numLayers Network.m_layers Network.m_weightMatrices].
  rewrite !length_fmap, !length_seq. split_and!; [done|lia|].
  intros l W HW. rewrite list_lookup_fmap in HW.
  destruct (seq 0 (length sizes - 1) !! l) as [l'|] eqn:Hl; [|done].
  apply lookup_seq in Hl as [-> Hl]. simpl in HW. injection HW as <-.
  split_and!.
  - apply random_ok.
  - apply lookup_length_Some. eexists. split.
    + by rewrite list_lookup_fmap, lookup_seq_lt by lia.
    + by rewrite built_layer_length.
  - apply lookup_length_Some. eexists. split.
    + by rewrite list_lookup_fmap, lookup_seq_lt by lia.
    + by rewrite built_layer_length.
Qed.

End built_facts.

(** ** backPropagate only appends *)

Section append_facts.
Context `{Externals}.

Global Instance appends_preorder : PreOrder appends.
Proof.
  split.
  - intros net. repeat split. done.
  - intros n1 n2 n3 (?&?&?&?&?&?&?) (?&?&?&?&?&?&?).
    repeat split; etrans; eauto.
Qed.

Lemma push_error_appends (e : list double) :
  preserves appends
    (modify (λ net, Network.set_errors (Network.m_errors net ++ [e]) net)).
Proof.
  intros net. repeat split. cbn. by apply prefix_app_r.
Qed.

Lemma backPropagate_step_appends (i : nat) :
  preserves appends (Network.backPropagate_step i).
Proof.
  unfold Network.backPropagate_step.
  apply preserves_bind; [apply _| |]. { intros net. reflexivity. } intros W.
  apply preserves_bind; [apply _| |]. { intros net. reflexivity. } intros L.
  apply preserves_bind; [apply _|apply preserves_gets, _|]. intros errors.
  destruct (last errors) as [back|]; [|apply preserves_lift, _].
  apply preserves_bind; [apply _|apply preserves_lift, _|]. intros bp.
  apply preserves_bind; [apply _|apply preserves_lift, _|]. intros e.
  apply push_error_appends.
Qed.

Lemma backPropagate_loop_appends (i : nat) :
  preserves appends (Network.backPropagate_loop i).
Proof.
  induction i as [|i IH]; simpl.
  - apply preserves_ret, _.
  - apply preserves_bind; [apply _|apply backPropagate_step_appends|].
    intros _. apply IH.
Qed.

(** However [backPropagate] ends, the entries the error list held are
    still there, in place, and nothing but the error list has changed. *)
Lemma backPropagate_appends : preserves appends Network.backPropagate.
Proof.
  unfold Network.backPropagate.
  apply preserves_bind; [apply _|apply preserves_gets, _|]. intros layers.
  destruct (last layers) as [back|]; [|apply preserves_lift, _].
  apply preserves_bind; [apply _|apply preserves_gets, _|]. intros target.
  apply preserves_bind; [apply _|apply preserves_lift, _|]. intros gradCost.
  apply preserves_bind; [apply _|apply preserves_lift, _|]. intros outputError.
  apply preserves_bind; [apply _|apply push_error_appends|]. intros _.
  apply preserves_bind; [apply _|apply preserves_gets, _|]. intros errors.
  apply preserves_bind; [apply _|apply preserves_lift, _|]. intros _.
  apply preserves_bind; [apply _|apply preserves_gets, _|]. intros numLayers.
  apply backPropagate_loop_appends.
Qed.

End append_facts.

(** ** train *)

Section train_facts.
Context `{Externals}.

Lemma setTarget_eq (target : list double) (net : Network.t) :
  last (length <$> Network.m_layers net) = Some (length target) →
  Network.setTarget target net = (Ok tt, Network.set_targetOutput target net).
Proof.
  intros Hlast. unfold Network.setTarget. rewrite bind_eq. cbn [gets].
  rewrite decide_True; [done|].
  rewrite fmap_last in Hlast. symmetry. exact Hlast.
Qed.

Lemma produced_errors_set_errors (net : Network.t) (errors : list (list double)) :
  produced_errors (Network.set_errors errors net) = produced_errors net.
Proof. done. Qed.

(** The forward half of a gradient step returns and keeps the network
    well formed, with the target stored. *)
Lemma forward_pass_returns (net : Network.t) (input target : list double) :
  wf net → sample_fits net (input, target) →
  ∃ mid,
    forward_pass input target net = (Ok tt, mid) ∧
    wf mid ∧
    length <$> Network.m_layers mid = length <$> Network.m_layers net ∧
    Network.m_targetOutput mid = target ∧
    Network.m_weightMatrices mid = Network.m_weightMatrices net.
Proof.
  intros Hwf [Hin Htg]. cbn [fst snd] in *.
  destruct (Network.m_layers net) as [|L0 rest] eqn:Hlayers; [done|].
  cbn in Hin. injection Hin as Hin.
  set (net1 := Network.set_layers (set_inputs input L0 :: rest)
                 (Network.set_input input net)).
  assert (length <$> Network.m_layers net1 = length <$> Network.m_layers net) as Hl1.
  { rewrite Hlayers. cbn. by rewrite set_inputs_length. }
  assert (wf net1) as Hwf1.
  { apply wf_set_layers; [by apply wf_set_input|].
    cbn [Network.set_input Network.m_layers]. rewrite Hlayers.
    cbn. by rewrite set_inputs_length. }
  set (net2 := Network.set_targetOutput target net1).
  assert (wf net2) as Hwf2 by (by apply wf_set_targetOutput).
  eexists. split_and!.
  - unfold forward_pass. rewrite bind_eq, (setInput_eq input L0 rest) by done.
    rewrite decide_True by lia. fold net1.
    rewrite bind_eq, setTarget_eq by (rewrite Hl1, Hlayers; exact Htg).
    fold net2. by rewrite (feedForward_eq net2).
  - apply wf_set_layers; [done|]. apply fed_layers_lengths.
  - cbn [Network.set_layers Network.m_layers]. rewrite fed_layers_lengths.
    rewrite <-Hlayers. exact Hl1.
  - done.
  - done.
Qed.

(** A gradient step on a well-formed network with a fitting sample
    returns; the error list it leaves is the one produced from the state
    after this sample's forward pass. *)
Lemma gradient_step_returns (net : Network.t) (input target : list double) :
  wf net → sample_fits net (input, target) →
  ∃ mid net',
    forward_pass input target net = (Ok tt, mid) ∧
    Network.backPropagate (Network.set_errors [] mid)
      = (Ok tt, Network.set_errors (produced_errors mid) mid) ∧
    Network.update (Network.set_errors (produced_errors mid) mid) = (Ok tt, net') ∧
    gradient_step input target net = (Ok tt, net') ∧
    wf net' ∧
    Network.m_errors net' = produced_errors mid ∧
    length <$> Network.m_layers net' = length <$> Network.m_layers net.
Proof.
  intros Hwf Hfits.
  destruct (forward_pass_returns net input target Hwf Hfits)
    as (mid & Hfwd & Hwfmid & Hlmid & Htmid & _).
  destruct Hfits as [_ Htg]. cbn [snd] in Htg.
  rewrite <-Hlmid, fmap_last in Htg.
  destruct (last (Network.m_layers mid)) as [back|] eqn:Hback; [|done].
  injection Htg as Htg.
  assert (Network.backPropagate (Network.set_errors [] mid)
          = (Ok tt, Network.set_errors (produced_errors mid) mid)) as Hbp.
  { rewrite (backPropagate_eq _ back); [done|by apply wf_set_errors|done|].
    cbn [Network.set_errors Network.m_targetOutput]. congruence. }
  destruct (update_returns (Network.set_errors (produced_errors mid) mid))
    as ([] & net' & Hup & Hf & _).
  { by apply wf_set_errors. }
  { apply (backPropagate_errors_fit mid back); [done..|congruence]. }
  exists mid, net'. split_and!; [done..| | | |].
  - unfold gradient_step. unfold forward_pass in Hfwd.
    rewrite bind_eq in Hfwd. rewrite bind_eq.
    destruct (Network.setInput input net) as [[[]|e] s1]; [|done].
    rewrite bind_eq in Hfwd. rewrite bind_eq.
    destruct (Network.setTarget target s1) as [[[]|e] s2]; [|done].
    rewrite bind_eq, Hfwd. rewrite bind_eq. cbn [modify].
    by rewrite bind_eq, Hbp.
  - eapply frame_wf; [exact Hf|]. by apply wf_set_errors.
  - by destruct Hf as (_&_&_&_&->&_).
  - rewrite (frame_lengths _ _ Hf). exact Hlmid.
Qed.

Lemma sample_fits_lengths (net net' : Network.t) (sample : list double * list double) :
  length <$> Network.m_layers net' = length <$> Network.m_layers net →
  sample_fits net sample → sample_fits net' sample.
Proof. unfold sample_fits. by intros ->. Qed.

Lemma train_spec_returns (samples : list (list double * list double)) :
  ∀ net, wf net → Forall (sample_fits net) samples →
    ∃ net', train_spec samples net = (Ok tt, net') ∧ wf net' ∧
            length <$> Network.m_layers net' = length <$> Network.m_layers net.
Proof.
  induction samples as [|[input target] samples IH]; intros net Hwf Hall.
  - by exists net.
  - apply Forall_cons in Hall as [Hfit Hall].
    destruct (gradient_step_returns net input target Hwf Hfit)
      as (mid & net1 & _ & _ & _ & Hstep & Hwf1 & _ & Hl1).
    destruct (IH net1 Hwf1) as (net' & Htrain & Hwf' & Hl').
    { eapply Forall_impl; [exact Hall|]. intros s. by apply sample_fits_lengths. }
    exists net'. split_and!; [|done|congruence].
    cbn [train_spec]. by rewrite bind_eq, Hstep.
Qed.

Lemma train_spec_snoc (front : list (list double * list double))
    (input target : list double) :
  ∀ net,
    train_spec (front ++ [(input, target)]) net =
    match train_spec front net with
    | (Ok _, net1) => gradient_step input target net1
    | (Throw e, net1) => (Throw e, net1)
    end.
Proof.
  induction front as [|[i t] front IH]; intros net.
  - cbn [app train_spec]. rewrite bind_eq. unfold mret, M_ret.
    by destruct (gradient_step input target net) as [[[]|e] s'].
  - cbn [app train_spec]. rewrite !bind_eq.
    destruct (gradient_step i t net) as [[[]|e] s']; [|done]. apply IH.
Qed.

(** *** The layout is never touched *)

Global Instance same_layout_preorder : PreOrder same_layout.
Proof.
  split.
  - intros net. by split.
  - intros n1 n2 n3 [? ?] [? ?]. split; etrans; eauto.
Qed.

Lemma with_layer_layout (l : nat) (f : Layer.t → result Layer.t) :
  preserves same_layout (Network.with_layer l f).
Proof.
  intros net. rewrite with_layer_eq.
  destruct (Network.m_layers net !! l) as [L|]; [|reflexivity].
  destruct (f L) as [L'|e]; [|reflexivity].
  split; [done|]. cbn. by rewrite length_insert.
Qed.

Lemma setInput_layout (input : list double) :
  preserves same_layout (Network.setInput input).
Proof.
  unfold Network.setInput.
  apply preserves_bind; [apply _|by apply preserves_modify|]. intros _.
  apply preserves_for; [apply _|]. intros i.
  apply preserves_bind; [apply _|apply preserves_lift, _|]. intros x.
  apply with_layer_layout.
Qed.

Lemma setTarget_layout (target : list double) :
  preserves same_layout (Network.setTarget target).
Proof.
  unfold Network.setTarget.
  apply preserves_bind; [apply _|apply preserves_gets, _|]. intros layers.
  destruct (decide _); [by apply preserves_modify|apply preserves_lift, _].
Qed.

Lemma feedForward_layout : preserves same_layout Network.feedForward.
Proof.
  unfold Network.feedForward.
  apply preserves_bind; [apply _|apply preserves_gets, _|]. intros layers.
  destruct (length layers) as [|n]; [apply preserves_lift, _|].
  apply preserves_for; [apply _|]. intros l.
  apply preserves_bind; [apply _| |]. { intros net. reflexivity. } intros current.
  apply preserves_bind; [apply _| |]. { intros net. reflexivity. } intros W.
  apply preserves_bind; [apply _|apply preserves_lift, _|]. intros nextLayerInputs.
  apply preserves_for; [apply _|]. intros j.
  apply preserves_bind; [apply _|apply preserves_lift, _|]. intros x.
  apply with_layer_layout.
Qed.

Lemma backPropagate_layout : preserves same_layout Network.backPropagate.
Proof.
  intros net. destruct (backPropagate_appends net) as (_ & Hn & Hl & _).
  split; [done|]. by rewrite Hl.
Qed.

Lemma update_layout : preserves same_layout Network.update.
Proof.
  intros net. pose proof (update_preserves_frame net) as Hf.
  pose proof (frame_lengths _ _ Hf) as Hl.
  apply (f_equal length) in Hl. rewrite !length_fmap in Hl.
  by destruct Hf as (_ & Hn & _).
Qed.

Lemma gradient_step_layout (input target : list double) :
  preserves same_layout (gradient_step input target).
Proof.
  unfold gradient_step.
  apply preserves_bind; [apply _|apply setInput_layout|]. intros _.
  apply preserves_bind; [apply _|apply setTarget_layout|]. intros _.
  apply preserves_bind; [apply _|apply feedForward_layout|]. intros _.
  apply preserves_bind; [apply _|by apply preserves_modify|]. intros _.
  apply preserves_bind; [apply _|apply backPropagate_layout|]. intros _.
  apply update_layout.
Qed.

Lemma printable_layout (net net' : Network.t) :
  same_layout net net' → printable net → printable net'.
Proof. unfold printable. intros [-> ->]. done. Qed.

Lemma wf_printable (net : Network.t) : wf net → printable net.
Proof. intros (Hnum & _). unfold printable. rewrite Hnum. lia. Qed.

(** [printToConsole] returns and changes nothing when its reads are in
    range. *)
Lemma printToConsole_eq (net : Network.t) :
  printable net → Network.printToConsole net = (Ok tt, net).
Proof.
  intros Hp.
  cut (returns Network.printToConsole net (λ _ s, s = net)).
  { by intros ([] & s & -> & ->). }
  unfold Network.printToConsole. apply returns_bind, returns_gets.
  eapply returns_weaken.
  - apply (returns_for (λ _ s, s = net)); [done|].
    intros i s Hi ->.
    destruct (vector_at_lt (Network.m_layers net) i) as (L & _ & Hat).
    { unfold printable in Hp. lia. }
    apply returns_bind. exists L, net. split.
    { by rewrite layer_at_eq, Hat. }
    by apply returns_ret.
  - done.
Qed.

(** One round of [train] is one gradient step of section 4.8. *)
Lemma train_sample_eq (net : Network.t) (input target : list double) :
  printable net →
  Network.train_sample (as_sample (input, target)) net
  = gradient_step input target net.
Proof.
  intros Hp. unfold Network.train_sample, gradient_step, as_sample.
  cbn [fst snd].
  rewrite bind_eq. unfold lift at 1. cbn [vector_at lookup list_lookup].
  pose proof (setInput_layout input net) as H1.
  rewrite !(bind_eq (Network.setInput input)).
  destruct (Network.setInput input net) as [[[]|e] s1]; [|done]. cbn [snd] in H1.
  rewrite bind_eq. unfold lift at 1. cbn [vector_at lookup list_lookup].
  pose proof (setTarget_layout target s1) as H2.
  rewrite !(bind_eq (Network.setTarget target)).
  destruct (Network.setTarget target s1) as [[[]|e] s2]; [|done]. cbn [snd] in H2.
  pose proof (feedForward_layout s2) as H3.
  rewrite !(bind_eq Network.feedForward).
  destruct (Network.feedForward s2) as [[[]|e] s3]; [|done]. cbn [snd] in H3.
  rewrite (bind_eq Network.printToConsole), printToConsole_eq; [done|].
  eapply printable_layout; [|exact Hp]. by repeat (etrans; [eassumption|]).
Qed.

(** [train] on samples given as (input, target) runs the gradient steps of
    section 4.8, one per sample, in order. *)
Lemma train_eq_spec (samples : list (list double * list double)) :
  ∀ net, printable net →
    Network.train (as_sample <$> samples) net = train_spec samples net.
Proof.
  induction samples as [|[input target] samples IH]; intros net Hp; [done|].
  cbn [fmap list_fmap Network.train train_spec]. rewrite !bind_eq.
  rewrite train_sample_eq by done.
  pose proof (gradient_step_layout input target net) as Hl.
  destruct (gradient_step input target net) as [[[]|e] s']; [|done].
  apply IH. by apply (printable_layout net).
Qed.

End train_facts.


(** * The claims *)

Section claim_lemmas.
Context `{Externals}.

Lemma feedForward_wf (net0 net : Network.t) :
  wf net0 → Network.feedForward net0 = (Ok tt, net) → wf net.
Proof.
  intros Hwf. rewrite feedForward_eq by done. intros [= <-].
  apply wf_set_layers; [done|]. apply fed_layers_lengths.
Qed.

(** The error of a hidden layer, in the collaborator's operations. *)
Lemma hidden_error_ops (W : linalg.Matrix) (L : Layer.t) (next : list double) :
  length next = linalg.rows W → length L = linalg.cols W →
  ∃ bp, linalg.mulVec (linalg.transpose W) next = Ok bp ∧
        linalg.hadamardProduct bp (Layer.getDerivatives L) = Ok (hidden_error W L next).
Proof.
  intros Hnext HL. exists (mulVec_rows (linalg.transpose W) next). split.
  - by apply mulVec_eq.
  - unfold linalg.hadamardProduct. rewrite decide_True; [done|].
    unfold mulVec_rows, Layer.getDerivatives.
    by rewrite !length_fmap, transpose_rows_length.
Qed.

Lemma output_error_ops (back : Layer.t) (target : list double) :
  length target = length back →
  linalg.hadamardProduct (zip_with dsub (Layer.getActivations back) target)
    (Layer.getDerivatives back) = Ok (output_error back target).
Proof.
  intros Ht. unfold linalg.hadamardProduct. rewrite decide_True; [done|].
  unfold Layer.getActivations, Layer.getDerivatives.
  rewrite length_zip_with, !length_fmap. lia.
Qed.

(** The output error, neuron by neuron. *)
Lemma output_error_lookup (back : Layer.t) (target : list double) (i : nat)
    (n : Neuron.t) (t : double) :
  back !! i = Some n → target !! i = Some t →
  output_error back target !! i
    = Some (dmul (dsub (Neuron.m_activation n) t) (Neuron.m_derivative n)).
Proof.
  intros Hn Ht. unfold output_error, cost_gradient.
  apply lookup_zip_with_Some.
  exists (dsub (Neuron.m_activation n) t), (Neuron.m_derivative n).
  split_and!; [done| |].
  - apply lookup_zip_with_Some. exists (Neuron.m_activation n), t.
    split_and!; [done| |done].
    unfold Layer.getActivations. by rewrite list_lookup_fmap, Hn.
  - unfold Layer.getDerivatives. by rewrite list_lookup_fmap, Hn.
Qed.

(** The vectors of the produced list that belong to hidden layers. *)
Lemma produced_errors_hidden (net : Network.t) (back : Layer.t) (l : nat) :
  wf net →
  last (Network.m_layers net) = Some back →
  length (Network.m_targetOutput net) = length back →
  1 ≤ l → S l < length (Network.m_layers net) →
  ∃ W L next bp e,
    Network.m_weightMatrices net !! l = Some W ∧
    Network.m_layers net !! l = Some L ∧
    produced_errors net !! (length (Network.m_layers net) - 2 - l) = Some next ∧
    produced_errors net !! (length (Network.m_layers net) - 1 - l) = Some e ∧
    linalg.mulVec (linalg.transpose W) next = Ok bp ∧
    linalg.hadamardProduct bp (Layer.getDerivatives L) = Ok e ∧
    length e = length L.
Proof.
  intros Hwf Hback Htarget Hl1 Hl2.
  pose proof Hwf as (_ & Hlen & _).
  destruct (wf_round net l Hwf ltac:(lia))
    as (W & L & Ln & HW & HL & HLn & Hok & HlenL & HlenLn).
  destruct (produced_errors_fit net back l Ln Hwf Hback Htarget HLn)
    as (next & Hnext & Hlennext).
  rewrite (produced_errors_length net Hwf) in Hnext.
  replace (Nat.max 1 (length (Network.m_layers net) - 1) - 1 - l)
    with (length (Network.m_layers net) - 2 - l) in Hnext by lia.
  set (i := length (Network.m_layers net) - 2).
  destruct (hidden_errors_lookup net i Hwf ltac:(lia)
              (output_error back (Network.m_targetOutput net)) (i - l) ltac:(lia))
    as (W' & L' & prev & HW' & HL' & Hprev & Hcur).
  replace (i - (i - l)) with l in HW', HL' by lia. simplify_eq.
  assert (produced_errors net
          = output_error back (Network.m_targetOutput net)
              :: hidden_errors i (Network.m_weightMatrices net) (Network.m_layers net)
                   (output_error back (Network.m_targetOutput net))) as Hprod.
  { unfold produced_errors. by rewrite Hback. }
  rewrite <-Hprod in Hprev, Hcur. fold i in Hnext. rewrite Hnext in Hprev.
  simplify_eq.
  destruct (hidden_error_ops W L prev) as (bp & Hbp & Hhad); [lia|done|].
  exists W, L, prev, bp, (hidden_error W L prev). split_and!; [done..| | | |].
  - replace (length (Network.m_layers net) - 1 - l) with (S (i - l)) by lia. done.
  - done.
  - done.
  - by apply hidden_error_length.
Qed.

End claim_lemmas.

(** C1. Let feedForward have run and the target stored have the length of
    the output layer. Then backPropagate returns; it has appended to the
    error list the vectors [produced], and changed nothing else. Element 0
    of [produced], which is element 0 of the error list when the list was
    empty before, is the Hadamard product of the cost gradient
    (activation[i] - target[i] for each output neuron i) with the output
    layer's derivatives: its entry i is
    (activation[i] - target[i]) * derivative[i]. For every hidden layer l, from the second-to-last
    down to layer 1, the vector appended for it (at position
    numLayers - 1 - l, right after the one of layer l + 1) has the length of
    the layer and is (transpose(WeightMatrix[l]) * error of layer l + 1)
    Hadamard (derivatives of layer l). There is no vector for layer 0:
    with two layers or more, numLayers - 1 vectors are appended. *)
Theorem C1_backPropagate_errors `{Externals} (net0 net : Network.t) (back : Layer.t) :
  wf net0 →
  Network.feedForward net0 = (Ok tt, net) →
  last (Network.m_layers net) = Some back →
  length (Network.m_targetOutput net) = length back →
  ∃ (produced : list (list double)) (outputError : list double),
    Network.backPropagate net
      = (Ok tt, Network.set_errors (Network.m_errors net ++ produced) net) ∧
    produced !! 0 = Some outputError ∧
    (Network.m_errors net = [] →
     (Network.m_errors net ++ produced) !! 0 = Some outputError) ∧
    linalg.hadamardProduct
      (zip_with dsub (Layer.getActivations back) (Network.m_targetOutput net))
      (Layer.getDerivatives back) = Ok outputError ∧
    (∀ i n t, back !! i = Some n → Network.m_targetOutput net !! i = Some t →
       outputError !! i
         = Some (dmul (dsub (Neuron.getActivation n) t) (Neuron.getDerivative n))) ∧
    length produced = Nat.max 1 (length (Network.m_layers net) - 1) ∧
    ∀ l, 1 ≤ l → S l < length (Network.m_layers net) →
      ∃ W L next bp e,
        Network.m_weightMatrices net !! l = Some W ∧
        Network.m_layers net !! l = Some L ∧
        produced !! (length (Network.m_layers net) - 2 - l) = Some next ∧
        produced !! (length (Network.m_layers net) - 1 - l) = Some e ∧
        linalg.mulVec (linalg.transpose W) next = Ok bp ∧
        linalg.hadamardProduct bp (Layer.getDerivatives L) = Ok e ∧
        length e = length L.
Proof.
  intros Hwf0 Hff Hback Htarget.
  pose proof (feedForward_wf net0 net Hwf0 Hff) as Hwf.
  exists (produced_errors net), (output_error back (Network.m_targetOutput net)).
  split_and!.
  - by apply (backPropagate_eq net back).
  - unfold produced_errors. by rewrite Hback.
  - intros ->. unfold produced_errors. by rewrite Hback.
  - by apply output_error_ops.
  - intros i n t Hn Ht. by apply output_error_lookup.
  - by apply produced_errors_length.
  - intros l Hl1 Hl2. by apply (produced_errors_hidden net back l).
Qed.

Lemma C1_backPropagate_errors_witness :
  wf Zmodel.loaded_2_3_1 ∧
  @Network.feedForward Zmodel.Z_double Zmodel.Z_externals Zmodel.loaded_2_3_1
    = (Ok tt, Zmodel.fed_2_3_1) ∧
  ∃ back,
    last (Network.m_layers Zmodel.fed_2_3_1) = Some back ∧
    length (Network.m_targetOutput Zmodel.fed_2_3_1) = length back ∧
    ∃ produced,
      @Network.backPropagate Zmodel.Z_double Zmodel.fed_2_3_1
        = (Ok tt, Network.set_errors produced Zmodel.fed_2_3_1) ∧
      produced = [[649]; [6490; 7139; 7788]]%Z.
Proof.
  assert (wf Zmodel.loaded_2_3_1) as Hwf by wf_by_computation.
  assert (@Network.feedForward Zmodel.Z_double Zmodel.Z_externals Zmodel.loaded_2_3_1
          = (Ok tt, Zmodel.fed_2_3_1)) as Hff by (vm_compute; reflexivity).
  split; [exact Hwf|]. split; [exact Hff|].
  eexists. split; [vm_compute; reflexivity|]. split; [vm_compute; reflexivity|].
  destruct (@C1_backPropagate_errors Zmodel.Z_double Zmodel.Z_externals
              Zmodel.loaded_2_3_1 Zmodel.fed_2_3_1 _ Hwf Hff eq_refl eq_refl)
    as (produced & outputError & Hbp & _).
  exists produced. split; [exact Hbp|].
  vm_compute in Hbp. by injection Hbp as <-.
Defined.

Section update_lemmas.
Context `{Externals}.

(** The delta rule, entry by entry. *)
Lemma update_delta (net : Network.t) :
  wf net →
  errors_fit net →
  length (Network.m_errors net) = length (Network.m_weightMatrices net) →
  ∃ net',
    Network.update net = (Ok tt, net') ∧
    (∀ l L Lnext j i,
       Network.m_layers net !! l = Some L →
       Network.m_layers net !! S l = Some Lnext →
       j < length Lnext → i < length L →
       ∃ w a errorVector e,
         weight net l j i = Some w ∧
         activation net l i = Some a ∧
         Network.m_errors net !! (length (Network.m_weightMatrices net) - 1 - l)
           = Some errorVector ∧
         errorVector !! j = Some e ∧
         weight net' l j i = Some (dsub w (dmul (dmul m_LEARNINGRATE a) e))) ∧
    (∀ l Lnext j,
       Network.m_layers net !! S l = Some Lnext →
       j < length Lnext →
       ∃ b errorVector e,
         bias net (S l) j = Some b ∧
         Network.m_errors net !! (length (Network.m_weightMatrices net) - 1 - l)
           = Some errorVector ∧
         errorVector !! j = Some e ∧
         bias net' (S l) j = Some (dsub b (dmul m_LEARNINGRATE e))).
Proof.
  intros Hwf Hfit Hlen.
  destruct (update_returns net Hwf Hfit) as ([] & net' & Hup & _ & HW & HB).
  exists net'. split; [exact Hup|].
  pose proof Hwf as (_ & Hlayers & _).
  split.
  - intros l L Ln j i HL HLn Hj Hi.
    assert (l < length (Network.m_weightMatrices net)) as Hl.
    { apply lookup_lt_Some in HLn. lia. }
    destruct (proj2 (weight_is_Some net l j i L Ln Hwf Hl HL HLn)) as [w Hw]; [done|].
    destruct (activation_is_Some net l i L HL Hi) as [a Ha].
    destruct (errors_fit_error_rev net l j Ln Hfit Hl HLn Hj) as [e He].
    pose proof He as (_ & v & Hv & Hvj)%error_rev_Some.
    rewrite Hlen in Hv.
    exists w, a, v, e. split_and!; [done..|].
    rewrite (HW _ _ _ _ Hw), decide_True by lia.
    unfold new_weight. by rewrite Hw, Ha, He.
  - intros l Ln j HLn Hj.
    assert (l < length (Network.m_weightMatrices net)) as Hl.
    { apply lookup_lt_Some in HLn. lia. }
    destruct (proj2 (bias_is_Some net (S l) j Ln HLn) Hj) as [b Hb].
    destruct (errors_fit_error_rev net l j Ln Hfit Hl HLn Hj) as [e He].
    pose proof He as (_ & v & Hv & Hvj)%error_rev_Some.
    rewrite Hlen in Hv.
    exists b, v, e. split_and!; [done..|].
    rewrite (HB _ _ _ Hb), decide_True by lia.
    unfold new_bias. by rewrite Hb, He.
Qed.


End update_lemmas.

(** C2. On a well-formed network whose error list holds one vector per
    weight matrix, each as long as the layer it belongs to, update returns
    and, for every weight-matrix index l and every entry (j, i) of
    WeightMatrix[l], the new weight is
    oldWeight - learningRate * activation of neuron i in layer l * error
    of neuron j in layer l + 1; for every neuron j of layer l + 1 the new
    bias is oldBias - learningRate * error of neuron j in layer l + 1. The
    error vector of layer l + 1 is the one at index
    numWeightMatrices - 1 - l of the error list. *)
Theorem C2_update_delta_rule `{Externals} (net : Network.t) :
  wf net →
  errors_fit net →
  length (Network.m_errors net) = length (Network.m_weightMatrices net) →
  ∃ net',
    Network.update net = (Ok tt, net') ∧
    (∀ l L Lnext j i,
       Network.m_layers net !! l = Some L →
       Network.m_layers net !! S l = Some Lnext →
       j < length Lnext → i < length L →
       ∃ w a errorVector e,
         weight net l j i = Some w ∧
         activation net l i = Some a ∧
         Network.m_errors net !! (length (Network.m_weightMatrices net) - 1 - l)
           = Some errorVector ∧
         errorVector !! j = Some e ∧
         weight net' l j i = Some (dsub w (dmul (dmul m_LEARNINGRATE a) e))) ∧
    (∀ l Lnext j,
       Network.m_layers net !! S l = Some Lnext →
       j < length Lnext →
       ∃ b errorVector e,
         bias net (S l) j = Some b ∧
         Network.m_errors net !! (length (Network.m_weightMatrices net) - 1 - l)
           = Some errorVector ∧
         errorVector !! j = Some e ∧
         bias net' (S l) j = Some (dsub b (dmul m_LEARNINGRATE e))).
Proof. apply update_delta. Qed.

Lemma C2_update_delta_rule_witness :
  wf Zmodel.backpropagated_2_3_1 ∧
  errors_fit Zmodel.backpropagated_2_3_1 ∧
  length (Network.m_errors Zmodel.backpropagated_2_3_1)
    = length (Network.m_weightMatrices Zmodel.backpropagated_2_3_1) ∧
  ∃ net',
    @Network.update Zmodel.Z_double Zmodel.Z_externals Zmodel.backpropagated_2_3_1
      = (Ok tt, net') ∧
    weight net' 1 0 2 = Some (12 - 1 * 26 * 649)%Z ∧
    bias net' 1 2 = Some (9 - 1 * 7788)%Z.
Proof.
  assert (wf Zmodel.backpropagated_2_3_1) as Hwf by wf_by_computation.
  assert (errors_fit Zmodel.backpropagated_2_3_1) as Hfit by errors_fit_by_computation.
  split; [exact Hwf|]. split; [exact Hfit|]. split; [vm_compute; reflexivity|].
  destruct (@C2_update_delta_rule Zmodel.Z_double Zmodel.Z_externals
              Zmodel.backpropagated_2_3_1 Hwf Hfit eq_refl)
    as (net' & Hup & _).
  exists net'. split; [exact Hup|].
  vm_compute in Hup. injection Hup as <-. split; vm_compute; reflexivity.
Defined.

Section constructor_lemmas.
Context `{Externals}.

Lemma draws_mono (sizes : list Z) (l l' : nat) :
  l ≤ l' → draws sizes l ≤ draws sizes l'.
Proof.
  induction 1 as [|l' _ IH]; [done|]. cbn [draws]. lia.
Qed.

Lemma built_bias (sizes : list Z) (k l j : nat) :
  S l < length sizes → j < size_at sizes (S l) →
  bias (built sizes k) (S l) j = Some (randomDouble (bias_draw sizes k l j)).
Proof.
  intros Hl Hj. unfold bias, neuron.
  rewrite built_layers_lookup by done. cbn [mbind option_bind built_layer].
  rewrite decide_True by lia.
  by rewrite list_lookup_fmap, lookup_seq_lt.
Qed.

Lemma bias_draw_range (sizes : list Z) (k l j : nat) :
  S l < length sizes → j < size_at sizes (S l) →
  k ≤ bias_draw sizes k l j < k + draws sizes (length sizes - 1).
Proof.
  intros Hl Hj. unfold bias_draw.
  pose proof (draws_mono sizes (S l) (length sizes - 1) ltac:(lia)) as Hmono.
  cbn [draws] in Hmono. lia.
Qed.

Lemma size_at_Some (sizes : list Z) (t : nat) (n : Z) :
  sizes !! t = Some n → size_at sizes t = Z.to_nat n.
Proof. intros Hn. unfold size_at. by rewrite Hn. Qed.

End constructor_lemmas.

(** C4. For layer sizes [n0, n1, ..., nk] with at least two entries, each
    at least 1, the constructor returns a network with k + 1 layers, layer
    l having n_l neurons, and k weight matrices, matrix l having n_(l+1)
    rows and n_l columns. Every neuron of every layer after the input
    layer has as bias a random number drawn during this construction
    (call [bias_draw] of the generator). The input layer is as Layer(n0)
    built it: the biases of its neurons are the initial 0. *)
Theorem C4_constructor_topology `{Externals} (sizes : list Z) (k : nat) :
  2 ≤ length sizes →
  Forall (λ n, 1 ≤ n)%Z sizes →
  ∃ net k',
    Network.construct sizes k = (Ok net, k') ∧
    length (Network.m_layers net) = length sizes ∧
    length (Network.m_weightMatrices net) = length sizes - 1 ∧
    (∀ l n, sizes !! l = Some n →
       ∃ L, Network.m_layers net !! l = Some L ∧ Z.of_nat (length L) = n) ∧
    (∀ l n_next n_this, sizes !! S l = Some n_next → sizes !! l = Some n_this →
       ∃ W, Network.m_weightMatrices net !! l = Some W ∧
            matrix_ok W ∧
            Z.of_nat (linalg.rows W) = n_next ∧
            Z.of_nat (linalg.cols W) = n_this) ∧
    (∀ l n j, sizes !! S l = Some n → (Z.of_nat j < n)%Z →
       bias net (S l) j = Some (randomDouble (bias_draw sizes k l j)) ∧
       k ≤ bias_draw sizes k l j < k') ∧
    (∀ n0, sizes !! 0 = Some n0 →
       Network.m_layers net !! 0 = Some (Layer.new n0) ∧
       ∀ j, (Z.of_nat j < n0)%Z → bias net 0 j = Some dzero).
Proof.
  intros Hlen Hpos.
  exists (built sizes k), (k + draws sizes (length sizes - 1)).
  split; [apply construct_eq|].
  split; [unfold built; cbn; by rewrite length_fmap, length_seq|].
  split; [unfold built; cbn; by rewrite length_fmap, length_seq|].
  split_and!.
  - intros l n Hn. pose proof (lookup_lt_Some _ _ _ Hn) as Hl.
    eexists. split; [by apply built_layers_lookup|].
    rewrite built_layer_length, (size_at_Some _ _ _ Hn).
    pose proof (Forall_lookup_1 _ _ _ _ Hpos Hn). simpl in *. lia.
  - intros l r c Hr Hc. pose proof (lookup_lt_Some _ _ _ Hr) as Hl.
    eexists. split; [by apply built_matrices_lookup|].
    split; [apply random_ok|].
    unfold built_matrix, linalg.random. cbn [linalg.rows linalg.cols].
    rewrite Hr, Hc. cbn [default].
    pose proof (Forall_lookup_1 _ _ _ _ Hpos Hr).
    pose proof (Forall_lookup_1 _ _ _ _ Hpos Hc). simpl in *. lia.
  - intros l n j Hn Hj. pose proof (lookup_lt_Some _ _ _ Hn) as Hl.
    assert (j < size_at sizes (S l)) by (rewrite (size_at_Some _ _ _ Hn); lia).
    split; [by apply built_bias|by apply bias_draw_range].
  - intros n0 Hn0. pose proof (lookup_lt_Some _ _ _ Hn0) as Hl.
    assert (Network.m_layers (built sizes k) !! 0 = Some (Layer.new n0)) as HL0.
    { rewrite built_layers_lookup by done. cbn [built_layer]. by rewrite Hn0. }
    split; [exact HL0|].
    intros j Hj. unfold bias, neuron. rewrite HL0. cbn [mbind option_bind].
    unfold Layer.new. rewrite lookup_replicate_2 by lia. done.
Qed.

Lemma C4_constructor_topology_witness :
  2 ≤ length [2; 3; 1]%Z ∧
  Forall (λ n, 1 ≤ n)%Z [2; 3; 1]%Z ∧
  ∃ net,
    @Network.construct Zmodel.Z_double Zmodel.Z_externals [2; 3; 1]%Z 0
      = (Ok net, 13) ∧
    length (Network.m_layers net) = 3 ∧
    length (Network.m_weightMatrices net) = 2 ∧
    bias net 1 0 = Some 7%Z ∧
    bias net 0 1 = Some 0%Z.
Proof.
  assert (2 ≤ length [2; 3; 1]%Z) as Hlen by (simpl; lia).
  assert (Forall (λ n, 1 ≤ n)%Z [2; 3; 1]%Z) as Hpos
    by (repeat constructor; lia).
  split; [exact Hlen|]. split; [exact Hpos|].
  destruct (@C4_constructor_topology Zmodel.Z_double Zmodel.Z_externals
              [2; 3; 1]%Z 0 Hlen Hpos)
    as (net & k' & Hc & _).
  exists net. vm_compute in Hc. injection Hc as <- <-.
  split_and!; vm_compute; reflexivity.
Defined.

Section setInput_lemmas.
Context `{Externals}.

Lemma set_inputs_lookup_ge (xs : list double) :
  ∀ (L : Layer.t) (i : nat), length xs ≤ i → set_inputs xs L !! i = L !! i.
Proof.
  induction xs as [|x xs IH]; intros [|n L] i Hi; try done.
  destruct i as [|i]; simpl in *; [lia|]. apply IH. lia.
Qed.

(** [setInputAt] never writes a bias. *)
Lemma set_inputs_biases (xs : list double) :
  ∀ L : Layer.t, biases_of (set_inputs xs L) = biases_of L.
Proof.
  induction xs as [|x xs IH]; intros [|n L]; try done.
  cbn [set_inputs]. unfold biases_of in *. rewrite !fmap_cons, IH. done.
Qed.

(** When [setInput] leaves the network as it found it. *)
Lemma setInput_keeps_iff (net : Network.t) (L0 : Layer.t) (rest : list Layer.t)
    (input : list double) :
  Network.m_layers net = L0 :: rest →
  (Network.setInput input net).2 = net ↔
    Network.m_input net = input ∧ set_inputs input L0 = L0.
Proof.
  intros Hnet. rewrite (setInput_eq input L0 rest net Hnet). cbn [snd]. split.
  - intros Heq.
    pose proof (f_equal Network.m_input Heq) as Hin.
    pose proof (f_equal Network.m_layers Heq) as Hl.
    cbn in Hin, Hl. rewrite Hnet in Hl. injection Hl as Hl. done.
  - intros [Hin Hset]. rewrite Hset. destruct net. cbn in *. by subst.
Qed.

End setInput_lemmas.

(** C6 as stated fails: on the network built from sizes {2, 3, 1} a vector
    of length 1 is accepted, setInput returns normally and the network has
    changed; a vector of length 3 makes it throw out_of_range, not a
    dimension mismatch, and the network has changed too. *)
Lemma C6_setInput_wrong_length_counterexample :
  (length [7]%Z ≠ 2 ∧
   (@Network.setInput Zmodel.Z_double Zmodel.Z_externals [7]%Z Zmodel.net_2_3_1).1
     = Ok tt ∧
   (@Network.setInput Zmodel.Z_double Zmodel.Z_externals [7]%Z Zmodel.net_2_3_1).2
     ≠ Zmodel.net_2_3_1) ∧
  (length [7; 8; 9]%Z ≠ 2 ∧
   (@Network.setInput Zmodel.Z_double Zmodel.Z_externals [7; 8; 9]%Z Zmodel.net_2_3_1).1
     = Throw out_of_range ∧
   (@Network.setInput Zmodel.Z_double Zmodel.Z_externals [7; 8; 9]%Z Zmodel.net_2_3_1).2
     ≠ Zmodel.net_2_3_1).
Proof.
  split; (split; [simpl; lia|]); (split; [vm_compute; reflexivity|]);
    vm_compute; discriminate.
Qed.

(** C6, amended. For an input vector whose length differs from the size
    of layer 0, setInput reports no dimension mismatch and need not leave
    the prior state unchanged: it stores the vector as m_input and gives
    the first neurons of layer 0, as far as both the vector and the layer
    go, the entries of the vector as inputs (activation and derivative
    recomputed); the other neurons of layer 0, the other layers, the
    biases, the weights and everything else stay as they were. The
    network is as before exactly when m_input already was this vector and
    those first neurons already were as setInputAt leaves them. With a
    shorter vector it then returns normally; with a longer one it throws
    out_of_range, after all neurons of layer 0 were given their
    entries. *)
Theorem C6_setInput_wrong_length `{Externals} (net : Network.t) (L0 : Layer.t)
    (rest : list Layer.t) (input : list double) :
  Network.m_layers net = L0 :: rest →
  length input ≠ length L0 →
  Network.setInput input net =
    (if decide (length input < length L0) then Ok tt else Throw out_of_range,
     Network.set_layers (set_inputs input L0 :: rest) (Network.set_input input net)) ∧
  (∀ i x n, input !! i = Some x → L0 !! i = Some n →
     set_inputs input L0 !! i
       = Some (Neuron.derive (Neuron.activate (Neuron.setInput x n)))) ∧
  (∀ i, length input ≤ i → set_inputs input L0 !! i = L0 !! i) ∧
  (Network.m_input (Network.setInput input net).2 = input ∧
   Network.m_layers (Network.setInput input net).2 = set_inputs input L0 :: rest ∧
   length (set_inputs input L0) = length L0 ∧
   biases_of (set_inputs input L0) = biases_of L0 ∧
   Network.m_weightMatrices (Network.setInput input net).2
     = Network.m_weightMatrices net ∧
   Network.m_targetOutput (Network.setInput input net).2
     = Network.m_targetOutput net ∧
   Network.m_errors (Network.setInput input net).2 = Network.m_errors net ∧
   Network.m_layerSizes (Network.setInput input net).2 = Network.m_layerSizes net ∧
   Network.m_numLayers (Network.setInput input net).2 = Network.m_numLayers net) ∧
  ((Network.setInput input net).2 = net ↔
     Network.m_input net = input ∧ set_inputs input L0 = L0).
Proof.
  intros Hnet Hlen. split; [|split; [|split; [|split]]].
  - rewrite (setInput_eq input L0 rest net Hnet).
    destruct (decide (length input ≤ length L0)),
             (decide (length input < length L0)); try done; lia.
  - intros i x n Hx Hn. by apply set_inputs_lookup.
  - intros i Hi. by apply set_inputs_lookup_ge.
  - rewrite (setInput_eq input L0 rest net Hnet). cbn [snd].
    split_and!; try done.
    + apply set_inputs_length.
    + apply set_inputs_biases.
  - by apply (setInput_keeps_iff net L0 rest).
Qed.

Lemma C6_setInput_wrong_length_witness :
  ∃ (L0 : list (@Neuron.t Zmodel.Z_double)) rest,
    Network.m_layers Zmodel.net_2_3_1 = L0 :: rest ∧
    length [7]%Z ≠ length L0 ∧
    @Network.setInput Zmodel.Z_double Zmodel.Z_externals [7]%Z Zmodel.net_2_3_1
      = (Ok tt,
         Network.set_layers (@set_inputs Zmodel.Z_double Zmodel.Z_externals [7]%Z L0 :: rest)
           (@Network.set_input Zmodel.Z_double [7]%Z Zmodel.net_2_3_1)) ∧
    length (@nil Z) ≠ length L0 ∧
    (@Network.setInput Zmodel.Z_double Zmodel.Z_externals [] Zmodel.net_2_3_1).2
      = Zmodel.net_2_3_1.
Proof.
  eexists _, _. split; [vm_compute; reflexivity|].
  split; [vm_compute; lia|].
  split.
  - refine (proj1 (@C6_setInput_wrong_length Zmodel.Z_double Zmodel.Z_externals
                     Zmodel.net_2_3_1 _ _ [7]%Z eq_refl _)).
    vm_compute. lia.
  - assert (length (@nil Z) ≠ 2) as Hlen by (simpl; lia).
    split; [exact Hlen|].
    destruct (@C6_setInput_wrong_length Zmodel.Z_double Zmodel.Z_externals
                Zmodel.net_2_3_1 _ _ [] eq_refl Hlen) as (_ & _ & _ & _ & Hkeep).
    apply Hkeep. split; reflexivity.
Defined.

(** C7 as stated fails: a single layer size is accepted and gives a
    network of one layer and no weight matrix; a zero-size layer is
    accepted too. *)
Lemma C7_constructor_fails_fast_counterexample :
  (length [3]%Z < 2 ∧
   ∃ net, (@Network.construct Zmodel.Z_double Zmodel.Z_externals [3]%Z 0).1 = Ok net
          ∧ length (Network.m_layers net) = 1
          ∧ Network.m_weightMatrices net = []) ∧
  (0%Z ∈ [2; 0; 1]%Z ∧
   ∃ net, (@Network.construct Zmodel.Z_double Zmodel.Z_externals [2; 0; 1]%Z 0).1 = Ok net
          ∧ Network.m_layers net !! 1 = Some []).
Proof.
  split.
  - split; [simpl; lia|]. eexists. split; [vm_compute; reflexivity|]. done.
  - split; [repeat constructor|]. eexists. split; [vm_compute; reflexivity|]. done.
Qed.

(** C7, amended. For every non-empty sequence of layer sizes none of
    which is negative, also one with a single entry or with a zero-size
    layer, construction does not fail: it returns a network with one layer
    per entry, a layer of size 0 having no neuron, and one weight matrix
    per pair of adjacent layers, none when there is a single entry. (For
    the empty sequence the bound m_numLayers - 1 of the second loop
    depends on the declared type of m_numLayers, which is not under src;
    the statement leaves that case out.) *)
Theorem C7_constructor_never_fails `{Externals} (sizes : list Z) (k : nat) :
  sizes ≠ [] →
  Forall (λ n, 0 ≤ n)%Z sizes →
  ∃ net k',
    Network.construct sizes k = (Ok net, k') ∧
    length (Network.m_layers net) = length sizes ∧
    length (Network.m_weightMatrices net) = length sizes - 1 ∧
    ∀ l n, sizes !! l = Some n →
      ∃ L, Network.m_layers net !! l = Some L ∧ Z.of_nat (length L) = n.
Proof.
  intros _ Hnonneg.
  exists (built sizes k), (k + draws sizes (length sizes - 1)).
  split; [apply construct_eq|].
  split; [unfold built; cbn; by rewrite length_fmap, length_seq|].
  split; [unfold built; cbn; by rewrite length_fmap, length_seq|].
  intros l n Hn. pose proof (lookup_lt_Some _ _ _ Hn) as Hl.
  eexists. split; [by apply built_layers_lookup|].
  rewrite built_layer_length, (size_at_Some _ _ _ Hn).
  pose proof (Forall_lookup_1 _ _ _ _ Hnonneg Hn). simpl in *. lia.
Qed.

Lemma C7_constructor_never_fails_witness :
  [2; 0; 1]%Z ≠ [] ∧
  Forall (λ n, 0 ≤ n)%Z [2; 0; 1]%Z ∧
  ∃ net k',
    @Network.construct Zmodel.Z_double Zmodel.Z_externals [2; 0; 1]%Z 0 = (Ok net, k') ∧
    length (Network.m_layers net) = 3 ∧
    length (Network.m_weightMatrices net) = 2.
Proof.
  assert ([2; 0; 1]%Z ≠ []) as Hne by discriminate.
  assert (Forall (λ n, 0 ≤ n)%Z [2; 0; 1]%Z) as Hnonneg
    by (repeat constructor; lia).
  split; [exact Hne|]. split; [exact Hnonneg|].
  destruct (@C7_constructor_never_fails Zmodel.Z_double Zmodel.Z_externals
              [2; 0; 1]%Z 0 Hne Hnonneg)
    as (net & k' & Hc & Hl & Hw & _).
  exists net, k'. split; [exact Hc|]. split; [exact Hl|exact Hw].
Defined.

(** C9. However update ends, by return or by exception, it has changed
    nothing but weight-matrix entries and biases of layers 1 to
    numLayers - 1: the input, the activation and the derivative of every
    neuron of every layer and the biases of the input layer are as before
    the call, and so are the layer sizes, the layer count, the stored
    input, target and error list, the number of neurons per layer and the
    shapes of the weight matrices. *)
Theorem C9_update_frame `{Externals} (net : Network.t) :
  let net' := (Network.update net).2 in
  (∀ l j,
     Neuron.m_input <$> neuron net' l j = Neuron.m_input <$> neuron net l j ∧
     Neuron.m_activation <$> neuron net' l j = Neuron.m_activation <$> neuron net l j ∧
     Neuron.m_derivative <$> neuron net' l j = Neuron.m_derivative <$> neuron net l j) ∧
  (∀ j, bias net' 0 j = bias net 0 j) ∧
  Network.m_layerSizes net' = Network.m_layerSizes net ∧
  Network.m_numLayers net' = Network.m_numLayers net ∧
  Network.m_input net' = Network.m_input net ∧
  Network.m_targetOutput net' = Network.m_targetOutput net ∧
  Network.m_errors net' = Network.m_errors net ∧
  length <$> Network.m_layers net' = length <$> Network.m_layers net ∧
  matrix_shape <$> Network.m_weightMatrices net'
    = matrix_shape <$> Network.m_weightMatrices net.
Proof.
  intros net'. pose proof (update_preserves_frame net) as Hf. fold net' in Hf.
  pose proof (frame_lengths _ _ Hf) as Hlen.
  pose proof Hf as (?&?&?&?&?&?&Hzero&?).
  split_and!; try done.
  - intros l j. pose proof (frame_strip net net' l j Hf) as Hs.
    destruct (neuron net' l j) as [n'|], (neuron net l j) as [n|];
      simpl in *; simplify_eq; [|done].
    split_and!; congruence.
  - intros j. unfold bias, neuron. by rewrite Hzero.
Qed.

Section two_layer_lemmas.
Context `{Externals}.

Lemma feedForward_returns (net : Network.t) :
  wf net →
  ∃ fed,
    Network.feedForward net = (Ok tt, fed) ∧ wf fed ∧
    length <$> Network.m_layers fed = length <$> Network.m_layers net ∧
    Network.m_weightMatrices fed = Network.m_weightMatrices net ∧
    Network.m_targetOutput fed = Network.m_targetOutput net.
Proof.
  intros Hwf. eexists. split; [by apply feedForward_eq|].
  split_and!; [|apply fed_layers_lengths|done|done].
  apply wf_set_layers; [done|]. apply fed_layers_lengths.
Qed.

End two_layer_lemmas.

(** C8. On a well-formed network of two layers, [n0, n1], with a target
    of the output layer's length, one forward, backward and update step
    runs to the end: feedForward returns; backPropagate, started on the
    cleared error list, returns and leaves exactly one error vector, the
    output-layer error (cost gradient Hadamard output derivatives), its
    loop over hidden layers making no round; update returns and applies
    the delta rule with that vector to every entry of the single weight
    matrix and to the bias of every output neuron. *)
Theorem C8_two_layer_step `{Externals} (net : Network.t) (L0 L1 : Layer.t) :
  wf net →
  Network.m_layers net = [L0; L1] →
  length (Network.m_targetOutput net) = length L1 →
  ∃ fed back outputError backpropagated updated,
    Network.feedForward net = (Ok tt, fed) ∧
    last (Network.m_layers fed) = Some back ∧
    Z.to_nat (Network.m_numLayers fed - 2) = 0 ∧
    Network.backPropagate (Network.set_errors [] fed) = (Ok tt, backpropagated) ∧
    Network.m_errors backpropagated = [outputError] ∧
    linalg.hadamardProduct
      (zip_with dsub (Layer.getActivations back) (Network.m_targetOutput fed))
      (Layer.getDerivatives back) = Ok outputError ∧
    Network.update backpropagated = (Ok tt, updated) ∧
    (∀ j i, j < length L1 → i < length L0 →
       ∃ w a e,
         weight backpropagated 0 j i = Some w ∧
         activation backpropagated 0 i = Some a ∧
         outputError !! j = Some e ∧
         weight updated 0 j i = Some (dsub w (dmul (dmul m_LEARNINGRATE a) e))) ∧
    (∀ j, j < length L1 →
       ∃ b e,
         bias backpropagated 1 j = Some b ∧
         outputError !! j = Some e ∧
         bias updated 1 j = Some (dsub b (dmul m_LEARNINGRATE e))).
Proof.
  intros Hwf Hlayers Htarget.
  destruct (feedForward_returns net Hwf) as (fed & Hff & Hwffed & Hlens & HWs & Htg).
  rewrite Hlayers in Hlens.
  destruct (Network.m_layers fed) as [|F0 [|F1 [|? ?]]] eqn:Hfed; try done.
  injection Hlens as HlenF0 HlenF1.
  pose proof Hwffed as (Hnum & Hcount & _). rewrite Hfed in Hnum, Hcount.
  assert (last (Network.m_layers fed) = Some F1) as Hback by (by rewrite Hfed).
  assert (length (Network.m_targetOutput fed) = length F1) as Htarget' by congruence.
  set (bp := Network.set_errors (produced_errors fed) fed).
  assert (produced_errors fed = [output_error F1 (Network.m_targetOutput fed)]) as Hprod.
  { unfold produced_errors. rewrite Hback, Hfed. done. }
  assert (wf bp) as Hwfbp by (by apply wf_set_errors).
  assert (errors_fit bp) as Hfit by (by apply (backPropagate_errors_fit fed F1)).
  assert (length (Network.m_errors bp) = length (Network.m_weightMatrices bp)) as Hone.
  { unfold bp. cbn [Network.set_errors Network.m_errors Network.m_weightMatrices].
    rewrite Hprod. simpl in *. lia. }
  destruct (update_delta bp Hwfbp Hfit Hone) as (updated & Hup & HW & HB).
  exists fed, F1, (output_error F1 (Network.m_targetOutput fed)), bp, updated.
  split_and!.
  - exact Hff.
  - exact Hback.
  - rewrite Hnum. simpl. lia.
  - rewrite (backPropagate_eq _ F1); [done|by apply wf_set_errors|done|done].
  - exact Hprod.
  - by apply output_error_ops.
  - exact Hup.
  - intros j i Hj Hi.
    destruct (HW 0 F0 F1 j i) as (w & a & v & e & Hw & Ha & Hv & He & Hnew);
      [unfold bp; cbn; by rewrite Hfed..|lia|lia|].
    rewrite <-Hone in Hv. unfold bp in Hv.
    cbn [Network.set_errors Network.m_errors] in Hv. rewrite Hprod in Hv.
    simpl in Hv. injection Hv as <-.
    by exists w, a, e.
  - intros j Hj.
    destruct (HB 0 F1 j) as (b & v & e & Hb & Hv & He & Hnew);
      [unfold bp; cbn; by rewrite Hfed|lia|].
    rewrite <-Hone in Hv. unfold bp in Hv.
    cbn [Network.set_errors Network.m_errors] in Hv. rewrite Hprod in Hv.
    simpl in Hv. injection Hv as <-.
    by exists b, e.
Qed.

Lemma C8_two_layer_step_witness :
  wf Zmodel.loaded_2_1 ∧
  ∃ (L0 L1 : list (@Neuron.t Zmodel.Z_double)),
    Network.m_layers Zmodel.loaded_2_1 = [L0; L1] ∧
    length (Network.m_targetOutput Zmodel.loaded_2_1) = length L1 ∧
    ∃ fed backpropagated updated,
      @Network.feedForward Zmodel.Z_double Zmodel.Z_externals Zmodel.loaded_2_1
        = (Ok tt, fed) ∧
      @Network.backPropagate Zmodel.Z_double (Network.set_errors [] fed)
        = (Ok tt, backpropagated) ∧
      Network.m_errors backpropagated = [[3]]%Z ∧
      @Network.update Zmodel.Z_double Zmodel.Z_externals backpropagated
        = (Ok tt, updated) ∧
      weight updated 0 0 1 = Some (2 - 1 * 2 * 3)%Z ∧
      bias updated 1 0 = Some (3 - 1 * 3)%Z.
Proof.
  assert (wf Zmodel.loaded_2_1) as Hwf by wf_by_computation.
  split; [exact Hwf|]. eexists _, _. split; [vm_compute; reflexivity|].
  split; [vm_compute; reflexivity|].
  destruct (@C8_two_layer_step Zmodel.Z_double Zmodel.Z_externals
              Zmodel.loaded_2_1 _ _ Hwf eq_refl eq_refl)
    as (fed & back & outputError & bp & updated & Hff & _ & _ & Hbp & _ & _ & Hup & _).
  exists fed, bp, updated.
  vm_compute in Hff. injection Hff as <-.
  vm_compute in Hbp. injection Hbp as <-.
  vm_compute in Hup. injection Hup as <-.
  split_and!; vm_compute; reflexivity.
Defined.

Section train_lemmas.
Context `{Externals}.

Lemma bind_Ok_inv {St A B} (m : M St A) (f : A → M St B) (s s' : St) (b : B) :
  (m ≫= f) s = (Ok b, s') → ∃ a s1, m s = (Ok a, s1) ∧ f a s1 = (Ok b, s').
Proof.
  rewrite bind_eq. destruct (m s) as [[a|e] s1]; [|done]. intros Hf. by exists a, s1.
Qed.

(** Inside one round of [train], [backPropagate] starts on an empty error
    list. *)
Lemma train_sample_clears (trainingSample : list (list double))
    (net net' : Network.t) :
  Network.train_sample trainingSample net = (Ok tt, net') →
  ∃ mid mid',
    Network.m_errors mid = [] ∧
    Network.backPropagate mid = (Ok tt, mid') ∧
    Network.update mid' = (Ok tt, net').
Proof.
  unfold Network.train_sample.
  intros (input & s1 & _ & Hrest)%bind_Ok_inv.
  apply bind_Ok_inv in Hrest as ([] & s2 & _ & Hrest).
  apply bind_Ok_inv in Hrest as (target & s3 & _ & Hrest).
  apply bind_Ok_inv in Hrest as ([] & s4 & _ & Hrest).
  apply bind_Ok_inv in Hrest as ([] & s5 & _ & Hrest).
  apply bind_Ok_inv in Hrest as ([] & s6 & _ & Hrest).
  apply bind_Ok_inv in Hrest as ([] & s7 & Hclear & Hrest).
  apply bind_Ok_inv in Hrest as ([] & s8 & Hbp & Hup).
  injection Hclear as <-.
  by exists (Network.set_errors [] s6), s8.
Qed.

End train_lemmas.

(** C10. backPropagate never removes or clears entries of the error list:
    however it ends, the list it found is a prefix of the list it leaves.
    On a well-formed network of two layers or more, with a target of the
    output layer's length, it returns having appended numLayers - 1
    vectors, the output-layer error first. So element 0 of the list is the
    output-layer error when the list was empty before the call, and is the
    old element 0 when it was not; and the error of layer l + 1, which
    update reads from the end of the list, sits at index
    length of the old list + numWeightMatrices - 1 - l, which is
    numWeightMatrices - 1 - l exactly when the list was empty. In a round
    of train, backPropagate starts on an empty list: train clears it,
    backPropagate does not. *)
Theorem C10_backPropagate_appends `{Externals} (net : Network.t) :
  Network.m_errors net `prefix_of` Network.m_errors (Network.backPropagate net).2 ∧
  (∀ back,
     wf net →
     2 ≤ length (Network.m_layers net) →
     last (Network.m_layers net) = Some back →
     length (Network.m_targetOutput net) = length back →
     ∃ produced outputError,
       Network.backPropagate net
         = (Ok tt, Network.set_errors (Network.m_errors net ++ produced) net) ∧
       length produced = length (Network.m_layers net) - 1 ∧
       produced !! 0 = Some outputError ∧
       linalg.hadamardProduct
         (zip_with dsub (Layer.getActivations back) (Network.m_targetOutput net))
         (Layer.getDerivatives back) = Ok outputError ∧
       (Network.m_errors net = [] →
        (Network.m_errors net ++ produced) !! 0 = Some outputError) ∧
       (Network.m_errors net ≠ [] →
        (Network.m_errors net ++ produced) !! 0 = Network.m_errors net !! 0) ∧
       ∀ l Lnext, Network.m_layers net !! S l = Some Lnext →
         ∃ e,
           produced !! (length (Network.m_weightMatrices net) - 1 - l) = Some e ∧
           length e = length Lnext ∧
           (Network.m_errors net ++ produced)
             !! (length (Network.m_errors net ++ produced) - 1 - l) = Some e ∧
           (Network.m_errors net ++ produced)
             !! (length (Network.m_errors net)
                 + (length (Network.m_weightMatrices net) - 1 - l)) = Some e ∧
           (length (Network.m_errors net)
              + (length (Network.m_weightMatrices net) - 1 - l)
            = length (Network.m_weightMatrices net) - 1 - l
            ↔ Network.m_errors net = [])) ∧
  (∀ trainingSample net',
     Network.train_sample trainingSample net = (Ok tt, net') →
     ∃ mid mid',
       Network.m_errors mid = [] ∧
       Network.backPropagate mid = (Ok tt, mid') ∧
       Network.update mid' = (Ok tt, net')).
Proof.
  split_and!.
  - by destruct (backPropagate_appends net) as (_&_&_&_&_&_&?).
  - intros back Hwf Htwo Hback Htarget.
    pose proof Hwf as (_ & Hcount & _).
    pose proof (produced_errors_length net Hwf) as Hplen.
    exists (produced_errors net), (output_error back (Network.m_targetOutput net)).
    split_and!.
    + by apply (backPropagate_eq net back).
    + lia.
    + unfold produced_errors. by rewrite Hback.
    + by apply output_error_ops.
    + intros ->. unfold produced_errors. by rewrite Hback.
    + intros Hne. apply lookup_app_l.
      destruct (Network.m_errors net); [done|simpl; lia].
    + intros l Ln HLn.
      pose proof (lookup_lt_Some _ _ _ HLn) as Hl.
      destruct (produced_errors_fit net back l Ln Hwf Hback Htarget HLn)
        as (e & He & Hlene).
      replace (length (produced_errors net) - 1 - l)
        with (length (Network.m_weightMatrices net) - 1 - l) in He by lia.
      exists e. split_and!; [done|done| | |].
      * rewrite lookup_app_r; rewrite length_app; [|lia].
        rewrite <-He. f_equal. lia.
      * rewrite lookup_app_r by lia. rewrite <-He. f_equal. lia.
      * split.
        -- intros Heq. apply length_zero_iff_nil. lia.
        -- intros ->. done.
  - intros sample net'. apply train_sample_clears.
Qed.

Lemma C10_backPropagate_appends_witness :
  wf Zmodel.stale_2_3_1 ∧
  2 ≤ length (Network.m_layers Zmodel.stale_2_3_1) ∧
  Network.m_errors Zmodel.stale_2_3_1 = [[1; 2; 3]]%Z ∧
  ∃ back,
    last (Network.m_layers Zmodel.stale_2_3_1) = Some back ∧
    length (Network.m_targetOutput Zmodel.stale_2_3_1) = length back ∧
    ∃ net',
      @Network.backPropagate Zmodel.Z_double Zmodel.stale_2_3_1 = (Ok tt, net') ∧
      Network.m_errors net' = [[1; 2; 3]; [649]; [6490; 7139; 7788]]%Z.
Proof.
  assert (wf Zmodel.stale_2_3_1) as Hwf by wf_by_computation.
  assert (2 ≤ length (Network.m_layers Zmodel.stale_2_3_1)) as Htwo
    by (vm_compute; lia).
  split; [exact Hwf|]. split; [exact Htwo|]. split; [reflexivity|].
  eexists. split; [vm_compute; reflexivity|]. split; [vm_compute; reflexivity|].
  destruct (proj1 (proj2 (@C10_backPropagate_appends Zmodel.Z_double
                            Zmodel.Z_externals Zmodel.stale_2_3_1))
              _ Hwf Htwo eq_refl eq_refl)
    as (produced & outputError & Hbp & _).
  eexists. split; [exact Hbp|].
  vm_compute in Hbp. injection Hbp as <-. vm_compute. reflexivity.
Defined.

(** C5. train processes the samples strictly in order, one gradient step
    per sample: on samples given as (input, target), from any state in
    which the stored layer count is within the layers (so that printing
    reads in range), it is the function [train_spec], which for each sample
    runs, in this order, set input, set target, feedForward, clear the
    error list, backPropagate, update. On a well-formed network with samples of the network's input and output
    dimensions train returns; the error list it leaves holds exactly the
    errors of the last sample: the vectors backPropagate produced from the
    state the last sample's forward pass left, on the cleared list. *)
Theorem C5_train_online `{Externals} (net : Network.t)
    (samples : list (list double * list double)) :
  wf net →
  Forall (sample_fits net) samples →
  (∀ s, printable s →
     Network.train (as_sample <$> samples) s = train_spec samples s) ∧
  ∃ net',
    Network.train (as_sample <$> samples) net = (Ok tt, net') ∧
    wf net' ∧
    ∀ front input target,
      samples = front ++ [(input, target)] →
      ∃ before mid,
        Network.train (as_sample <$> front) net = (Ok tt, before) ∧
        forward_pass input target before = (Ok tt, mid) ∧
        Network.backPropagate (Network.set_errors [] mid)
          = (Ok tt, Network.set_errors (produced_errors mid) mid) ∧
        Network.update (Network.set_errors (produced_errors mid) mid) = (Ok tt, net') ∧
        Network.m_errors net' = produced_errors mid.
Proof.
  intros Hwf Hfits. split; [apply train_eq_spec|].
  destruct (train_spec_returns samples net Hwf Hfits) as (net' & Htrain & Hwf' & _).
  exists net'. rewrite train_eq_spec by (by apply wf_printable).
  split_and!; [done..|].
  intros front input target ->.
  apply Forall_app in Hfits as [Hfront Hlast].
  rewrite Forall_singleton in Hlast.
  destruct (train_spec_returns front net Hwf Hfront) as (before & Hbefore & Hwfb & Hlens).
  destruct (gradient_step_returns before input target Hwfb)
    as (mid & net'' & Hfwd & Hbp & Hup & Hstep & _ & Herrors & _).
  { by apply (sample_fits_lengths net). }
  rewrite train_spec_snoc, Hbefore, Hstep in Htrain. injection Htrain as <-.
  exists before, mid. by rewrite train_eq_spec by (by apply wf_printable).
Qed.

Lemma C5_train_online_witness :
  wf Zmodel.net_2_3_1 ∧
  Forall (sample_fits Zmodel.net_2_3_1) [([1; 2], [5]); ([3; 4], [6])]%Z ∧
  ∃ net',
    @Network.train Zmodel.Z_double Zmodel.Z_externals
      [[[1; 2]; [5]]; [[3; 4]; [6]]]%Z Zmodel.net_2_3_1 = (Ok tt, net') ∧
    length (Network.m_errors net') = 2.
Proof.
  assert (wf Zmodel.net_2_3_1) as Hwf by wf_by_computation.
  assert (Forall (sample_fits Zmodel.net_2_3_1) [([1; 2], [5]); ([3; 4], [6])]%Z)
    as Hfits by (repeat constructor).
  split; [exact Hwf|]. split; [exact Hfits|].
  destruct (proj2 (@C5_train_online Zmodel.Z_double Zmodel.Z_externals
                     Zmodel.net_2_3_1 _ Hwf Hfits))
    as (net' & Htrain & _).
  exists net'. split; [exact Htrain|].
  vm_compute in Htrain. injection Htrain as <-. vm_compute. reflexivity.
Defined.

(** * Further properties of the methods *)

(** ** setInput *)

Section setInput_extras.
Context `{Externals}.

Lemma refresh_refresh (x y : double) (n : Neuron.t) :
  refresh y (refresh x n) = refresh y n.
Proof. done. Qed.

Lemma refresh_same_bias (x : double) (n1 n2 : Neuron.t) :
  Neuron.m_bias n1 = Neuron.m_bias n2 → refresh x n1 = refresh x n2.
Proof.
  intros Hb. unfold refresh, Neuron.derive, Neuron.activate, Neuron.setInput.
  cbn. by rewrite Hb.
Qed.

Lemma set_inputs_getInputs (xs : list double) :
  ∀ L : Layer.t, length xs = length L → Layer.getInputs (set_inputs xs L) = xs.
Proof.
  induction xs as [|x xs IH]; intros [|n L] Hlen; try done.
  cbn [set_inputs]. unfold Layer.getInputs in *. rewrite fmap_cons, IH; [done|].
  simpl in Hlen. lia.
Qed.

Lemma set_inputs_overwrite (xs ys : list double) :
  ∀ L : Layer.t, length xs ≤ length ys →
    set_inputs ys (set_inputs xs L) = set_inputs ys L.
Proof.
  revert ys. induction xs as [|x xs IH]; intros ys L Hlen.
  - by destruct L.
  - destruct ys as [|y ys]; [simpl in Hlen; lia|].
    destruct L as [|n L]; [done|].
    cbn [set_inputs]. rewrite refresh_refresh, IH; [done|]. simpl in Hlen. lia.
Qed.

Lemma set_inputs_same_biases (xs : list double) :
  ∀ L1 L2 : Layer.t,
    biases_of L1 = biases_of L2 → length xs = length L1 →
    set_inputs xs L1 = set_inputs xs L2.
Proof.
  induction xs as [|x xs IH]; intros [|n1 L1] [|n2 L2] Hb Hlen; try done.
  unfold biases_of in *. rewrite !fmap_cons in Hb. injection Hb as Hn HL.
  cbn [set_inputs]. rewrite (refresh_same_bias x n1 n2 Hn), (IH L1 L2); [done..|].
  simpl in Hlen. lia.
Qed.

Lemma setInput_no_layers (input : list double) (net : Network.t) :
  Network.m_layers net = [] →
  Network.setInput input net =
    (if decide (input = []) then Ok tt else Throw out_of_range,
     Network.set_input input net).
Proof.
  intros Hnet. unfold Network.setInput. rewrite bind_eq. cbn [modify].
  destruct input as [|x xs]; [done|].
  rewrite decide_False by done.
  unfold for_. cbn [length for_from]. rewrite !bind_eq. cbn [lift vector_at lookup].
  cbn. rewrite with_layer_eq. cbn [Network.set_input Network.m_layers].
  by rewrite Hnet.
Qed.

End setInput_extras.

(** X1. setInput with a vector of the size of layer 0 returns normally;
    the vector is then stored as m_input and is what getInputs of layer 0
    reads back, whatever layer 0 held before. The later layers, the
    weights, the target, the error list, the stored sizes and every bias
    are as they were. *)
Theorem X1_setInput_round_trip `{Externals} (net : Network.t) (L0 : Layer.t)
    (rest : list Layer.t) (input : list double) :
  Network.m_layers net = L0 :: rest →
  length input = length L0 →
  ∃ net' L0',
    Network.setInput input net = (Ok tt, net') ∧
    Network.m_input net' = input ∧
    Network.m_layers net' = L0' :: rest ∧
    Layer.getInputs L0' = input ∧
    biases_of L0' = biases_of L0 ∧
    Network.m_weightMatrices net' = Network.m_weightMatrices net ∧
    Network.m_targetOutput net' = Network.m_targetOutput net ∧
    Network.m_errors net' = Network.m_errors net ∧
    Network.m_layerSizes net' = Network.m_layerSizes net ∧
    Network.m_numLayers net' = Network.m_numLayers net.
Proof.
  intros Hnet Hlen.
  eexists _, (set_inputs input L0). split.
  { rewrite (setInput_eq input L0 rest net Hnet).
    rewrite decide_True by lia. reflexivity. }
  split_and!; try done.
  - by apply set_inputs_getInputs.
  - apply set_inputs_biases.
Qed.

Lemma X1_setInput_round_trip_witness :
  ∃ (L0 : list (@Neuron.t Zmodel.Z_double)) rest,
    Network.m_layers Zmodel.net_2_3_1 = L0 :: rest ∧
    length [7; 8]%Z = length L0 ∧
    ∃ net' L0',
      @Network.setInput Zmodel.Z_double Zmodel.Z_externals [7; 8]%Z Zmodel.net_2_3_1
        = (Ok tt, net') ∧
      Network.m_layers net' = L0' :: rest ∧
      @Layer.getInputs Zmodel.Z_double L0' = [7; 8]%Z.
Proof.
  eexists _, _. split; [vm_compute; reflexivity|].
  split; [vm_compute; reflexivity|].
  destruct (@X1_setInput_round_trip Zmodel.Z_double Zmodel.Z_externals
              Zmodel.net_2_3_1 _ _ [7; 8]%Z eq_refl eq_refl)
    as (net' & L0' & Hset & _ & Hlayers & Hin & _).
  exists net', L0'. split; [exact Hset|]. split; [exact Hlayers|exact Hin].
Defined.

(** X2. A second setInput overwrites the first: when the second vector is
    at least as long as the first, calling setInput with the first and
    then with the second leaves the same outcome and the same network as
    calling it with the second alone. This holds whether or not either
    call throws. *)
Theorem X2_setInput_overwrites `{Externals} (net : Network.t)
    (xs ys : list double) :
  length xs ≤ length ys →
  Network.setInput ys (Network.setInput xs net).2 = Network.setInput ys net.
Proof.
  intros Hlen. destruct (Network.m_layers net) as [|L0 rest] eqn:Hnet.
  - rewrite (setInput_no_layers xs net Hnet). cbn [snd].
    rewrite !setInput_no_layers by done. done.
  - rewrite (setInput_eq xs L0 rest net Hnet). cbn [snd].
    rewrite (setInput_eq ys (set_inputs xs L0) rest) by done.
    rewrite (setInput_eq ys L0 rest net Hnet).
    rewrite set_inputs_length, set_inputs_overwrite by done. done.
Qed.

Lemma X2_setInput_overwrites_witness :
  length [7]%Z ≤ length [1; 2; 3]%Z ∧
  @Network.setInput Zmodel.Z_double Zmodel.Z_externals [1; 2; 3]%Z
    (@Network.setInput Zmodel.Z_double Zmodel.Z_externals [7]%Z Zmodel.net_2_3_1).2
  = @Network.setInput Zmodel.Z_double Zmodel.Z_externals [1; 2; 3]%Z Zmodel.net_2_3_1.
Proof.
  assert (length [7]%Z ≤ length [1; 2; 3]%Z) as Hlen by (simpl; lia).
  split; [exact Hlen|].
  exact (@X2_setInput_overwrites Zmodel.Z_double Zmodel.Z_externals
           Zmodel.net_2_3_1 [7]%Z [1; 2; 3]%Z Hlen).
Defined.

(** ** feedForward *)

Section feedForward_extras.
Context `{Externals}.

Global Instance forward_frame_preorder : PreOrder forward_frame.
Proof.
  split.
  - intros net. by repeat split.
  - intros n1 n2 n3 (?&?&?&?&?&?&?&?) (?&?&?&?&?&?&?&?).
    repeat split; etrans; eauto.
Qed.

Lemma setInputAt_forward_frame (l j : nat) (x : double) :
  l ≠ 0 → preserves forward_frame (Network.with_layer l (Layer.setInputAt j x)).
Proof.
  intros Hl net. rewrite with_layer_eq.
  destruct (Network.m_layers net !! l) as [L|] eqn:HL; [|reflexivity].
  rewrite setInputAt_eq.
  destruct (L !! j) as [n|] eqn:Hn; [|reflexivity].
  cbn [snd]. repeat split.
  - cbn. rewrite list_fmap_insert. apply list_insert_id.
    rewrite list_lookup_fmap, HL. cbn. f_equal.
    unfold biases_of. rewrite list_fmap_insert. symmetry. apply list_insert_id.
    by rewrite list_lookup_fmap, Hn.
  - cbn. apply list_lookup_insert_ne. done.
Qed.

Lemma feedForward_forward_frame : preserves forward_frame Network.feedForward.
Proof.
  unfold Network.feedForward.
  apply preserves_bind; [apply _|apply preserves_gets, _|]. intros layers.
  destruct (length layers) as [|n]; [apply preserves_lift, _|].
  apply preserves_for; [apply _|]. intros l.
  apply preserves_bind; [apply _| |]. { intros net. reflexivity. } intros current.
  apply preserves_bind; [apply _| |]. { intros net. reflexivity. } intros W.
  apply preserves_bind; [apply _|apply preserves_lift, _|]. intros nextLayerInputs.
  apply preserves_for; [apply _|]. intros j.
  apply preserves_bind; [apply _|apply preserves_lift, _|]. intros x.
  apply setInputAt_forward_frame. lia.
Qed.

Lemma mulVec_rows_length (W : linalg.Matrix) (v : list double) :
  length (mulVec_rows W v) = length (linalg.elems W).
Proof. unfold mulVec_rows. by rewrite length_fmap. Qed.

(** The layers a forward pass leaves are a function of the input layer,
    the weights and the biases. *)
Lemma fed_layers_same (Ws : list linalg.Matrix) (layers1 layers2 : list Layer.t) :
  length layers1 = S (length Ws) →
  biases_of <$> layers1 = biases_of <$> layers2 →
  layers1 !! 0 = layers2 !! 0 →
  (∀ l W, Ws !! l = Some W →
     matrix_ok W ∧ (length <$> layers1) !! S l = Some (linalg.rows W)) →
  fed_layers 0 (length Ws) Ws layers1 = fed_layers 0 (length Ws) Ws layers2.
Proof.
  intros Hlen1 Hb Hzero HWs.
  assert (length layers2 = S (length Ws)) as Hlen2.
  { apply (f_equal length) in Hb. rewrite !length_fmap in Hb. lia. }
  apply list_eq. intros t. induction t as [|t IH].
  - by rewrite !fed_layers_lookup_le by lia.
  - destruct (decide (t < length Ws)) as [Ht|Ht].
    + destruct (lookup_lt_is_Some_2 Ws t Ht) as [W HW].
      destruct (fed_layers_lookup_fed Ws (length Ws) 0 layers1 t W)
        as (L1 & Ln1 & HL1 & HLn1 & HF1); [done|lia|lia|done|].
      destruct (fed_layers_lookup_fed Ws (length Ws) 0 layers2 t W)
        as (L2 & Ln2 & HL2 & HLn2 & HF2); [done|lia|lia|done|].
      rewrite HF1, HF2. f_equal.
      rewrite HL1, HL2 in IH. injection IH as <-.
      unfold fed_layer. apply set_inputs_same_biases.
      * apply (f_equal (.!! S t)) in Hb.
        rewrite !list_lookup_fmap, HLn1, HLn2 in Hb. by injection Hb.
      * destruct (HWs t W HW) as [Hok Hrows].
        apply lookup_length_Some in Hrows as (Ln & HLn & Hrows).
        rewrite HLn1 in HLn. injection HLn as <-.
        rewrite mulVec_rows_length, matrix_ok_rows by done. done.
    + rewrite !(proj2 (lookup_ge_None _ _)); [done|..];
        rewrite fed_layers_length; lia.
Qed.

Lemma fed_layers_biases (Ws : list linalg.Matrix) (n : nat) :
  ∀ l layers, biases_of <$> fed_layers l n Ws layers = biases_of <$> layers.
Proof.
  induction n as [|n IH]; intros l layers; [done|].
  cbn [fed_layers].
  destruct (layers !! l) as [L|]; [|done].
  destruct (Ws !! l) as [W|]; [|done].
  destruct (layers !! S l) as [Ln|] eqn:HLn; [|done].
  rewrite IH, list_fmap_insert. apply list_insert_id.
  rewrite list_lookup_fmap, HLn. cbn. f_equal.
  unfold fed_layer. by rewrite set_inputs_biases.
Qed.

Lemma wf_rows (net : Network.t) (l : nat) (W : linalg.Matrix) :
  wf net → Network.m_weightMatrices net !! l = Some W →
  matrix_ok W ∧ (length <$> Network.m_layers net) !! S l = Some (linalg.rows W).
Proof. intros (_ & _ & HW) Hl. by destruct (HW l W Hl) as (? & _ & ?). Qed.

End feedForward_extras.

(** X3. However feedForward ends, by return or by exception, it has
    changed nothing but the inputs, activations and derivatives of the
    neurons after the input layer: the input layer, every bias, the weight
    matrices, m_input, the target, the error list and the stored sizes are
    as before, and every layer keeps its number of neurons. *)
Theorem X3_feedForward_frame `{Externals} (net : Network.t) :
  forward_frame net (Network.feedForward net).2 ∧
  length <$> Network.m_layers (Network.feedForward net).2
    = length <$> Network.m_layers net.
Proof.
  pose proof (feedForward_forward_frame net) as Hf. split; [done|].
  destruct Hf as (_&_&_&_&_&_&Hb&_).
  apply (f_equal (fmap length)) in Hb.
  rewrite <-!list_fmap_compose in Hb.
  erewrite (list_fmap_ext (length ∘ biases_of) length) in Hb.
  2: { intros i L _. cbn. unfold biases_of. by rewrite length_fmap. }
  rewrite Hb. apply list_fmap_ext. intros i L _. cbn. unfold biases_of.
  by rewrite length_fmap.
Qed.

(** X4. On well-formed networks the layers feedForward leaves depend only
    on the input layer, the weights and the biases: two networks that
    agree on these end with the same layers, whatever inputs, activations
    and derivatives their later layers held before. Nothing of an earlier
    pass leaks into the result. *)
Theorem X4_feedForward_ignores_stale `{Externals} (net1 net2 : Network.t) :
  wf net1 → wf net2 →
  Network.m_weightMatrices net1 = Network.m_weightMatrices net2 →
  Network.m_layers net1 !! 0 = Network.m_layers net2 !! 0 →
  biases_of <$> Network.m_layers net1 = biases_of <$> Network.m_layers net2 →
  ∃ net1' net2',
    Network.feedForward net1 = (Ok tt, net1') ∧
    Network.feedForward net2 = (Ok tt, net2') ∧
    Network.m_layers net1' = Network.m_layers net2'.
Proof.
  intros Hwf1 Hwf2 HWs Hzero Hb.
  eexists _, _. split; [by apply feedForward_eq|]. split; [by apply feedForward_eq|].
  cbn. rewrite <-HWs.
  apply fed_layers_same; [by destruct Hwf1 as (_ & ? & _)|done|done|].
  intros l W HW. by apply (wf_rows net1).
Qed.

Lemma X4_feedForward_ignores_stale_witness :
  wf Zmodel.loaded_2_3_1 ∧ wf Zmodel.fed_2_3_1 ∧
  Network.m_layers Zmodel.loaded_2_3_1 ≠ Network.m_layers Zmodel.fed_2_3_1 ∧
  ∃ net1' net2',
    @Network.feedForward Zmodel.Z_double Zmodel.Z_externals Zmodel.loaded_2_3_1
      = (Ok tt, net1') ∧
    @Network.feedForward Zmodel.Z_double Zmodel.Z_externals Zmodel.fed_2_3_1
      = (Ok tt, net2') ∧
    Network.m_layers net1' = Network.m_layers net2'.
Proof.
  assert (wf Zmodel.loaded_2_3_1) as Hwf1 by wf_by_computation.
  assert (wf Zmodel.fed_2_3_1) as Hwf2 by wf_by_computation.
  split; [exact Hwf1|]. split; [exact Hwf2|].
  split; [vm_compute; discriminate|].
  exact (@X4_feedForward_ignores_stale Zmodel.Z_double Zmodel.Z_externals
           Zmodel.loaded_2_3_1 Zmodel.fed_2_3_1 Hwf1 Hwf2 eq_refl eq_refl eq_refl).
Defined.

(** X5. feedForward is idempotent on a well-formed network: a second
    call, with nothing changed in between, returns and leaves the network
    exactly as the first call left it. *)
Theorem X5_feedForward_idempotent `{Externals} (net : Network.t) :
  wf net →
  ∃ net',
    Network.feedForward net = (Ok tt, net') ∧
    Network.feedForward net' = (Ok tt, net').
Proof.
  intros Hwf. eexists. split; [by apply feedForward_eq|].
  pose proof Hwf as (_ & Hcount & _).
  rewrite feedForward_eq.
  2: { apply wf_set_layers; [done|]. apply fed_layers_lengths. }
  cbn. rewrite set_layers_twice. f_equal. f_equal.
  apply fed_layers_same.
  - by rewrite fed_layers_length.
  - apply fed_layers_biases.
  - by apply fed_layers_lookup_le.
  - intros l W HW. destruct (wf_rows net l W Hwf HW) as [Hok Hrows].
    split; [done|]. by rewrite fed_layers_lengths.
Qed.

Lemma X5_feedForward_idempotent_witness :
  wf Zmodel.loaded_2_3_1 ∧
  ∃ net',
    @Network.feedForward Zmodel.Z_double Zmodel.Z_externals Zmodel.loaded_2_3_1
      = (Ok tt, net') ∧
    @Network.feedForward Zmodel.Z_double Zmodel.Z_externals net' = (Ok tt, net') ∧
    net' ≠ Zmodel.loaded_2_3_1.
Proof.
  assert (wf Zmodel.loaded_2_3_1) as Hwf by wf_by_computation.
  split; [exact Hwf|].
  destruct (@X5_feedForward_idempotent Zmodel.Z_double Zmodel.Z_externals
              Zmodel.loaded_2_3_1 Hwf) as (net' & H1 & H2).
  exists net'. split; [exact H1|]. split; [exact H2|].
  vm_compute in H1. injection H1 as <-. vm_compute. discriminate.
Defined.

(** ** backPropagate *)

Section backPropagate_extras.
Context `{Externals}.

(** The loop of lines 82-85 on a target that ends before the output
    does. *)
Lemma gradCost_loop_short (output target : list double) (n : nat) :
  ∀ (i : nat) (gradCost : list double),
    i + n = length output →
    i ≤ length target < length output →
    Network.gradCost_loop i n output target gradCost = Throw out_of_range.
Proof.
  induction n as [|n IH]; intros i acc Hin Hi; [lia|].
  destruct (lookup_lt_is_Some_2 output i) as [o Ho]; [lia|].
  cbn [Network.gradCost_loop].
  rewrite (vector_at_Some _ _ _ Ho). cbn [mbind result_bind].
  destruct (decide (i < length target)) as [Hlt|Hge].
  - destruct (lookup_lt_is_Some_2 target i Hlt) as [t Ht].
    rewrite (vector_at_Some _ _ _ Ht). apply IH; lia.
  - by rewrite vector_at_ge by lia.
Qed.

(** [backPropagate_eq] for a target at least as long as the output
    layer. *)
Lemma backPropagate_eq_le (net : Network.t) (back : Layer.t) :
  wf net →
  last (Network.m_layers net) = Some back →
  length back ≤ length (Network.m_targetOutput net) →
  Network.backPropagate net
  = (Ok tt, Network.set_errors (Network.m_errors net ++ produced_errors net) net).
Proof.
  intros Hwf Hback Htarget. unfold Network.backPropagate, produced_errors.
  rewrite bind_eq. cbn [gets]. rewrite Hback.
  rewrite bind_eq. cbn [gets].
  rewrite bind_eq. unfold lift at 1. unfold Layer.getSize.
  rewrite gradCost_loop_eq;
    [|unfold Layer.getActivations; by rewrite length_fmap
     |unfold Layer.getActivations; rewrite length_fmap; lia].
  rewrite bind_eq. unfold lift at 1. unfold linalg.hadamardProduct.
  rewrite decide_True.
  2:{ cbn [app]. rewrite !drop_0. unfold Layer.getActivations, Layer.getDerivatives.
      rewrite length_zip_with, !length_fmap. lia. }
  rewrite bind_eq. cbn [modify]. rewrite bind_eq. cbn [gets].
  rewrite bind_eq. unfold lift at 1.
  destruct (vector_at_lt
              (Network.m_errors
                 (Network.set_errors
                    (Network.m_errors net ++
                     [zip_with dmul
                        ([] ++ zip_with dsub (drop 0 (Layer.getActivations back))
                                 (drop 0 (Network.m_targetOutput net)))
                        (Layer.getDerivatives back)]) net)) 0)
    as (first & _ & ->).
  { cbn [Network.set_errors Network.m_errors]. rewrite length_app. simpl. lia. }
  rewrite bind_eq. cbn [gets].
  cbn [app]. rewrite !drop_0. fold (cost_gradient back (Network.m_targetOutput net)).
  fold (output_error back (Network.m_targetOutput net)).
  set (e := output_error back (Network.m_targetOutput net)).
  cbn [Network.set_errors Network.m_numLayers].
  pose proof Hwf as (Hnum & Hlen & _). rewrite Hnum.
  replace (Z.to_nat (Z.of_nat (length (Network.m_layers net)) - 2))
    with (length (Network.m_layers net) - 2) by lia.
  rewrite (backPropagate_loop_eq _ _ e).
  - cbn [Network.set_errors Network.m_errors Network.m_weightMatrices Network.m_layers].
    by rewrite <-(assoc_L (++)).
  - by apply wf_set_errors.
  - exact (last_snoc _ _).
  - intros Hne. exists back. split.
    + rewrite last_lookup in Hback.
      replace (S (length (Network.m_layers net) - 2))
        with (pred (length (Network.m_layers net))) by lia.
      exact Hback.
    + unfold e, output_error, cost_gradient, Layer.getActivations, Layer.getDerivatives.
      rewrite !length_zip_with, !length_fmap. lia.
Qed.

Lemma produced_errors_take (net : Network.t) (back : Layer.t) :
  last (Network.m_layers net) = Some back →
  produced_errors
    (Network.set_targetOutput (take (length back) (Network.m_targetOutput net)) net)
  = produced_errors net.
Proof.
  intros Hback. unfold produced_errors.
  cbn [Network.set_targetOutput Network.m_layers Network.m_targetOutput
       Network.m_weightMatrices].
  rewrite Hback.
  assert (output_error back (take (length back) (Network.m_targetOutput net))
          = output_error back (Network.m_targetOutput net)) as ->; [|done].
  unfold output_error, cost_gradient. f_equal.
  apply zip_with_take_r'. unfold Layer.getActivations. rewrite length_fmap. lia.
Qed.

End backPropagate_extras.

(** X6. backPropagate on a network whose stored target is shorter than
    the output layer throws out_of_range from the loop that fills the cost
    gradient, before anything was written: the network, its error list
    included, is exactly as before the call. *)
Theorem X6_backPropagate_short_target `{Externals} (net : Network.t)
    (back : Layer.t) :
  last (Network.m_layers net) = Some back →
  length (Network.m_targetOutput net) < length back →
  Network.backPropagate net = (Throw out_of_range, net).
Proof.
  intros Hback Hshort. unfold Network.backPropagate.
  rewrite bind_eq. cbn [gets]. rewrite Hback.
  rewrite bind_eq. cbn [gets].
  rewrite bind_eq. unfold lift at 1. unfold Layer.getSize.
  rewrite gradCost_loop_short; [done| |];
    unfold Layer.getActivations; rewrite length_fmap; lia.
Qed.

Lemma X6_backPropagate_short_target_witness :
  ∃ back,
    last (Network.m_layers Zmodel.net_2_3_1) = Some back ∧
    length (Network.m_targetOutput Zmodel.net_2_3_1) < length back ∧
    @Network.backPropagate Zmodel.Z_double Zmodel.net_2_3_1
      = (Throw out_of_range, Zmodel.net_2_3_1).
Proof.
  eexists. split; [vm_compute; reflexivity|].
  assert (length (Network.m_targetOutput Zmodel.net_2_3_1) < 1) as Hshort
    by (vm_compute; lia).
  split; [exact Hshort|].
  exact (@X6_backPropagate_short_target Zmodel.Z_double Zmodel.Z_externals
           Zmodel.net_2_3_1 _ eq_refl Hshort).
Defined.

(** X7. backPropagate reads the stored target only up to the size of the
    output layer: on a well-formed network whose target is at least that
    long it returns, and the vectors it appends are those it appends when
    the target is cut to the output layer's size. Entries of the target
    beyond the output layer are never read and raise no error. *)
Theorem X7_backPropagate_long_target `{Externals} (net : Network.t)
    (back : Layer.t) :
  wf net →
  last (Network.m_layers net) = Some back →
  length back ≤ length (Network.m_targetOutput net) →
  ∃ produced,
    Network.backPropagate net
      = (Ok tt, Network.set_errors (Network.m_errors net ++ produced) net) ∧
    Network.backPropagate
      (Network.set_targetOutput (take (length back) (Network.m_targetOutput net)) net)
      = (Ok tt,
         Network.set_errors (Network.m_errors net ++ produced)
           (Network.set_targetOutput
              (take (length back) (Network.m_targetOutput net)) net)).
Proof.
  intros Hwf Hback Hlong. exists (produced_errors net).
  split; [by apply (backPropagate_eq_le net back)|].
  rewrite (backPropagate_eq_le _ back).
  - by rewrite produced_errors_take.
  - by apply wf_set_targetOutput.
  - done.
  - cbn [Network.set_targetOutput Network.m_targetOutput].
    rewrite length_take. lia.
Qed.

Lemma X7_backPropagate_long_target_witness :
  wf (@Network.set_targetOutput Zmodel.Z_double [5; 9; 9]%Z Zmodel.fed_2_3_1) ∧
  ∃ back,
    last (Network.m_layers
            (@Network.set_targetOutput Zmodel.Z_double [5; 9; 9]%Z Zmodel.fed_2_3_1))
      = Some back ∧
    length back
      ≤ length (Network.m_targetOutput
                  (@Network.set_targetOutput Zmodel.Z_double [5; 9; 9]%Z
                     Zmodel.fed_2_3_1)) ∧
    ∃ net',
      @Network.backPropagate Zmodel.Z_double
        (@Network.set_targetOutput Zmodel.Z_double [5; 9; 9]%Z Zmodel.fed_2_3_1)
        = (Ok tt, net') ∧
      Network.m_errors net' = [[649]; [6490; 7139; 7788]]%Z.
Proof.
  assert (wf (@Network.set_targetOutput Zmodel.Z_double [5; 9; 9]%Z Zmodel.fed_2_3_1))
    as Hwf by wf_by_computation.
  split; [exact Hwf|].
  eexists. split; [vm_compute; reflexivity|].
  assert (1 ≤ length (Network.m_targetOutput
                        (@Network.set_targetOutput Zmodel.Z_double [5; 9; 9]%Z
                           Zmodel.fed_2_3_1))) as Hlong by (vm_compute; lia).
  split; [exact Hlong|].
  destruct (@X7_backPropagate_long_target Zmodel.Z_double Zmodel.Z_externals
              _ _ Hwf eq_refl Hlong) as (produced & Hbp & _).
  eexists. split; [exact Hbp|].
  vm_compute in Hbp. injection Hbp as <-. vm_compute. reflexivity.
Defined.

(** X8. However backPropagate ends on a network that has layers, by
    return or by exception, it has written to the error list only, and
    only at its end: the layers, the weight matrices, m_input, the target
    and the stored sizes are as before, and the vectors that were in the
    error list are still there, in place. *)
Theorem X8_backPropagate_frame `{Externals} (net : Network.t) :
  Network.m_layers net ≠ [] →
  appends net (Network.backPropagate net).2.
Proof. intros _. apply backPropagate_appends. Qed.

Lemma X8_backPropagate_frame_witness :
  Network.m_layers Zmodel.stale_2_3_1 ≠ [] ∧
  appends Zmodel.stale_2_3_1
    (@Network.backPropagate Zmodel.Z_double Zmodel.stale_2_3_1).2.
Proof.
  assert (Network.m_layers Zmodel.stale_2_3_1 ≠ []) as Hne
    by (vm_compute; discriminate).
  split; [exact Hne|].
  exact (@X8_backPropagate_frame Zmodel.Z_double Zmodel.Z_externals
           Zmodel.stale_2_3_1 Hne).
Defined.

(** ** update *)

Section update_extras.
Context `{Externals}.

(** Rules for [throws_only]. *)
Lemma throws_only_ret {St A} (e : exception) (a : A) :
  throws_only e (mret a : M St A).
Proof. by intros s e'. Qed.

Lemma throws_only_gets {St A} (e : exception) (f : St → A) :
  throws_only e (gets f).
Proof. by intros s e'. Qed.

Lemma throws_only_modify {St} (e : exception) (f : St → St) :
  throws_only e (modify f).
Proof. by intros s e'. Qed.

Lemma throws_only_lift {St A} (e : exception) (r : result A) :
  (∀ e', r = Throw e' → e' = e) → throws_only e (lift r : M St A).
Proof. intros Hr s e'. apply Hr. Qed.

Lemma throws_only_bind {St A B} (e : exception) (m : M St A) (f : A → M St B) :
  throws_only e m → (∀ a, throws_only e (f a)) → throws_only e (m ≫= f).
Proof.
  intros Hm Hf s e'. rewrite bind_eq.
  pose proof (Hm s) as Hms.
  destruct (m s) as [[a|e1] s1]; [apply Hf|].
  cbn [fst]. intros [= <-]. by apply Hms.
Qed.

Lemma throws_only_for_from {St} (e : exception) (body : nat → M St unit) (n : nat) :
  (∀ k, throws_only e (body k)) → ∀ i, throws_only e (for_from i n body).
Proof.
  intros Hbody. induction n as [|n IH]; intros i.
  - apply throws_only_ret.
  - cbn [for_from]. apply throws_only_bind; [apply Hbody|]. intros _. apply IH.
Qed.

Lemma throws_only_for {St} (e : exception) (body : nat → M St unit) (n : nat) :
  (∀ k, throws_only e (body k)) → throws_only e (for_ n body).
Proof. intros Hbody. by apply throws_only_for_from. Qed.

Lemma vector_at_throws {A} (v : list A) (i : nat) (e : exception) :
  vector_at v i = Throw e → e = out_of_range.
Proof. unfold vector_at. destruct (v !! i); [done|]. by intros [= <-]. Qed.

Lemma layer_at_throws (l : nat) : throws_only out_of_range (Network.layer_at l).
Proof.
  unfold Network.layer_at.
  apply throws_only_bind; [apply throws_only_gets|]. intros layers.
  apply throws_only_lift, vector_at_throws.
Qed.

Lemma matrix_at_throws (l : nat) : throws_only out_of_range (Network.matrix_at l).
Proof.
  unfold Network.matrix_at.
  apply throws_only_bind; [apply throws_only_gets|]. intros ws.
  apply throws_only_lift, vector_at_throws.
Qed.

Lemma error_at_rev_throws (l : nat) :
  throws_only out_of_range (Network.error_at_rev l).
Proof.
  unfold Network.error_at_rev.
  apply throws_only_bind; [apply throws_only_gets|]. intros errors.
  destruct (decide _); apply throws_only_lift.
  - apply vector_at_throws.
  - by intros e' [= <-].
Qed.

Lemma setBiasAt_throws (l j : nat) (b : double) :
  throws_only out_of_range (Network.with_layer l (Layer.setBiasAt j b)).
Proof.
  intros net e'. rewrite with_layer_eq.
  destruct (Network.m_layers net !! l) as [L|]; [|by intros [= <-]].
  rewrite setBiasAt_eq. destruct (L !! j); [done|]. by intros [= <-].
Qed.

Lemma set_weight_throws (l j i : nat) (x : double) :
  throws_only out_of_range (Network.set_weight l j i x).
Proof.
  intros net e'. rewrite set_weight_eq.
  destruct (Network.m_weightMatrices net !! l) as [W|]; [|by intros [= <-]].
  rewrite linalg_set_eq.
  destruct (linalg.elems W !! j) as [row|]; [|by intros [= <-]].
  destruct (row !! i); [done|]. by intros [= <-].
Qed.

Lemma linalg_get_throws (W : linalg.Matrix) (j i : nat) (e : exception) :
  linalg.get W j i = Throw e → e = out_of_range.
Proof.
  unfold linalg.get, vector_at.
  destruct (linalg.elems W !! j) as [row|]; cbn; [|by intros [= <-]].
  destruct (row !! i); [done|]. by intros [= <-].
Qed.

Lemma getBiasAt_throws (L : Layer.t) (j : nat) (e : exception) :
  Layer.getBiasAt j L = Throw e → e = out_of_range.
Proof.
  unfold Layer.getBiasAt, vector_at.
  destruct (L !! j); cbn; [done|]. by intros [= <-].
Qed.

(** Every exception [update] ends by is [out_of_range]. *)
Lemma update_throws : throws_only out_of_range Network.update.
Proof.
  unfold Network.update.
  apply throws_only_bind; [apply throws_only_gets|]. intros ws.
  apply throws_only_for. intros l. unfold Network.update_matrix.
  apply throws_only_bind; [apply matrix_at_throws|]. intros _.
  apply throws_only_bind; [apply error_at_rev_throws|]. intros _.
  apply throws_only_bind; [apply layer_at_throws|]. intros next.
  apply throws_only_for. intros j. unfold Network.update_neuron.
  apply throws_only_bind; [apply layer_at_throws|]. intros this.
  apply throws_only_bind.
  { apply throws_only_for. intros i. unfold Network.update_weight.
    apply throws_only_bind; [apply matrix_at_throws|]. intros W.
    apply throws_only_bind; [apply throws_only_lift, linalg_get_throws|]. intros w.
    apply throws_only_bind; [apply layer_at_throws|]. intros source.
    apply throws_only_bind; [apply throws_only_lift, vector_at_throws|]. intros a.
    apply throws_only_bind; [apply error_at_rev_throws|]. intros currentError.
    apply throws_only_bind; [apply throws_only_lift, vector_at_throws|]. intros e.
    apply set_weight_throws. }
  intros _.
  apply throws_only_bind; [apply layer_at_throws|]. intros dest.
  apply throws_only_bind; [apply throws_only_lift, getBiasAt_throws|]. intros b.
  apply throws_only_bind; [apply error_at_rev_throws|]. intros currentError.
  apply throws_only_bind; [apply throws_only_lift, vector_at_throws|]. intros e.
  apply setBiasAt_throws.
Qed.

(** A loop one of whose rounds cannot return does not return. *)
Lemma for_from_stops {St} (P : St → Prop) (body : nat → M St unit) (k : nat) :
  (∀ j s, P s → P (body j s).2) →
  (∀ s, P s → ∃ e, (body k s).1 = Throw e) →
  ∀ n i s, i ≤ k < i + n → P s → ∃ e, (for_from i n body s).1 = Throw e.
Proof.
  intros Hkeep Hthrow. induction n as [|n IH]; intros i s Hi HP; [lia|].
  cbn [for_from]. rewrite bind_eq.
  pose proof (Hkeep i s HP) as HP'.
  destruct (body i s) as [[[]|e] s'] eqn:Hb; [|by exists e].
  destruct (decide (i = k)) as [->|Hne].
  - destruct (Hthrow s HP) as [e He]. by rewrite Hb in He.
  - apply IH; [lia|done].
Qed.

(** Two networks of the shapes of a third that agree on every weight the
    third has, have the same weight matrices. *)
Lemma matrices_ext (net0 net1 net2 : Network.t) :
  matrix_shape <$> Network.m_weightMatrices net1
    = matrix_shape <$> Network.m_weightMatrices net0 →
  matrix_shape <$> Network.m_weightMatrices net2
    = matrix_shape <$> Network.m_weightMatrices net0 →
  (∀ l j i w, weight net0 l j i = Some w → weight net1 l j i = weight net2 l j i) →
  Network.m_weightMatrices net1 = Network.m_weightMatrices net2.
Proof.
  intros H1 H2 Hw. apply list_eq. intros l.
  apply (f_equal (.!! l)) in H1, H2. rewrite !list_lookup_fmap in H1, H2.
  specialize (Hw l). unfold weight in Hw.
  destruct (Network.m_weightMatrices net0 !! l) as [W0|];
    destruct (Network.m_weightMatrices net1 !! l) as [W1|];
    destruct (Network.m_weightMatrices net2 !! l) as [W2|]; try done.
  f_equal. cbn in H1, H2, Hw. injection H1 as Hr1 Hc1 He1. injection H2 as Hr2 Hc2 He2.
  destruct W1 as [r1 c1 e1], W2 as [r2 c2 e2]. cbn in *.
  f_equal; [congruence|congruence|].
  apply list_eq. intros j.
  apply (f_equal (.!! j)) in He1, He2. rewrite !list_lookup_fmap in He1, He2.
  specialize (Hw j).
  destruct (linalg.elems W0 !! j) as [row0|];
    destruct (e1 !! j) as [row1|];
    destruct (e2 !! j) as [row2|]; try done.
  f_equal. cbn in He1, He2, Hw. injection He1 as He1. injection He2 as He2.
  apply list_eq. intros i.
  destruct (row0 !! i) as [w|] eqn:Hw0.
  - by apply (Hw i w).
  - apply lookup_ge_None in Hw0.
    rewrite !(proj2 (lookup_ge_None _ _)); [done|lia..].
Qed.

(** Two networks whose neurons hold the inputs, activations and
    derivatives of a third, that agree on the input layer and on every
    bias of the later layers, have the same layers. *)
Lemma layers_ext (net0 net1 net2 : Network.t) :
  strip_layer <$> Network.m_layers net1 = strip_layer <$> Network.m_layers net0 →
  strip_layer <$> Network.m_layers net2 = strip_layer <$> Network.m_layers net0 →
  Network.m_layers net1 !! 0 = Network.m_layers net2 !! 0 →
  (∀ l j b, bias net0 (S l) j = Some b → bias net1 (S l) j = bias net2 (S l) j) →
  Network.m_layers net1 = Network.m_layers net2.
Proof.
  intros H1 H2 Hzero Hb. apply list_eq. intros [|l]; [done|].
  apply (f_equal (.!! S l)) in H1, H2. rewrite !list_lookup_fmap in H1, H2.
  specialize (Hb l). unfold bias, neuron in Hb.
  destruct (Network.m_layers net0 !! S l) as [L0|];
    destruct (Network.m_layers net1 !! S l) as [L1|];
    destruct (Network.m_layers net2 !! S l) as [L2|]; try done.
  f_equal. cbn in H1, H2, Hb. injection H1 as H1. injection H2 as H2.
  apply list_eq. intros j. unfold strip_layer in H1, H2.
  apply (f_equal (.!! j)) in H1, H2. rewrite !list_lookup_fmap in H1, H2.
  specialize (Hb j).
  destruct (L0 !! j) as [n0|];
    destruct (L1 !! j) as [n1|];
    destruct (L2 !! j) as [n2|]; try done.
  f_equal. cbn in H1, H2, Hb. injection H1 as H1. injection H2 as H2.
  specialize (Hb _ eq_refl). injection Hb as Hb.
  destruct n1, n2. unfold strip in *. cbn in *. congruence.
Qed.

Lemma error_rev_older (net : Network.t) (older : list (list double)) (l j : nat) :
  l < length (Network.m_errors net) →
  error_rev (Network.set_errors (older ++ Network.m_errors net) net) l j
  = error_rev net l j.
Proof.
  intros Hl. unfold error_rev. cbn [Network.set_errors Network.m_errors].
  rewrite length_app, !decide_True by lia.
  rewrite lookup_app_r by lia. do 2 f_equal. lia.
Qed.

Lemma errors_fit_older (net : Network.t) (older : list (list double)) :
  wf net → errors_fit net →
  errors_fit (Network.set_errors (older ++ Network.m_errors net) net).
Proof.
  intros (_ & Hcount & _) [Hlen Hfit]. split.
  - cbn. rewrite length_app. lia.
  - intros l Ln HLn. cbn in HLn.
    destruct (Hfit l Ln HLn) as (e & He & Hlene).
    exists e. split; [|done]. cbn. rewrite length_app.
    apply lookup_lt_Some in HLn.
    rewrite lookup_app_r by lia. rewrite <-He. f_equal. lia.
Qed.

(** Vectors standing in front of a fitting error list have no effect on
    what [update] leaves. *)
Lemma update_older_errors (net : Network.t) (older : list (list double)) :
  wf net →
  errors_fit net →
  ∃ net1 net2,
    Network.update net = (Ok tt, net1) ∧
    Network.update (Network.set_errors (older ++ Network.m_errors net) net)
      = (Ok tt, net2) ∧
    Network.m_weightMatrices net2 = Network.m_weightMatrices net1 ∧
    Network.m_layers net2 = Network.m_layers net1.
Proof.
  intros Hwf Hfit.
  destruct (update_returns net Hwf Hfit) as ([] & net1 & Hup1 & Hf1 & HW1 & HB1).
  destruct (update_returns (Network.set_errors (older ++ Network.m_errors net) net))
    as ([] & net2 & Hup2 & Hf2 & HW2 & HB2);
    [by apply wf_set_errors|by apply errors_fit_older|].
  exists net1, net2. split; [done|]. split; [done|].
  pose proof Hwf as (_ & Hcount & _). pose proof Hfit as [Hlen _].
  destruct Hf1 as (_&_&_&_&_& Hs1 & Hz1 & Hsh1).
  destruct Hf2 as (_&_&_&_&_& Hs2 & Hz2 & Hsh2).
  cbn [Network.set_errors Network.m_layers Network.m_weightMatrices] in *.
  split.
  - apply (matrices_ext net); [done..|].
    intros l j i w Hw.
    destruct (weight_bounds net l j i w Hwf Hw) as (L & Ln & _ & _ & Hl & _).
    rewrite (HW2 l j i w Hw), (HW1 l j i w Hw), !decide_True by lia.
    unfold new_weight. rewrite error_rev_older by lia. done.
  - apply (layers_ext net); [done..|congruence|].
    intros l j b Hb.
    assert (l < length (Network.m_weightMatrices net)) as Hl.
    { unfold bias in Hb. destruct (neuron net (S l) j) as [n|] eqn:Hn; [|done].
      apply neuron_Some in Hn as (L & HL & _). apply lookup_lt_Some in HL. lia. }
    rewrite (HB2 l j b Hb), (HB1 l j b Hb), !decide_True by lia.
    unfold new_bias. rewrite error_rev_older by lia. done.
Qed.

End update_extras.

(** X9. update needs one error vector per weight matrix: on a
    well-formed network whose error list holds fewer vectors than there
    are weight matrices, update does not return, it throws out_of_range.
    The index m_errors.size() - 1 - l of line 121 is computed unsigned and
    wraps in the first round l for which no vector is left; the rounds
    before it have run. In particular update on an empty error list, as
    before any backPropagate, throws at once and leaves the network as it
    was. *)
Theorem X9_update_needs_errors `{Externals} (net : Network.t) :
  wf net →
  length (Network.m_errors net) < length (Network.m_weightMatrices net) →
  (Network.update net).1 = Throw out_of_range ∧
  (Network.m_errors net = [] → Network.update net = (Throw out_of_range, net)).
Proof.
  intros _ Hfew. split.
  - assert (∃ e, (Network.update net).1 = Throw e) as [e He].
    { unfold Network.update. rewrite bind_eq. cbn [gets]. unfold for_.
      apply (for_from_stops (update_frame net) _ (length (Network.m_errors net))).
      + intros j s HP. etrans; [exact HP|]. apply update_matrix_frame.
      + intros s HP. exists out_of_range.
        unfold Network.update_matrix. rewrite bind_eq, matrix_at_eq.
        destruct (vector_at_lt (Network.m_weightMatrices s)
                    (length (Network.m_errors net))) as (W & _ & ->).
        { rewrite (frame_matrices_length net s HP). lia. }
        rewrite bind_eq, error_at_rev_eq.
        destruct HP as (_ & _ & _ & _ & -> & _).
        rewrite decide_False by lia. done.
      + lia.
      + reflexivity. }
    rewrite He. f_equal. by apply (update_throws net).
  - intros Herr. unfold Network.update. rewrite bind_eq. cbn [gets].
    destruct (Network.m_weightMatrices net) as [|W Ws] eqn:HWs; [simpl in Hfew; lia|].
    unfold for_. cbn [length for_from]. rewrite bind_eq.
    unfold Network.update_matrix. rewrite bind_eq, matrix_at_eq, HWs.
    cbn [vector_at lookup list_lookup]. rewrite bind_eq, error_at_rev_eq, Herr.
    done.
Qed.

Lemma X9_update_needs_errors_witness :
  wf Zmodel.fed_2_3_1 ∧
  length (Network.m_errors Zmodel.fed_2_3_1)
    < length (Network.m_weightMatrices Zmodel.fed_2_3_1) ∧
  @Network.update Zmodel.Z_double Zmodel.Z_externals Zmodel.fed_2_3_1
    = (Throw out_of_range, Zmodel.fed_2_3_1).
Proof.
  assert (wf Zmodel.fed_2_3_1) as Hwf by wf_by_computation.
  assert (length (Network.m_errors Zmodel.fed_2_3_1)
            < length (Network.m_weightMatrices Zmodel.fed_2_3_1)) as Hfew
    by (vm_compute; lia).
  split; [exact Hwf|]. split; [exact Hfew|].
  exact (proj2 (@X9_update_needs_errors Zmodel.Z_double Zmodel.Z_externals
                  Zmodel.fed_2_3_1 Hwf Hfew) eq_refl).
Defined.

(** X10. update reads the error vectors from the end of the error list:
    vectors standing before those that fit the network, such as the ones
    an uncleared earlier pass left, have no effect. On a well-formed
    network whose error list fits, update returns, and it returns with the
    same weight matrices and the same layers when any vectors are put in
    front of the list. *)
Theorem X10_update_reads_from_end `{Externals} (net : Network.t)
    (older : list (list double)) :
  wf net →
  errors_fit net →
  ∃ net1 net2,
    Network.update net = (Ok tt, net1) ∧
    Network.update (Network.set_errors (older ++ Network.m_errors net) net)
      = (Ok tt, net2) ∧
    Network.m_weightMatrices net2 = Network.m_weightMatrices net1 ∧
    Network.m_layers net2 = Network.m_layers net1.
Proof. apply update_older_errors. Qed.

Lemma X10_update_reads_from_end_witness :
  wf Zmodel.backpropagated_2_3_1 ∧
  errors_fit Zmodel.backpropagated_2_3_1 ∧
  ∃ net1 net2,
    @Network.update Zmodel.Z_double Zmodel.Z_externals Zmodel.backpropagated_2_3_1
      = (Ok tt, net1) ∧
    @Network.update Zmodel.Z_double Zmodel.Z_externals
      (@Network.set_errors Zmodel.Z_double
         ([[1; 2; 3]]%Z ++ Network.m_errors Zmodel.backpropagated_2_3_1)
         Zmodel.backpropagated_2_3_1)
      = (Ok tt, net2) ∧
    Network.m_weightMatrices net2 = Network.m_weightMatrices net1 ∧
    Network.m_layers net2 = Network.m_layers net1.
Proof.
  assert (wf Zmodel.backpropagated_2_3_1) as Hwf by wf_by_computation.
  assert (errors_fit Zmodel.backpropagated_2_3_1) as Hfit by errors_fit_by_computation.
  split; [exact Hwf|]. split; [exact Hfit|].
  exact (@X10_update_reads_from_end Zmodel.Z_double Zmodel.Z_externals
           Zmodel.backpropagated_2_3_1 [[1; 2; 3]]%Z Hwf Hfit).
Defined.

(** ** printToConsole *)

Section printToConsole_extras.
Context `{Externals}.

Lemma print_loop (net : Network.t) (n : nat) :
  ∀ i, i ≤ length (Network.m_layers net) →
    for_from i n (λ layerIndex, _ ← Network.layer_at layerIndex; mret tt) net
    = (if decide (i + n ≤ length (Network.m_layers net))
       then Ok tt else Throw out_of_range, net).
Proof.
  induction n as [|n IH]; intros i Hi.
  - cbn [for_from]. by rewrite decide_True by lia.
  - cbn [for_from]. rewrite !bind_eq, layer_at_eq.
    destruct (decide (i < length (Network.m_layers net))) as [Hlt|Hge].
    + destruct (vector_at_lt _ _ Hlt) as (L & _ & ->).
      unfold mret at 1, M_ret at 1. rewrite IH by lia.
      destruct (decide (S i + n ≤ _)), (decide (i + S n ≤ _)); try done; lia.
    + rewrite vector_at_ge by lia. by rewrite decide_False by lia.
Qed.

End printToConsole_extras.

(** X11. printToConsole never changes the network. It returns normally
    exactly when the stored layer count m_numLayers does not exceed the
    number of layers held; otherwise its read m_layers.at of the first
    missing layer throws out_of_range. *)
Theorem X11_printToConsole_outcome `{Externals} (net : Network.t) :
  Network.printToConsole net
  = (if decide (Z.to_nat (Network.m_numLayers net) ≤ length (Network.m_layers net))
     then Ok tt else Throw out_of_range, net).
Proof.
  unfold Network.printToConsole. rewrite bind_eq. cbn [gets]. unfold for_.
  rewrite print_loop by lia. done.
Qed.

(** ** train *)

Section train_extras.
Context `{Externals}.

Global Instance same_topology_preorder : PreOrder same_topology.
Proof.
  split.
  - intros net. by repeat split.
  - intros n1 n2 n3 (?&?&?&?) (?&?&?&?). repeat split; etrans; eauto.
Qed.

(** The topology carries well-formedness over. *)
Lemma topology_wf (net0 net : Network.t) : same_topology net0 net → wf net0 → wf net.
Proof.
  intros (_ & Hn & Hls & Hs) (Hnum & Hlen & Hwf).
  assert (length (Network.m_layers net) = length (Network.m_layers net0)) as Hll.
  { apply (f_equal length) in Hls. by rewrite !length_fmap in Hls. }
  assert (length (Network.m_weightMatrices net)
          = length (Network.m_weightMatrices net0)) as Hms.
  { apply (f_equal length) in Hs. by rewrite !length_fmap in Hs. }
  split_and!; [congruence|congruence|].
  intros l W HW. rewrite Hls.
  assert ((matrix_shape <$> Network.m_weightMatrices net0) !! l
          = Some (matrix_shape W)) as HW0.
  { by rewrite <-Hs, list_lookup_fmap, HW. }
  rewrite list_lookup_fmap in HW0.
  destruct (Network.m_weightMatrices net0 !! l) as [W0|] eqn:HW0'; [|done].
  simpl in HW0. unfold matrix_shape in HW0. simplify_eq.
  destruct (Hwf l W0 HW0') as (Hok & Hc & Hr).
  unfold matrix_ok in *. split_and!; congruence.
Qed.

Lemma setInputAt_topology (l j : nat) (x : double) :
  preserves same_topology (Network.with_layer l (Layer.setInputAt j x)).
Proof.
  intros net. rewrite with_layer_eq.
  destruct (Network.m_layers net !! l) as [L|] eqn:HL; [|reflexivity].
  rewrite setInputAt_eq.
  destruct (L !! j) as [n|]; [|reflexivity].
  cbn [snd]. split_and!; try done.
  cbn. eapply length_insert_layer; [done|]. by rewrite length_insert.
Qed.

Lemma setInput_topology (input : list double) :
  preserves same_topology (Network.setInput input).
Proof.
  unfold Network.setInput.
  apply preserves_bind; [apply _|by apply preserves_modify|]. intros _.
  apply preserves_for; [apply _|]. intros i.
  apply preserves_bind; [apply _|apply preserves_lift, _|]. intros x.
  apply setInputAt_topology.
Qed.

Lemma setTarget_topology (target : list double) :
  preserves same_topology (Network.setTarget target).
Proof.
  unfold Network.setTarget.
  apply preserves_bind; [apply _|apply preserves_gets, _|]. intros layers.
  destruct (decide _); [by apply preserves_modify|apply preserves_lift, _].
Qed.

Lemma feedForward_topology : preserves same_topology Network.feedForward.
Proof.
  unfold Network.feedForward.
  apply preserves_bind; [apply _|apply preserves_gets, _|]. intros layers.
  destruct (length layers) as [|n]; [apply preserves_lift, _|].
  apply preserves_for; [apply _|]. intros l.
  apply preserves_bind; [apply _| |]. { intros net. reflexivity. } intros current.
  apply preserves_bind; [apply _| |]. { intros net. reflexivity. } intros W.
  apply preserves_bind; [apply _|apply preserves_lift, _|]. intros nextLayerInputs.
  apply preserves_for; [apply _|]. intros j.
  apply preserves_bind; [apply _|apply preserves_lift, _|]. intros x.
  apply setInputAt_topology.
Qed.

Lemma printToConsole_unchanged (net : Network.t) :
  (Network.printToConsole net).2 = net.
Proof.
  unfold Network.printToConsole. rewrite bind_eq. cbn [gets]. unfold for_.
  by rewrite print_loop by lia.
Qed.

Lemma backPropagate_topology : preserves same_topology Network.backPropagate.
Proof.
  intros net. destruct (backPropagate_appends net) as (Hs & Hn & Hl & Hw & _).
  split_and!; [done|done|by rewrite Hl|by rewrite Hw].
Qed.

Lemma update_topology : preserves same_topology Network.update.
Proof.
  intros net. pose proof (update_preserves_frame net) as Hf.
  pose proof (frame_lengths _ _ Hf) as Hl.
  by destruct Hf as (Hs & Hn & _ & _ & _ & _ & _ & Hsh).
Qed.

Lemma train_sample_topology (trainingSample : list (list double)) :
  preserves same_topology (Network.train_sample trainingSample).
Proof.
  unfold Network.train_sample.
  apply preserves_bind; [apply _|apply preserves_lift, _|]. intros input.
  apply preserves_bind; [apply _|apply setInput_topology|]. intros _.
  apply preserves_bind; [apply _|apply preserves_lift, _|]. intros target.
  apply preserves_bind; [apply _|apply setTarget_topology|]. intros _.
  apply preserves_bind; [apply _|apply feedForward_topology|]. intros _.
  apply preserves_bind; [apply _| |].
  { intros net. by rewrite printToConsole_unchanged. }
  intros _.
  apply preserves_bind; [apply _|by apply preserves_modify|]. intros _.
  apply preserves_bind; [apply _|apply backPropagate_topology|]. intros _.
  apply update_topology.
Qed.

Lemma train_topology (trainingData : list (list (list double))) :
  preserves same_topology (Network.train trainingData).
Proof.
  induction trainingData as [|sample rest IH].
  - apply preserves_ret, _.
  - cbn [Network.train].
    apply preserves_bind; [apply _|apply train_sample_topology|]. intros _. exact IH.
Qed.

Lemma setInput_throws (input : list double) (net : Network.t) :
  ∃ r, Network.setInput input net = (r, (Network.setInput input net).2) ∧
       (r = Ok tt ∨ r = Throw out_of_range).
Proof.
  destruct (Network.m_layers net) as [|L0 rest] eqn:Hnet.
  - rewrite (setInput_no_layers input net Hnet). eexists. split; [done|].
    destruct (decide _); auto.
  - rewrite (setInput_eq input L0 rest net Hnet). eexists. split; [done|].
    destruct (decide _); auto.
Qed.

(** The state the forward half of a gradient step leaves. *)
Lemma forward_pass_state (net : Network.t) (input target : list double) :
  wf net → sample_fits net (input, target) →
  ∃ mid L0 rest,
    forward_pass input target net = (Ok tt, mid) ∧
    Network.m_input mid = input ∧
    Network.m_targetOutput mid = target ∧
    Network.m_layers mid = L0 :: rest ∧
    Layer.getInputs L0 = input.
Proof.
  intros Hwf [Hin Htg]. cbn [fst snd] in *.
  destruct (Network.m_layers net) as [|L0 rest] eqn:Hlayers; [done|].
  cbn in Hin. injection Hin as Hin.
  set (net1 := Network.set_layers (set_inputs input L0 :: rest)
                 (Network.set_input input net)).
  assert (length <$> Network.m_layers net1 = length <$> Network.m_layers net) as Hl1.
  { rewrite Hlayers. cbn. by rewrite set_inputs_length. }
  assert (wf net1) as Hwf1.
  { apply wf_set_layers; [by apply wf_set_input|].
    cbn [Network.set_input Network.m_layers]. rewrite Hlayers.
    cbn. by rewrite set_inputs_length. }
  set (net2 := Network.set_targetOutput target net1).
  assert (wf net2) as Hwf2 by (by apply wf_set_targetOutput).
  set (F := fed_layers 0 (length (Network.m_weightMatrices net2))
              (Network.m_weightMatrices net2) (Network.m_layers net2)).
  assert (F !! 0 = Some (set_inputs input L0)) as HF0.
  { unfold F. by rewrite fed_layers_lookup_le by lia. }
  destruct F as [|F0 Frest] eqn:HF; [done|]. injection HF0 as ->.
  exists (Network.set_layers (set_inputs input L0 :: Frest) net2),
         (set_inputs input L0), Frest.
  split_and!; [|done..|].
  - unfold forward_pass. rewrite bind_eq, (setInput_eq input L0 rest) by done.
    rewrite decide_True by lia. fold net1.
    rewrite bind_eq, setTarget_eq by (rewrite Hl1, Hlayers; exact Htg).
    fold net2. rewrite (feedForward_eq net2) by done. by rewrite <-HF.
  - by apply set_inputs_getInputs.
Qed.

Lemma built_lengths (sizes : list Z) (k : nat) :
  length <$> Network.m_layers (built sizes k) = Z.to_nat <$> sizes.
Proof.
  apply list_eq. intros t. unfold built. cbn [Network.m_layers].
  rewrite <-list_fmap_compose, !list_lookup_fmap.
  destruct (sizes !! t) as [n|] eqn:Hn.
  - rewrite lookup_seq_lt by (by apply lookup_lt_Some in Hn).
    cbn. rewrite built_layer_length. unfold size_at. by rewrite Hn.
  - rewrite lookup_seq_ge; [done|]. by apply lookup_ge_None.
Qed.

End train_extras.

(** X12. train over two batches of samples, one after the other, is
    train over their concatenation: the second batch starts from the
    network the first batch left. When a sample of the first batch throws,
    no later sample is processed and the network stays as it was at the
    throw. *)
Theorem X12_train_app `{Externals} (first second : list (list (list double)))
    (net : Network.t) :
  Network.train (first ++ second) net =
  match Network.train first net with
  | (Ok _, net1) => Network.train second net1
  | (Throw e, net1) => (Throw e, net1)
  end.
Proof.
  revert net. induction first as [|sample first IH]; intros net; [done|].
  cbn [app Network.train]. rewrite !bind_eq.
  destruct (Network.train_sample sample net) as [[[]|e] s']; [|done]. apply IH.
Qed.

(** X13. No method of network.cpp changes the topology, however it ends
    and whatever it is given: after setInput, feedForward, backPropagate
    (on a network that has layers), update and train the stored layer
    sizes and layer count, the number of layers, the number of neurons of
    each layer and the shape of each weight matrix are as before. So a
    well-formed network is still well formed after train, also when train
    has thrown in the middle of a sample. *)
Theorem X13_methods_keep_topology `{Externals} (net : Network.t) :
  (∀ input, same_topology net (Network.setInput input net).2) ∧
  same_topology net (Network.feedForward net).2 ∧
  (Network.m_layers net ≠ [] → same_topology net (Network.backPropagate net).2) ∧
  same_topology net (Network.update net).2 ∧
  (∀ trainingData,
     same_topology net (Network.train trainingData net).2 ∧
     (wf net → wf (Network.train trainingData net).2)).
Proof.
  split_and!.
  - intros input. apply setInput_topology.
  - apply feedForward_topology.
  - intros _. apply backPropagate_topology.
  - apply update_topology.
  - intros trainingData.
    pose proof (train_topology trainingData net) as Ht.
    split; [done|]. by apply topology_wf.
Qed.

Lemma X13_methods_keep_topology_witness :
  wf Zmodel.net_2_3_1 ∧
  wf (@Network.train Zmodel.Z_double Zmodel.Z_externals
        [[[1; 2]; [5]]; [[3; 4; 5]; [6]]]%Z Zmodel.net_2_3_1).2 ∧
  (@Network.train Zmodel.Z_double Zmodel.Z_externals
     [[[1; 2]; [5]]; [[3; 4; 5]; [6]]]%Z Zmodel.net_2_3_1).1 = Throw out_of_range.
Proof.
  assert (wf Zmodel.net_2_3_1) as Hwf by wf_by_computation.
  split; [exact Hwf|]. split.
  - destruct (@X13_methods_keep_topology Zmodel.Z_double Zmodel.Z_externals
                Zmodel.net_2_3_1) as (_ & _ & _ & _ & Htrain).
    exact (proj2 (Htrain _) Hwf).
  - vm_compute. reflexivity.
Defined.

(** X14. train reads components 0 and 1 of a sample with at. A sample
    that holds an input but no target makes train throw out_of_range at
    trainingSample.at(1), after setInput has run: the input of the broken
    sample is already written into the network, and no later sample is
    processed. A sample with no component at all throws at
    trainingSample.at(0), the network untouched. Components after the
    second are never read: a sample with more than two is processed as its
    first two. *)
Theorem X14_train_sample_components `{Externals} (net : Network.t)
    (input target : list double) (more : list (list double))
    (rest : list (list (list double))) :
  Network.train ([input] :: rest) net
    = (Throw out_of_range, (Network.setInput input net).2) ∧
  Network.train ([] :: rest) net = (Throw out_of_range, net) ∧
  Network.train ((input :: target :: more) :: rest) net
    = Network.train ([input; target] :: rest) net.
Proof.
  split_and!; [|done..].
  cbn [Network.train]. rewrite bind_eq. unfold Network.train_sample.
  rewrite bind_eq. unfold lift at 1. cbn [vector_at lookup list_lookup].
  rewrite bind_eq.
  destruct (setInput_throws input net) as (r & -> & [->| ->]); [|done].
  rewrite bind_eq. done.
Qed.

(** X15. A network fresh from the constructor can be trained at once:
    for a non-empty sequence of non-negative layer sizes and samples whose
    inputs have the first size and whose targets have the last, the
    constructor returns, train on the constructed network returns, and the
    trained network is well formed, with the layers of the sizes given. *)
Theorem X15_fresh_network_trains `{Externals} (sizes : list Z) (k : nat)
    (samples : list (list double * list double)) :
  sizes ≠ [] →
  Forall (λ n, 0 ≤ n)%Z sizes →
  Forall (λ sample, head sizes = Some (Z.of_nat (length sample.1)) ∧
                    last sizes = Some (Z.of_nat (length sample.2))) samples →
  ∃ net k' net',
    Network.construct sizes k = (Ok net, k') ∧
    Network.train (as_sample <$> samples) net = (Ok tt, net') ∧
    wf net' ∧
    Z.of_nat <$> (length <$> Network.m_layers net') = sizes.
Proof.
  intros Hne Hnonneg Hfit.
  pose proof (built_wf sizes k Hne) as Hwf.
  destruct (train_spec_returns samples (built sizes k) Hwf)
    as (net' & Htrain & Hwf' & Hlens).
  { eapply Forall_impl; [exact Hfit|]. intros [input target] [Hin Htg].
    cbn [fst snd] in *. unfold sample_fits. cbn [fst snd].
    rewrite built_lengths, fmap_last, Htg.
    replace (head (Z.to_nat <$> sizes)) with (Z.to_nat <$> head sizes)
      by (by destruct sizes).
    rewrite Hin. cbn. by rewrite !Nat2Z.id. }
  exists (built sizes k), (k + draws sizes (length sizes - 1)), net'.
  split; [apply construct_eq|].
  split; [by rewrite train_eq_spec by (by apply wf_printable)|].
  split; [done|].
  rewrite Hlens, built_lengths, <-list_fmap_compose.
  rewrite <-(list_fmap_id sizes) at 2. apply Forall_fmap_ext_1.
  eapply Forall_impl; [exact Hnonneg|]. intros n Hn. cbn in Hn |- *. apply Z2Nat.id, Hn.
Qed.

Lemma X15_fresh_network_trains_witness :
  [2; 3; 1]%Z ≠ [] ∧
  Forall (λ n, 0 ≤ n)%Z [2; 3; 1]%Z ∧
  ∃ net k' net',
    @Network.construct Zmodel.Z_double Zmodel.Z_externals [2; 3; 1]%Z 0
      = (Ok net, k') ∧
    @Network.train Zmodel.Z_double Zmodel.Z_externals
      [[[1; 2]; [5]]; [[3; 4]; [6]]]%Z net = (Ok tt, net') ∧
    wf net'.
Proof.
  assert ([2; 3; 1]%Z ≠ []) as Hne by discriminate.
  assert (Forall (λ n, 0 ≤ n)%Z [2; 3; 1]%Z) as Hnonneg
    by (repeat constructor; lia).
  split; [exact Hne|]. split; [exact Hnonneg|].
  destruct (@X15_fresh_network_trains Zmodel.Z_double Zmodel.Z_externals
              [2; 3; 1]%Z 0 [([1; 2], [5]); ([3; 4], [6])]%Z Hne Hnonneg)
    as (net & k' & net' & Hc & Ht & Hwf & _).
  { repeat constructor. }
  exists net, k', net'. split; [exact Hc|]. split; [exact Ht|exact Hwf].
Defined.

(** X16. After train has returned on a well-formed network with fitting
    samples, the network holds the last sample: m_input is its input,
    which is also what the neurons of the input layer hold as inputs, and
    the stored target is its target. *)
Theorem X16_train_holds_last_sample `{Externals} (net : Network.t)
    (front : list (list double * list double)) (input target : list double) :
  wf net →
  Forall (sample_fits net) (front ++ [(input, target)]) →
  ∃ net' L0 rest,
    Network.train (as_sample <$> front ++ [(input, target)]) net = (Ok tt, net') ∧
    Network.m_input net' = input ∧
    Network.m_targetOutput net' = target ∧
    Network.m_layers net' = L0 :: rest ∧
    Layer.getInputs L0 = input.
Proof.
  intros Hwf Hfits.
  apply Forall_app in Hfits as [Hfront Hlast].
  rewrite Forall_singleton in Hlast.
  destruct (train_spec_returns front net Hwf Hfront) as (before & Hbefore & Hwfb & Hlens).
  assert (sample_fits before (input, target)) as Hfit
    by (by apply (sample_fits_lengths net)).
  destruct (gradient_step_returns before input target Hwfb Hfit)
    as (mid & net' & Hfwd & _ & Hup & Hstep & _).
  destruct (forward_pass_state before input target Hwfb Hfit)
    as (mid' & L0 & rest & Hfwd' & Hin & Htg & Hlayers & HL0).
  rewrite Hfwd in Hfwd'. injection Hfwd' as <-.
  pose proof (update_preserves_frame (Network.set_errors (produced_errors mid) mid))
    as Hf.
  rewrite Hup in Hf. cbn [snd] in Hf.
  destruct Hf as (_ & _ & Hi' & Ht' & _ & _ & Hz & _).
  cbn [Network.set_errors Network.m_input Network.m_targetOutput Network.m_layers]
    in Hi', Ht', Hz.
  rewrite Hlayers in Hz. cbn in Hz.
  destruct (Network.m_layers net') as [|L0' rest'] eqn:Hlayers'; [done|].
  injection Hz as ->.
  exists net', L0, rest'.
  split_and!; [|congruence|congruence|done|done].
  rewrite train_eq_spec by (by apply wf_printable).
  by rewrite train_spec_snoc, Hbefore.
Qed.

Lemma X16_train_holds_last_sample_witness :
  wf Zmodel.net_2_3_1 ∧
  Forall (sample_fits Zmodel.net_2_3_1) ([([1; 2], [5])] ++ [([3; 4], [6])])%Z ∧
  ∃ net',
    @Network.train Zmodel.Z_double Zmodel.Z_externals
      [[[1; 2]; [5]]; [[3; 4]; [6]]]%Z Zmodel.net_2_3_1 = (Ok tt, net') ∧
    Network.m_input net' = [3; 4]%Z ∧
    Network.m_targetOutput net' = [6]%Z.
Proof.
  assert (wf Zmodel.net_2_3_1) as Hwf by wf_by_computation.
  assert (Forall (sample_fits Zmodel.net_2_3_1)
            ([([1; 2], [5])] ++ [([3; 4], [6])])%Z) as Hfits
    by (repeat constructor).
  split; [exact Hwf|]. split; [exact Hfits|].
  destruct (@X16_train_holds_last_sample Zmodel.Z_double Zmodel.Z_externals
              Zmodel.net_2_3_1 _ _ _ Hwf Hfits)
    as (net' & L0 & rest & Htrain & Hin & Htg & _).
  exists net'. split; [exact Htrain|]. split; [exact Hin|exact Htg].
Defined.

(** ** The constructor *)

Section constructor_extras.
Context `{Externals}.

Lemma bias_draw_lt (sizes : list Z) (k l j l' j' : nat) :
  l < l' → j < size_at sizes (S l) →
  bias_draw sizes k l j < bias_draw sizes k l' j'.
Proof.
  intros Hl Hj. unfold bias_draw.
  pose proof (draws_mono sizes (S l) l' ltac:(lia)) as Hmono.
  cbn [draws] in Hmono. lia.
Qed.

Lemma bias_draw_inj (sizes : list Z) (k l j l' j' : nat) :
  j < size_at sizes (S l) → j' < size_at sizes (S l') →
  bias_draw sizes k l j = bias_draw sizes k l' j' → l = l' ∧ j = j'.
Proof.
  intros Hj Hj' Heq.
  destruct (lt_eq_lt_dec l l') as [[Hlt| ->]|Hgt].
  - pose proof (bias_draw_lt sizes k l j l' j' Hlt Hj). lia.
  - unfold bias_draw in Heq. split; [done|lia].
  - pose proof (bias_draw_lt sizes k l' j' l j Hgt Hj'). lia.
Qed.

End constructor_extras.

(** X17. The constructor gives every neuron after the input layer a
    random number of its own as bias: two different such neurons get the
    results of two different calls of randomDouble, both made during this
    construction. No draw is used for two biases. *)
Theorem X17_constructor_biases_own_draws `{Externals} (sizes : list Z)
    (k l j l' j' : nat) :
  S l < length sizes → j < size_at sizes (S l) →
  S l' < length sizes → j' < size_at sizes (S l') →
  (l, j) ≠ (l', j') →
  ∃ net k' c c',
    Network.construct sizes k = (Ok net, k') ∧
    bias net (S l) j = Some (randomDouble c) ∧
    bias net (S l') j' = Some (randomDouble c') ∧
    c ≠ c' ∧
    k ≤ c < k' ∧ k ≤ c' < k'.
Proof.
  intros Hl Hj Hl' Hj' Hne.
  exists (built sizes k), (k + draws sizes (length sizes - 1)),
         (bias_draw sizes k l j), (bias_draw sizes k l' j').
  split; [apply construct_eq|].
  split; [by apply built_bias|]. split; [by apply built_bias|].
  split.
  - intros Heq. apply Hne.
    destruct (bias_draw_inj sizes k l j l' j' Hj Hj' Heq) as [-> ->]. done.
  - split; by apply bias_draw_range.
Qed.

Lemma X17_constructor_biases_own_draws_witness :
  1 < length [2; 3; 1]%Z ∧ 2 < size_at [2; 3; 1]%Z 1 ∧
  2 < length [2; 3; 1]%Z ∧ 0 < size_at [2; 3; 1]%Z 2 ∧
  (0, 2) ≠ (1, 0) ∧
  ∃ net k' c c',
    @Network.construct Zmodel.Z_double Zmodel.Z_externals [2; 3; 1]%Z 0
      = (Ok net, k') ∧
    bias net 1 2 = Some (@randomDouble Zmodel.Z_double Zmodel.Z_externals c) ∧
    bias net 2 0 = Some (@randomDouble Zmodel.Z_double Zmodel.Z_externals c') ∧
    c ≠ c'.
Proof.
  assert (1 < length [2; 3; 1]%Z) as H1 by (simpl; lia).
  assert (2 < size_at [2; 3; 1]%Z 1) as H2 by (vm_compute; lia).
  assert (2 < length [2; 3; 1]%Z) as H3 by (simpl; lia).
  assert (0 < size_at [2; 3; 1]%Z 2) as H4 by (vm_compute; lia).
  assert ((0, 2) ≠ (1, 0)) as H5 by discriminate.
  split; [exact H1|]. split; [exact H2|]. split; [exact H3|]. split; [exact H4|].
  split; [exact H5|].
  destruct (@X17_constructor_biases_own_draws Zmodel.Z_double Zmodel.Z_externals
              [2; 3; 1]%Z 0 0 2 1 0 H1 H2 H3 H4 H5)
    as (net & k' & c & c' & Hc & Hb & Hb' & Hne & _).
  exists net, k', c, c'.
  split; [exact Hc|]. split; [exact Hb|]. split; [exact Hb'|exact Hne].
Defined.

(** ** Methods in sequence *)

Section sequence_extras.
Context `{Externals}.

(** [forward_pass_returns] for an input vector that may be shorter than
    the input layer. *)
Lemma forward_pass_short (net : Network.t) (L0 : Layer.t) (rest : list Layer.t)
    (input target : list double) :
  wf net →
  Network.m_layers net = L0 :: rest →
  length input ≤ length L0 →
  last (length <$> Network.m_layers net) = Some (length target) →
  ∃ mid,
    forward_pass input target net = (Ok tt, mid) ∧
    wf mid ∧
    length <$> Network.m_layers mid = length <$> Network.m_layers net ∧
    Network.m_targetOutput mid = target ∧
    Network.m_layers mid !! 0 = Some (set_inputs input L0).
Proof.
  intros Hwf Hlayers Hin Htg.
  set (net1 := Network.set_layers (set_inputs input L0 :: rest)
                 (Network.set_input input net)).
  assert (length <$> Network.m_layers net1 = length <$> Network.m_layers net) as Hl1.
  { rewrite Hlayers. cbn. by rewrite set_inputs_length. }
  assert (wf net1) as Hwf1.
  { apply wf_set_layers; [by apply wf_set_input|].
    cbn [Network.set_input Network.m_layers]. rewrite Hlayers.
    cbn. by rewrite set_inputs_length. }
  set (net2 := Network.set_targetOutput target net1).
  assert (wf net2) as Hwf2 by (by apply wf_set_targetOutput).
  eexists. split_and!.
  - unfold forward_pass. rewrite bind_eq, (setInput_eq input L0 rest) by done.
    rewrite decide_True by lia. fold net1.
    rewrite bind_eq, setTarget_eq by (rewrite Hl1; exact Htg).
    fold net2. by rewrite (feedForward_eq net2).
  - apply wf_set_layers; [done|]. apply fed_layers_lengths.
  - cbn [Network.set_layers Network.m_layers]. rewrite fed_layers_lengths.
    exact Hl1.
  - done.
  - cbn [Network.set_layers Network.m_layers].
    by rewrite fed_layers_lookup_le by lia.
Qed.

(** The backward half of a gradient step, from the state a forward pass
    left. *)
Lemma backward_pass_returns (net mid : Network.t) (input target : list double) :
  forward_pass input target net = (Ok tt, mid) →
  wf mid →
  last (length <$> Network.m_layers mid) = Some (length target) →
  Network.m_targetOutput mid = target →
  ∃ net',
    gradient_step input target net = (Ok tt, net') ∧
    update_frame (Network.set_errors (produced_errors mid) mid) net'.
Proof.
  intros Hfwd Hwfmid Htg Htmid.
  rewrite fmap_last in Htg.
  destruct (last (Network.m_layers mid)) as [back|] eqn:Hback; [|done].
  injection Htg as Htg.
  assert (Network.backPropagate (Network.set_errors [] mid)
          = (Ok tt, Network.set_errors (produced_errors mid) mid)) as Hbp.
  { rewrite (backPropagate_eq _ back); [done|by apply wf_set_errors|done|].
    cbn [Network.set_errors Network.m_targetOutput]. congruence. }
  destruct (update_returns (Network.set_errors (produced_errors mid) mid))
    as ([] & net' & Hup & Hf & _).
  { by apply wf_set_errors. }
  { apply (backPropagate_errors_fit mid back); [done..|congruence]. }
  exists net'. split; [|done].
  unfold gradient_step. unfold forward_pass in Hfwd.
  rewrite bind_eq in Hfwd. rewrite bind_eq.
  destruct (Network.setInput input net) as [[[]|e] s1]; [|done].
  rewrite bind_eq in Hfwd. rewrite bind_eq.
  destruct (Network.setTarget target s1) as [[[]|e] s2]; [|done].
  rewrite bind_eq, Hfwd. rewrite bind_eq. cbn [modify].
  by rewrite bind_eq, Hbp.
Qed.

End sequence_extras.

(** X18. For the weights and biases update computes, clearing the error
    list before backPropagate makes no difference: on a well-formed
    network with a target of the output layer's length, backPropagate
    followed by update returns, and leaves the same weight matrices and
    the same layers whether the error list was emptied first, as train
    does, or still held the vectors of earlier passes. *)
Theorem X18_clearing_errors_is_immaterial `{Externals} (net : Network.t)
    (back : Layer.t) :
  wf net →
  last (Network.m_layers net) = Some back →
  length (Network.m_targetOutput net) = length back →
  ∃ mid net1 mid0 net0,
    Network.backPropagate net = (Ok tt, mid) ∧
    Network.update mid = (Ok tt, net1) ∧
    Network.backPropagate (Network.set_errors [] net) = (Ok tt, mid0) ∧
    Network.update mid0 = (Ok tt, net0) ∧
    Network.m_weightMatrices net1 = Network.m_weightMatrices net0 ∧
    Network.m_layers net1 = Network.m_layers net0.
Proof.
  intros Hwf Hback Htg.
  destruct (update_older_errors (Network.set_errors (produced_errors net) net)
              (Network.m_errors net))
    as (net0 & net1 & Hup0 & Hup1 & HW & HL).
  { by apply wf_set_errors. }
  { by apply (backPropagate_errors_fit net back). }
  exists (Network.set_errors (Network.m_errors net ++ produced_errors net) net), net1,
         (Network.set_errors (produced_errors net) net), net0.
  split_and!; [|exact Hup1| |exact Hup0|done|done].
  - by apply (backPropagate_eq net back).
  - by rewrite (backPropagate_eq _ back) by (done || by apply wf_set_errors).
Qed.

Lemma X18_clearing_errors_is_immaterial_witness :
  wf Zmodel.stale_2_3_1 ∧
  Network.m_errors Zmodel.stale_2_3_1 ≠ [] ∧
  ∃ back,
    last (Network.m_layers Zmodel.stale_2_3_1) = Some back ∧
    length (Network.m_targetOutput Zmodel.stale_2_3_1) = length back ∧
    ∃ mid net1 mid0 net0,
      @Network.backPropagate Zmodel.Z_double Zmodel.stale_2_3_1 = (Ok tt, mid) ∧
      @Network.update Zmodel.Z_double Zmodel.Z_externals mid = (Ok tt, net1) ∧
      @Network.backPropagate Zmodel.Z_double
        (@Network.set_errors Zmodel.Z_double [] Zmodel.stale_2_3_1) = (Ok tt, mid0) ∧
      @Network.update Zmodel.Z_double Zmodel.Z_externals mid0 = (Ok tt, net0) ∧
      Network.m_weightMatrices net1 = Network.m_weightMatrices net0 ∧
      Network.m_layers net1 = Network.m_layers net0.
Proof.
  assert (wf Zmodel.stale_2_3_1) as Hwf by wf_by_computation.
  split; [exact Hwf|]. split; [vm_compute; discriminate|].
  eexists. split; [vm_compute; reflexivity|]. split; [vm_compute; reflexivity|].
  exact (@X18_clearing_errors_is_immaterial Zmodel.Z_double Zmodel.Z_externals
           Zmodel.stale_2_3_1 _ Hwf eq_refl eq_refl).
Defined.

(** X19. train does not reject an input vector shorter than the input
    layer: on a well-formed network, with a target of the output layer's
    length, the sample is processed to the end and train returns. The
    neurons of the input layer beyond the vector are not reset; they enter
    the forward pass with what they held before, such as the previous
    sample's values, and still hold it afterwards. *)
Theorem X19_train_accepts_short_input `{Externals} (net : Network.t)
    (L0 : Layer.t) (rest : list Layer.t) (input target : list double) :
  wf net →
  Network.m_layers net = L0 :: rest →
  length input < length L0 →
  last (length <$> Network.m_layers net) = Some (length target) →
  ∃ net' L0',
    Network.train [[input; target]] net = (Ok tt, net') ∧
    wf net' ∧
    Network.m_layers net' !! 0 = Some L0' ∧
    length L0' = length L0 ∧
    (∀ i x, input !! i = Some x → Neuron.getInput <$> L0' !! i = Some x) ∧
    (∀ i, length input ≤ i → L0' !! i = L0 !! i).
Proof.
  intros Hwf Hlayers Hshort Htg.
  destruct (forward_pass_short net L0 rest input target Hwf Hlayers)
    as (mid & Hfwd & Hwfmid & Hlmid & Htmid & Hmid0); [lia|done|].
  destruct (backward_pass_returns net mid input target Hfwd Hwfmid)
    as (net' & Hstep & Hf); [by rewrite Hlmid|done|].
  exists net', (set_inputs input L0).
  split_and!.
  - cbn [Network.train]. rewrite bind_eq.
    rewrite (train_sample_eq net input target) by (by apply wf_printable).
    by rewrite Hstep.
  - eapply frame_wf; [exact Hf|]. by apply wf_set_errors.
  - destruct Hf as (_&_&_&_&_&_&Hz&_). by rewrite Hz.
  - apply set_inputs_length.
  - intros i x Hx.
    destruct (lookup_lt_is_Some_2 L0 i) as [n Hn].
    { apply lookup_lt_Some in Hx. lia. }
    by rewrite (set_inputs_lookup input L0 i x n Hx Hn).
  - intros i Hi. by apply set_inputs_lookup_ge.
Qed.

Lemma X19_train_accepts_short_input_witness :
  wf Zmodel.net_2_3_1 ∧
  ∃ (L0 : list (@Neuron.t Zmodel.Z_double)) rest,
    Network.m_layers Zmodel.net_2_3_1 = L0 :: rest ∧
    length [7]%Z < length L0 ∧
    last (length <$> Network.m_layers Zmodel.net_2_3_1) = Some (length [5]%Z) ∧
    ∃ net',
      @Network.train Zmodel.Z_double Zmodel.Z_externals [[[7]; [5]]]%Z
        Zmodel.net_2_3_1 = (Ok tt, net') ∧
      wf net'.
Proof.
  assert (wf Zmodel.net_2_3_1) as Hwf by wf_by_computation.
  split; [exact Hwf|].
  eexists _, _. split; [vm_compute; reflexivity|].
  assert (length [7]%Z < 2) as Hshort by (simpl; lia).
  split; [exact Hshort|]. split; [vm_compute; reflexivity|].
  destruct (@X19_train_accepts_short_input Zmodel.Z_double Zmodel.Z_externals
              Zmodel.net_2_3_1 _ _ [7]%Z [5]%Z Hwf eq_refl Hshort eq_refl)
    as (net' & L0' & Htrain & Hwf' & _).
  exists net'. split; [exact Htrain|exact Hwf'].
Defined.

(** ** The random numbers a construction draws *)

Section draws_extras.
Context `{Externals}.

Lemma draws_sum (sizes : list Z) (m : nat) :
  draws sizes m
  = sum_list ((λ t, size_at sizes (S t) * size_at sizes t) <$> seq 0 m)
    + sum_list (size_at sizes <$> seq 1 m).
Proof.
  induction m as [|m IH]; [done|].
  rewrite !seq_S, !fmap_app, !sum_list_with_app. cbn [draws fmap list_fmap sum_list sum_list_with].
  rewrite IH. cbn. lia.
Qed.

Lemma built_parameters (sizes : list Z) (k : nat) :
  parameters (built sizes k) = draws sizes (length sizes - 1).
Proof.
  unfold parameters, built. cbn [Network.m_weightMatrices Network.m_layers].
  rewrite draws_sum. f_equal.
  - by rewrite <-list_fmap_compose.
  - destruct sizes as [|n sizes]; [done|].
    cbn [length seq fmap list_fmap tail].
    replace (S (length sizes) - 1) with (length sizes) by lia.
    rewrite <-list_fmap_compose. f_equal. apply list_fmap_ext.
    intros i t _. cbn. apply built_layer_length.
Qed.

End draws_extras.

(** X20. A construction draws exactly one random number per parameter:
    for a non-empty sequence of non-negative sizes the number of calls of
    randomDouble the constructor makes is the number of weights, rows
    times columns summed over the weight matrices, plus the number of
    neurons after the input layer, each of which gets one bias. *)
Theorem X20_constructor_draws_per_parameter `{Externals} (sizes : list Z)
    (k : nat) :
  sizes ≠ [] →
  Forall (λ n, 0 ≤ n)%Z sizes →
  ∃ net k',
    Network.construct sizes k = (Ok net, k') ∧
    k' = k + parameters net ∧
    wf net.
Proof.
  intros Hne _. exists (built sizes k), (k + draws sizes (length sizes - 1)).
  split; [apply construct_eq|]. split; [by rewrite built_parameters|].
  by apply built_wf.
Qed.

Lemma X20_constructor_draws_per_parameter_witness :
  [2; 3; 1]%Z ≠ [] ∧
  Forall (λ n, 0 ≤ n)%Z [2; 3; 1]%Z ∧
  ∃ net,
    @Network.construct Zmodel.Z_double Zmodel.Z_externals [2; 3; 1]%Z 0
      = (Ok net, 13) ∧
    parameters net = 13.
Proof.
  assert ([2; 3; 1]%Z ≠ []) as Hne by discriminate.
  assert (Forall (λ n, 0 ≤ n)%Z [2; 3; 1]%Z) as Hnonneg
    by (repeat constructor; lia).
  split; [exact Hne|]. split; [exact Hnonneg|].
  destruct (@X20_constructor_draws_per_parameter Zmodel.Z_double Zmodel.Z_externals
              [2; 3; 1]%Z 0 Hne Hnonneg) as (net & k' & Hc & Hk & _).
  exists net. vm_compute in Hc. injection Hc as <- <-.
  split; vm_compute; reflexivity.
Defined.

(** ** The forward pass as a function of the input *)

(** X21. What setInput followed by feedForward leaves in the layers is a
    function of the input vector, the weights and the biases alone: two
    well-formed networks with the same weight matrices and the same
    biases, given the same input of the input layer's size, end with the
    same layers, whatever inputs, activations and derivatives their
    neurons held from earlier passes. *)
Theorem X21_forward_pass_is_stateless `{Externals} (net1 net2 : Network.t)
    (input : list double) :
  wf net1 → wf net2 →
  Network.m_weightMatrices net1 = Network.m_weightMatrices net2 →
  biases_of <$> Network.m_layers net1 = biases_of <$> Network.m_layers net2 →
  head (length <$> Network.m_layers net1) = Some (length input) →
  ∃ mid1 mid2 net1' net2',
    Network.setInput input net1 = (Ok tt, mid1) ∧
    Network.feedForward mid1 = (Ok tt, net1') ∧
    Network.setInput input net2 = (Ok tt, mid2) ∧
    Network.feedForward mid2 = (Ok tt, net2') ∧
    Network.m_layers net1' = Network.m_layers net2'.
Proof.
  intros Hwf1 Hwf2 HWs Hb Hin.
  destruct (Network.m_layers net1) as [|L1 rest1] eqn:Hl1; [done|].
  destruct (Network.m_layers net2) as [|L2 rest2] eqn:Hl2; [done|].
  cbn in Hin. injection Hin as Hin.
  rewrite !fmap_cons in Hb. injection Hb as HbL Hbrest.
  assert (length L2 = length L1) as HlenL.
  { apply (f_equal length) in HbL. unfold biases_of in HbL.
    by rewrite !length_fmap in HbL. }
  set (mid1 := Network.set_layers (set_inputs input L1 :: rest1)
                 (Network.set_input input net1)).
  set (mid2 := Network.set_layers (set_inputs input L2 :: rest2)
                 (Network.set_input input net2)).
  assert (wf mid1) as Hwfm1.
  { apply wf_set_layers; [by apply wf_set_input|].
    cbn [Network.set_input Network.m_layers]. rewrite Hl1.
    cbn. by rewrite set_inputs_length. }
  assert (wf mid2) as Hwfm2.
  { apply wf_set_layers; [by apply wf_set_input|].
    cbn [Network.set_input Network.m_layers]. rewrite Hl2.
    cbn. by rewrite set_inputs_length. }
  eexists mid1, mid2, _, _. split_and!.
  - rewrite (setInput_eq input L1 rest1 net1 Hl1). by rewrite decide_True by lia.
  - by apply feedForward_eq.
  - rewrite (setInput_eq input L2 rest2 net2 Hl2). by rewrite decide_True by lia.
  - by apply feedForward_eq.
  - cbn [Network.set_layers Network.m_layers Network.m_weightMatrices
         Network.set_input mid1 mid2].
    unfold mid1, mid2.
    cbn [Network.set_layers Network.m_layers Network.m_weightMatrices
         Network.set_input].
    rewrite <-HWs. apply fed_layers_same.
    + destruct Hwfm1 as (_ & Hcount & _). exact Hcount.
    + rewrite !fmap_cons, !set_inputs_biases. by f_equal.
    + cbn. f_equal. by apply set_inputs_same_biases.
    + intros l W HW. by apply (wf_rows mid1).
Qed.

Lemma X21_forward_pass_is_stateless_witness :
  wf Zmodel.net_2_3_1 ∧ wf Zmodel.fed_2_3_1 ∧
  Network.m_layers Zmodel.net_2_3_1 ≠ Network.m_layers Zmodel.fed_2_3_1 ∧
  ∃ mid1 mid2 net1' net2',
    @Network.setInput Zmodel.Z_double Zmodel.Z_externals [3; 4]%Z Zmodel.net_2_3_1
      = (Ok tt, mid1) ∧
    @Network.feedForward Zmodel.Z_double Zmodel.Z_externals mid1 = (Ok tt, net1') ∧
    @Network.setInput Zmodel.Z_double Zmodel.Z_externals [3; 4]%Z Zmodel.fed_2_3_1
      = (Ok tt, mid2) ∧
    @Network.feedForward Zmodel.Z_double Zmodel.Z_externals mid2 = (Ok tt, net2') ∧
    Network.m_layers net1' = Network.m_layers net2'.
Proof.
  assert (wf Zmodel.net_2_3_1) as Hwf1 by wf_by_computation.
  assert (wf Zmodel.fed_2_3_1) as Hwf2 by wf_by_computation.
  split; [exact Hwf1|]. split; [exact Hwf2|].
  split; [vm_compute; discriminate|].
  exact (@X21_forward_pass_is_stateless Zmodel.Z_double Zmodel.Z_externals
           Zmodel.net_2_3_1 Zmodel.fed_2_3_1 [3; 4]%Z Hwf1 Hwf2
           eq_refl eq_refl eq_refl).
Defined.
